(** * PopulationCounty: the data-preparation script [prepare_data.py]

    A shallow embedding of the script that downloads the county boundaries
    and the ACS population table, cleans the table, derives the log-scaled
    magnitude, the percentile rank and the display colour of every county,
    joins the table into the boundary collection and writes the two
    artifacts [data/us_counties_population.geojson] and
    [data/us_counties_population.csv].

    Numbers.  In the table Python floats are modelled by exact numbers:
    the values the script obtains by rational arithmetic (populations,
    percentile ranks, the colour of a rank) are rationals [Q] and stay
    executable; [math.log10] is the real logarithm, so the column
    [log_pop] holds reals [R].  The rounding of the binary64 operations
    is studied apart from the table: module [Binary64] is the colour
    ramp of lines 82-96 on IEEE binary64 numbers, and [log_pop_with] is
    line 67 with the logarithm of the C library as a parameter.

    Libraries.  [pandas], [requests], [json] and [math] are not part of
    the repository; the few functions of them the script calls are
    modelled after their documented behaviour in modules [Py], [Pandas]
    and [Requests]. *)

From Stdlib Require Import ZArith QArith Qround Qreals Reals Lra Lqa Lia.
From Stdlib Require Import Ascii String DecimalString Floats Sorted.
From Stdlib Require DecimalZ DecimalPos.
From stdpp Require Import gmap strings list.

Set Warnings "-register-all".
Local Open Scope Z_scope.

(* ====================================================================== *)
(** * Python built-ins                                                    *)
(* ====================================================================== *)

Module Py.

(** ** Exceptions and results of fallible code *)

Inductive Exception : Type :=
| ConnectionError          (* requests: no response was obtained *)
| HTTPError (status : Z)   (* [raise_for_status] on a 4xx or 5xx answer *)
| JSONDecodeError          (* the body is not the expected document *)
| IndexError
| KeyError (key : string)
| TypeError
| ValueError
| OSError.

Inductive Result (A : Type) : Type :=
| Ok (a : A)
| Raise (e : Exception).
Arguments Ok {A} a.
Arguments Raise {A} e.

Definition bind {A B} (r : Result A) (k : A -> Result B) : Result B :=
  match r with
  | Ok a => k a
  | Raise e => Raise e
  end.

(** ** Numbers *)

(** [a < b] on floats. *)
Definition ltb (a b : Q) : bool :=
  match (a ?= b)%Q with Lt => true | _ => false end.

(** [int(x)] of a float: truncation toward zero. *)
Definition int (x : Q) : Z :=
  if Qle_bool 0 x then Qfloor x else Qceiling x.

(** Round-half-to-even to an integer, the rounding [round] is built on. *)
Definition rint (x : Q) : Z :=
  let n := Qfloor x in
  match (x - inject_Z n ?= 1 # 2)%Q with
  | Lt => n
  | Gt => n + 1
  | Eq => if Z.even n then n else n + 1
  end.

(** [round(x, ndigits)] of a float. *)
Definition round (x : Q) (ndigits : nat) : Q :=
  let p := inject_Z (10 ^ Z.of_nat ndigits) in
  (inject_Z (rint (x * p)) / p)%Q.

(** The same two functions on a real number. *)
Definition Rrint (x : R) : Z :=
  let n := Int_part x in
  if Rlt_dec (x - IZR n) (1 / 2) then n
  else if Rlt_dec (1 / 2) (x - IZR n) then n + 1
  else if Z.even n then n else n + 1.

Definition Rround (x : R) (ndigits : nat) : R :=
  let p := IZR (10 ^ Z.of_nat ndigits) in
  (IZR (Rrint (x * p)) / p)%R.

(** [math.log10]. *)
Definition log10 (x : R) : R := (ln x / ln 10)%R.

(** ** Strings *)

(** [s[-n:]]: the last [n] characters of [s], all of [s] when it is
    shorter. *)
Definition suffix (n : nat) (s : string) : string :=
  let l := list_ascii_of_string s in
  string_of_list_ascii (drop (length l - n) l).

(** Thousands separators, on the reversed digit string. *)
Fixpoint group3 (rev_digits : list ascii) : list ascii :=
  match rev_digits with
  | a :: b :: c :: ((_ :: _) as rest) => a :: b :: c :: ","%char :: group3 rest
  | _ => rev_digits
  end.

(** [str(n)] of an integer: its decimal digits, after a minus sign when
    it is negative. *)
Definition str (n : Z) : string := NilZero.string_of_int (Z.to_int n).

(** [f"{n:,}"] of an integer. *)
Definition format_thousands (n : Z) : string :=
  let digits := list_ascii_of_string (NilZero.string_of_int (Z.to_int (Z.abs n))) in
  let body := string_of_list_ascii (rev (group3 (rev digits))) in
  if n <? 0 then String "-"%char body else body.

End Py.

Import Py.

#[global] Instance Result_ret : MRet Result := @Ok.
#[global] Instance Result_bind : MBind Result := fun A B k r => Py.bind r k.

(* ====================================================================== *)
(** * pandas                                                              *)
(* ====================================================================== *)

Module Pandas.

(** ** [pandas.to_numeric(..., errors="coerce")] on one cell

    The cells of the statistics response are strings.  A signed decimal
    literal, with or without a fractional part, is converted to its
    value; every other string is coerced to NaN, which is [None] here.
    (Exponent notation, surrounding blanks and the literals of the
    non-finite floats are outside the model.) *)

Definition digit_value (c : ascii) : option Z :=
  let n := Z.of_nat (nat_of_ascii c) in
  if (48 <=? n) && (n <=? 57) then Some (n - 48) else None.

Fixpoint digits_value (acc : Z) (l : list ascii) : option Z :=
  match l with
  | [] => Some acc
  | c :: l' =>
      match digit_value c with
      | Some d => digits_value (10 * acc + d) l'
      | None => None
      end
  end.

(** Splits a literal at its first decimal point. *)
Fixpoint split_point (l : list ascii) : list ascii * list ascii :=
  match l with
  | [] => ([], [])
  | c :: l' =>
      if Ascii.eqb c "."%char then ([], l')
      else let (a, b) := split_point l' in (c :: a, b)
  end.

Definition unsigned_decimal (l : list ascii) : option Q :=
  let (ip, fp) := split_point l in
  match ip ++ fp with
  | [] => None
  | ds =>
      match digits_value 0 ds with
      | Some n => Some (n # Z.to_pos (10 ^ Z.of_nat (length fp)))
      | None => None
      end
  end.

Definition to_numeric (cell : string) : option Q :=
  match list_ascii_of_string cell with
  | "-"%char :: l => Qopp <$> unsigned_decimal l
  | "+"%char :: l => unsigned_decimal l
  | l => unsigned_decimal l
  end.

(** ** [Series.rank(pct=True)]

    The default method is [average]: a value gets the mean of the
    positions that it and its ties occupy in ascending order, that is
    the mean of the first position [less + 1] and the last position
    [less + equal].  With [pct=True] the rank is divided by the number
    of values. *)

Definition count_lt (xs : list Q) (x : Q) : Z :=
  Z.of_nat (length (List.filter (fun y => ltb y x) xs)).

Definition count_eq (xs : list Q) (x : Q) : Z :=
  Z.of_nat (length (List.filter (fun y => Qeq_bool y x) xs)).

Definition rank (xs : list Q) (x : Q) : Q :=
  ((inject_Z (count_lt xs x + 1) +
    inject_Z (count_lt xs x + count_eq xs x)) / 2)%Q.

Definition rank_pct (xs : list Q) (x : Q) : Q :=
  (rank xs x / inject_Z (Z.of_nat (length xs)))%Q.

End Pandas.

(* ====================================================================== *)
(** * requests                                                            *)
(* ====================================================================== *)

Module Requests.

(** What one [requests.get] meets: no answer at all (connection error,
    timeout), or an answer with a status code and a body; [json] is the
    document [resp.json()] decodes, [None] when the body is not a
    document of the expected shape. *)
Inductive Outcome (A : Type) : Type :=
| NoResponse
| Response (status_code : Z) (json : option A).
Arguments NoResponse {A}.
Arguments Response {A} status_code json.

(** [Response.raise_for_status]: an error for the 4xx and 5xx codes. *)
Definition raise_for_status (status_code : Z) : Result unit :=
  if (400 <=? status_code) && (status_code <? 600)
  then Raise (HTTPError status_code) else Ok tt.

(** [resp = requests.get(url); resp.raise_for_status(); resp.json()] *)
Definition get_json {A} (o : Outcome A) : Result A :=
  match o with
  | NoResponse => Raise ConnectionError
  | Response status_code json =>
      _ ← raise_for_status status_code;
      match json with
      | Some doc => Ok doc
      | None => Raise JSONDecodeError
      end
  end.

End Requests.

(* ====================================================================== *)
(** * JSON documents                                                      *)
(* ====================================================================== *)

Inductive JValue : Type :=
| JNull
| JBool (b : bool)
| JInt (n : Z)
| JFloat (x : R)
| JStr (s : string)
| JArr (items : list JValue)
| JObj (members : list (string * JValue)).

#[global] Instance JValue_inhabited : Inhabited JValue := populate JNull.

(** Truth value of a Python object, as [or] tests it. *)
Definition truthy (v : JValue) : bool :=
  match v with
  | JNull => false
  | JBool b => b
  | JInt n => negb (n =? 0)
  | JFloat x => if Req_dec_T x 0 then false else true
  | JStr s => negb (String.eqb s "")
  | JArr items => match items with [] => false | _ => true end
  | JObj members => match members with [] => false | _ => true end
  end.

(* ====================================================================== *)
(** * The colour ramp                                                     *)
(* ====================================================================== *)

(** [population_color], lines 82-96.  Every channel goes through [int];
    on the literals 30 and 255 it is the identity. *)
Definition population_color (t : Q) : list Z :=
  if ltb t 0.25 then
    let s := (t / 0.25)%Q in
    [30; int (60 + 140 * s); int (150 + 105 * s); 200]
  else if ltb t 0.5 then
    let s := ((t - 0.25) / 0.25)%Q in
    [int (30 + 100 * s); int (200 + 55 * s); int (255 - 100 * s); 200]
  else if ltb t 0.75 then
    let s := ((t - 0.5) / 0.25)%Q in
    [int (130 + 125 * s); int (255 - 55 * s); int (155 - 105 * s); 200]
  else
    let s := ((t - 0.75) / 0.25)%Q in
    [255; int (200 - 130 * s); int (50 - 50 * s); 200].

(* ====================================================================== *)
(** * The boundary collection                                             *)
(* ====================================================================== *)

Module Feature.
(** One GeoJSON feature: the member [id] when present, the member
    [properties] when it is an object, and the other members (type,
    geometry), which the script never touches. *)
Record t : Type := mk {
  id : option JValue;
  properties : option (gmap string JValue);
  others : list (string * JValue)
}.
End Feature.

Record GeoJSON : Type := {
  features : list Feature.t;
  foreign_members : list (string * JValue)
}.

(* ====================================================================== *)
(** * The statistics table                                                *)
(* ====================================================================== *)

(** One data row of the response, by column.  The columns [state],
    [county] and [B01003_001E] are read for the whole table (line 51 and
    line 54); [NAME] is read row by row in the loop of line 108 and again
    by the column selection of line 146, so its absence is kept as
    [None] and raises where the script would. *)
Record CensusRow : Type := {
  NAME : option string;
  B01003_001E : string;
  state : string;
  county : string
}.

#[global] Instance CensusRow_inhabited : Inhabited CensusRow :=
  populate {| NAME := None; B01003_001E := ""; state := ""; county := "" |}.

Fixpoint index_of (name : string) (columns : list string) : option nat :=
  match columns with
  | [] => None
  | c :: columns' =>
      if String.eqb c name then Some 0%nat
      else S <$> index_of name columns'
  end.

(** [df[name]] raises when the table has no such column. *)
Definition has_column (columns : list string) (name : string) : Result unit :=
  match index_of name columns with
  | None => Raise (KeyError name)
  | Some _ => Ok tt
  end.

(** [df[name]] for one row; the column must exist. *)
Definition cell (columns : list string) (name : string) (row : list string)
  : Result string :=
  match index_of name columns with
  | None => Raise (KeyError name)
  | Some i => match row !! i with Some c => Ok c | None => Raise ValueError end
  end.

Definition read_row (columns : list string) (row : list string)
  : Result CensusRow :=
  st ← cell columns "state" row;
  co ← cell columns "county" row;
  b ← cell columns "B01003_001E" row;
  Ok {| NAME := match cell columns "NAME" row with Ok n => Some n | Raise _ => None end;
        B01003_001E := b; state := st; county := co |}.

Fixpoint read_rows (columns : list string) (rows : list (list string))
  : Result (list CensusRow) :=
  match rows with
  | [] => Ok []
  | row :: rows' =>
      r ← read_row columns row;
      rs ← read_rows columns rows';
      Ok (r :: rs)
  end.

(** Lines 46-51: [header = census_raw[0]], [rows = census_raw[1:]],
    [pd.DataFrame(rows, columns=header)] and the three columns the table
    operations need.  A table whose rows are not as wide as the header
    is rejected. *)
Definition DataFrame (census_raw : list (list string))
  : Result (list CensusRow) :=
  match census_raw with
  | [] => Raise IndexError
  | header :: rows =>
      if negb (forallb (fun r => Nat.eqb (length r) (length header)) rows)
      then Raise ValueError
      else
        _ ← has_column header "state";
        _ ← has_column header "county";
        _ ← has_column header "B01003_001E";
        read_rows header rows
  end.

(** Lines 54-55: the population column and the filter
    [df[df["population"] > 0]]; NaN compares false. *)
Definition keep (r : CensusRow) : option (CensusRow * Q) :=
  match Pandas.to_numeric (B01003_001E r) with
  | Some v => if ltb 0 v then Some (r, v) else None
  | None => None
  end.

Definition clean (rows : list CensusRow) : list (CensusRow * Q) :=
  omap keep rows.

(** A row of the table after lines 51-99. *)
Record County : Type := {
  source : CensusRow;
  FIPS : string;
  population : Q;
  log_pop : R;
  population_formatted : string;
  quantile : Q;
  fill_color : list Z
}.

(** Lines 51, 67, 70, 79 and 99 for one row of the cleaned table; [pops]
    is the whole population column, which the rank is taken in. *)
Definition derived_row (pops : list Q) (rv : CensusRow * Q) : County :=
  let (r, p) := rv in
  {| source := r;
     FIPS := state r ++ county r;
     population := p;
     log_pop := log10 (Q2R (p + 1));
     population_formatted := format_thousands (int p);
     quantile := Pandas.rank_pct pops p;
     fill_color := population_color (Pandas.rank_pct pops p) |}.

Definition derived_fields (tbl : list (CensusRow * Q)) : list County :=
  map (derived_row (tbl.*2)) tbl.

(** The table [df] as it stands after line 99. *)
Definition load_table (census_raw : list (list string)) : Result (list County) :=
  rows ← DataFrame census_raw;
  Ok (derived_fields (clean rows)).

(* ====================================================================== *)
(** * The join                                                            *)
(* ====================================================================== *)

Module Info.
(** The attribute set [value_lookup] holds for one identifier. *)
Record t : Type := mk {
  population : Z;
  population_formatted : string;
  log_pop : R;
  quantile : Q;
  fill_color : list Z;
  county_name : string
}.
End Info.

(** Lines 109-116 for one row: the dictionary stored under the row's
    identifier, [name] being [row["NAME"]]. *)
Definition info_row (row : County) (name : string) : Info.t :=
  {| Info.population := int (population row);
     Info.population_formatted := population_formatted row;
     Info.log_pop := Rround (log_pop row) 4;
     Info.quantile := round (quantile row) 4;
     Info.fill_color := fill_color row;
     Info.county_name := name |}.

Definition info_of (row : County) : Result Info.t :=
  match NAME (source row) with
  | None => Raise (KeyError "NAME")
  | Some name => Ok (info_row row name)
  end.

(** Lines 107-116: a later row replaces an earlier one with its key. *)
Fixpoint build_lookup (value_lookup : gmap string Info.t) (df : list County)
  : Result (gmap string Info.t) :=
  match df with
  | [] => Ok value_lookup
  | row :: df' =>
      i ← info_of row;
      build_lookup (<[FIPS row := i]> value_lookup) df'
  end.

(** Line 121: [feature.get("id") or
    feature["properties"].get("GEO_ID", "")[-5:]]. *)
Definition feature_fips (feature : Feature.t) : Result JValue :=
  let i := default JNull (Feature.id feature) in
  if truthy i then Ok i
  else
    match Feature.properties feature with
    | None => Raise (KeyError "properties")
    | Some props =>
        match props !! "GEO_ID" with
        | None => Ok (JStr (suffix 5 ""))
        | Some (JStr geo_id) => Ok (JStr (suffix 5 geo_id))
        | Some _ => Raise TypeError
        end
    end.

(** Line 122: [fips in value_lookup], and line 123.  The keys are
    strings, so a number or a boolean is never one of them; a list or an
    object cannot be hashed. *)
Definition find (value_lookup : gmap string Info.t) (fips : JValue)
  : Result (option (string * Info.t)) :=
  match fips with
  | JStr s => Ok (pair s <$> value_lookup !! s)
  | JArr _ | JObj _ => Raise TypeError
  | _ => Ok None
  end.

(** Lines 124-130. *)
Definition inject (props : gmap string JValue) (fips : string) (info : Info.t)
  : gmap string JValue :=
  <["fips" := JStr fips]>
  (<["county_name" := JStr (Info.county_name info)]>
  (<["fill_color" := JArr (JInt <$> Info.fill_color info)]>
  (<["quantile" := JFloat (Q2R (Info.quantile info))]>
  (<["log_pop" := JFloat (Info.log_pop info)]>
  (<["population_formatted" := JStr (Info.population_formatted info)]>
  (<["population" := JInt (Info.population info)]> props)))))).

(** Lines 119-131. *)
Fixpoint matched_features (value_lookup : gmap string Info.t)
    (fs : list Feature.t) : Result (list Feature.t) :=
  match fs with
  | [] => Ok []
  | feature :: fs' =>
      fips ← feature_fips feature;
      hit ← find value_lookup fips;
      match hit with
      | Some (key, info) =>
          match Feature.properties feature with
          | None => Raise (KeyError "properties")
          | Some props =>
              rest ← matched_features value_lookup fs';
              Ok (Feature.mk (Feature.id feature)
                    (Some (inject props key info))
                    (Feature.others feature) :: rest)
          end
      | None => matched_features value_lookup fs'
      end
  end.

(** The document written to the first artifact (lines 107-133). *)
Definition merged (counties_geojson : GeoJSON) (df : list County)
  : Result GeoJSON :=
  value_lookup ← build_lookup ∅ df;
  matched ← matched_features value_lookup (features counties_geojson);
  Ok {| features := matched;
        foreign_members := foreign_members counties_geojson |}.

(** One line of the second artifact (line 146). *)
Record CsvRow : Type := {
  csv_FIPS : string;
  csv_NAME : string;
  csv_population : Q;
  csv_population_formatted : string;
  csv_log_pop : R;
  csv_quantile : Q
}.

Fixpoint select_rows (df : list County) : Result (list CsvRow) :=
  match df with
  | [] => Ok []
  | row :: df' =>
      match NAME (source row) with
      | None => Raise (KeyError "NAME")
      | Some name =>
          rest ← select_rows df';
          Ok ({| csv_FIPS := FIPS row; csv_NAME := name;
                 csv_population := population row;
                 csv_population_formatted := population_formatted row;
                 csv_log_pop := log_pop row;
                 csv_quantile := quantile row |} :: rest)
      end
  end.

Definition df_out (census_raw : list (list string)) (df : list County)
  : Result (list CsvRow) :=
  _ ← has_column (default [] (head census_raw)) "NAME";
  select_rows df.

(* ====================================================================== *)
(** * The script                                                          *)
(* ====================================================================== *)

(** What the two downloads of one run meet. *)
Record Upstream : Type := {
  counties : Requests.Outcome GeoJSON;
  census : Requests.Outcome (list (list string))
}.

Inductive File : Type :=
| GeoJSONFile (doc : GeoJSON)
| CSVFile (table : list CsvRow).

(** The file system: the files by path, and the paths that cannot be
    opened for writing. *)
Record World : Type := {
  files : gmap string File;
  locked : gset string
}.

(** Computations that may raise and that write files. *)
Definition IO (A : Type) : Type := World -> Result A * World.

#[global] Instance IO_ret : MRet IO := fun A a w => (Ok a, w).
#[global] Instance IO_bind : MBind IO := fun A B k m w =>
  match m w with
  | (Ok a, w') => k a w'
  | (Raise e, w') => (Raise e, w')
  end.

Definition lift {A} (r : Result A) : IO A := fun w => (r, w).

(** [with open(path, "w") as f: ...]: the file is replaced as a whole. *)
Definition write (path : string) (content : File) : IO unit := fun w =>
  if decide (path ∈ locked w) then (Raise OSError, w)
  else (Ok tt, {| files := <[path := content]> (files w); locked := locked w |}).

Definition geojson_path : string := "data/us_counties_population.geojson".
Definition csv_path : string := "data/us_counties_population.csv".

(** The whole script, in the order of its statements.  The progress
    lines it prints and the creation of the directory [data] leave no
    trace in the model. *)
Definition main (net : Upstream) : IO unit :=
  counties_geojson ← lift (Requests.get_json (counties net));
  census_raw ← lift (Requests.get_json (census net));
  df ← lift (load_table census_raw);
  doc ← lift (merged counties_geojson df);
  _ ← write geojson_path (GeoJSONFile doc);
  table ← lift (df_out census_raw df);
  write csv_path (CSVFile table).

(* ====================================================================== *)
(** * The colour ramp on binary64                                         *)
(* ====================================================================== *)

Module Binary64.

(** Lines 82-96 on the numbers the script computes with: the rank is a
    binary64 number and so is the result of every operation, rounded to
    the nearest with ties to even. *)

(** [int(x)] of a finite float; [None] stands for the OverflowError or
    ValueError of the non-finite ones. *)
Definition int (x : float) : option Z :=
  match Prim2SF x with
  | S754_zero _ => Some 0
  | S754_finite sign m e =>
      let magnitude :=
        match e with
        | Z0 => Zpos m
        | Zpos p => Zpos m * 2 ^ Zpos p
        | Zneg p => Zpos m / 2 ^ Zpos p
        end in
      Some (if sign then - magnitude else magnitude)
  | S754_infinity _ | S754_nan => None
  end.

Definition channels (r g b : option Z) : option (list Z) :=
  match r, g, b with
  | Some r, Some g, Some b => Some [r; g; b; 200]
  | _, _, _ => None
  end.

Definition population_color (t : float) : option (list Z) :=
  (if t <? 0.25 then
     let s := t / 0.25 in
     channels (Some 30%Z) (int (60 + 140 * s)) (int (150 + 105 * s))
   else if t <? 0.5 then
     let s := (t - 0.25) / 0.25 in
     channels (int (30 + 100 * s)) (int (200 + 55 * s)) (int (255 - 100 * s))
   else if t <? 0.75 then
     let s := (t - 0.5) / 0.25 in
     channels (int (130 + 125 * s)) (int (255 - 55 * s)) (int (155 - 105 * s))
   else
     let s := (t - 0.75) / 0.25 in
     channels (Some 255%Z) (int (200 - 130 * s)) (int (50 - 50 * s)))%float.

(** The number a finite float stands for. *)
Definition value (x : float) : option Q :=
  match Prim2SF x with
  | S754_zero _ => Some 0%Q
  | S754_finite sign m e =>
      let magnitude :=
        match e with
        | Z0 => inject_Z (Zpos m)
        | Zpos p => inject_Z (Zpos m * 2 ^ Zpos p)
        | Zneg p => Zpos m # 2 ^ p
        end in
      Some (if sign then (- magnitude)%Q else magnitude)
  | S754_infinity _ | S754_nan => None
  end.

(** The integer nearest to a finite float, ties to even. *)
Definition nearest (x : float) : option Z := rint <$> value x.

(** ** The ramp as the specification words it, in binary64 arithmetic

    The five boundary colours stand at the ranks 0, 1/4, 1/2, 3/4 and 1.
    Within a band, with the local parameter [s = (t - band_start) /
    0.25], a channel that rises from [a] to [b] is [a + (b - a) * s], a
    channel that falls is [a - (a - b) * s], and a channel with equal
    values at both ends is fixed. *)

Definition stops : list (float * float * float) :=
  [(30, 60, 150); (30, 200, 255); (130, 255, 155); (255, 200, 50);
   (255, 70, 0)]%float.

Definition band (t : float) : nat :=
  if (t <? 0.25)%float then 0%nat
  else if (t <? 0.5)%float then 1%nat
  else if (t <? 0.75)%float then 2%nat else 3%nat.

Definition band_start (k : nat) : float :=
  nth k [0; 0.25; 0.5; 0.75]%float 0%float.

Definition lerp (a b s : float) : float :=
  (if a <? b then a + (b - a) * s
   else if b <? a then a - (a - b) * s
   else a)%float.

Definition band_formula (t : float) : list float :=
  let k := band t in
  let s := ((t - band_start k) / 0.25)%float in
  let '(r0, g0, b0) := nth k stops (0, 0, 0)%float in
  let '(r1, g1, b1) := nth (S k) stops (0, 0, 0)%float in
  [lerp r0 r1 s; lerp g0 g1 s; lerp b0 b1 s].

(** The ramp with a given conversion of the channels to integers; no
    colour when a channel cannot be converted. *)
Definition ramp (to_int : float -> option Z) (t : float) : option (list Z) :=
  (fun rgb => rgb ++ [200]) <$> mapM to_int (band_formula t).

End Binary64.

(* ====================================================================== *)
(** * The magnitude on binary64                                           *)
(* ====================================================================== *)

(** Line 67 with the library function as a parameter.  [math.log10] is a
    function of the C library: on a binary64 number it returns a
    binary64 number close to the logarithm, where the column [log_pop]
    of the model holds the logarithm itself. *)
Definition log_pop_with (log10_impl : R -> R) (p : Q) : R :=
  log10_impl (Q2R (p + 1)).

(** [log10_impl] is within [eps] of the logarithm on the whole numbers
    from 1 to [bound], which are the arguments that line 67 passes for
    whole populations. *)
Definition accurate (log10_impl : R -> R) (eps : R) (bound : Z) : Prop :=
  forall n : Z,
    1 <= n <= bound ->
    (Rabs (log10_impl (IZR n) - log10 (IZR n)) <= eps)%R.

(** The binary64 numbers from 8 to 16 are the multiples of 2^-49: 53
    significant bits, the leading one worth 8. *)
Definition binary64_from_8_to_16 (y : R) : Prop :=
  (8 <= y <= 16)%R /\ exists k : Z, y = (IZR k / IZR (2 ^ 49))%R.

(** The multiple of 2^-49 nearest to [y], ties to even; for [y] from 8
    to 16 it is the binary64 number nearest to [y]. *)
Definition round_2_49 (y : R) : R :=
  (IZR (Rrint (y * IZR (2 ^ 49))) / IZR (2 ^ 49))%R.

(* ====================================================================== *)
(** * Reading the artifacts                                               *)
(* ====================================================================== *)

(** [feature["properties"][key]] of a written feature, [JNull] when the
    key is absent. *)
Definition property (f : Feature.t) (key : string) : JValue :=
  match Feature.properties f with
  | Some props => default JNull (props !! key)
  | None => JNull
  end.

(** The written feature [f] holds what lines 124-130 store for the row
    [c] of the table. *)
Definition carries (f : Feature.t) (c : County) : Prop :=
  property f "fips" = JStr (FIPS c) /\
  property f "population" = JInt (int (population c)) /\
  property f "population_formatted" = JStr (population_formatted c) /\
  property f "log_pop" = JFloat (Rround (log_pop c) 4) /\
  property f "quantile" = JFloat (Q2R (round (quantile c) 4)) /\
  property f "fill_color" = JArr (JInt <$> fill_color c) /\
  Some (property f "county_name") = JStr <$> NAME (source c).

(** The written feature [f] is the polygon [f0] with attributes added:
    same [id], same other members, and the property bag of [f0] extended
    by lines 124-130. *)
Definition origin (f0 f : Feature.t) : Prop :=
  Feature.id f = Feature.id f0 /\
  Feature.others f = Feature.others f0 /\
  exists props key info,
    Feature.properties f0 = Some props /\
    Feature.properties f = Some (inject props key info).

(** What the loop of lines 119-131 appends, for a lookup [vl]. *)
Definition joined (vl : gmap string Info.t) (f0 f : Feature.t) : Prop :=
  exists props key i,
    feature_fips f0 = Ok (JStr key) /\ vl !! key = Some i /\
    Feature.properties f0 = Some props /\
    f = Feature.mk (Feature.id f0) (Some (inject props key i))
          (Feature.others f0).

Definition hit (vl : gmap string Info.t) (f0 : Feature.t) : bool :=
  match feature_fips f0 with
  | Ok (JStr key) => bool_decide (is_Some (vl !! key))
  | _ => false
  end.

(** The polygon's identifier is the key of a row of the table. *)
Definition has_entry (df : list County) (f0 : Feature.t) : bool :=
  match feature_fips f0 with
  | Ok (JStr key) => bool_decide (key ∈ FIPS <$> df)
  | _ => false
  end.

(** The line of the flat table for the row [c]. *)
Definition csv_of (c : County) (line : CsvRow) : Prop :=
  csv_FIPS line = FIPS c /\
  Some (csv_NAME line) = NAME (source c) /\
  csv_population line = population c /\
  csv_population_formatted line = population_formatted c /\
  csv_log_pop line = log_pop c /\
  csv_quantile line = quantile c.

(** [stored] is [raw] rounded to [n] decimal places: a multiple of
    [10^-n] within half such a unit of [raw]. *)
Definition rounded_to (n : nat) (stored raw : R) : Prop :=
  (exists k : Z, stored = (IZR k / IZR (10 ^ Z.of_nat n))%R) /\
  (Rabs (stored - raw) <= 1 / 2 / IZR (10 ^ Z.of_nat n))%R.

(** Twice the average rank of [x] in the column [xs], an integer. *)
Definition rank_twice (xs : list Q) (x : Q) : Z :=
  2 * Pandas.count_lt xs x + Pandas.count_eq xs x + 1.

(** ** The cells of the population column

    The statistics source serves a count as the decimal string of an
    integer, and -666666666 where it has no data.  A count up to 2^53 is
    a binary64 number, so the column holds it exactly. *)
Definition count_cell (cell : string) : Prop :=
  exists n : Z, Z.abs n <= 2 ^ 53 /\ cell = str n.

Definition is_digit (c : ascii) : bool :=
  match Pandas.digit_value c with Some _ => true | None => false end.

(** A cell of ASCII characters that holds no digit and neither the
    letter i nor I, hence no spelling of infinity either: it stands for
    no number, whatever notation a reader of numbers accepts. *)
Definition no_number (cell : string) : bool :=
  forallb (fun c => (nat_of_ascii c <? 128)%nat && negb (is_digit c)
                    && negb (Ascii.eqb c "i") && negb (Ascii.eqb c "I"))
    (list_ascii_of_string cell).

(** The value of a string of decimal digits, read from the left. *)
Fixpoint uint_value (acc : Z) (d : Decimal.uint) : Z :=
  match d with
  | Decimal.Nil => acc
  | Decimal.D0 d => uint_value (10 * acc) d
  | Decimal.D1 d => uint_value (10 * acc + 1) d
  | Decimal.D2 d => uint_value (10 * acc + 2) d
  | Decimal.D3 d => uint_value (10 * acc + 3) d
  | Decimal.D4 d => uint_value (10 * acc + 4) d
  | Decimal.D5 d => uint_value (10 * acc + 5) d
  | Decimal.D6 d => uint_value (10 * acc + 6) d
  | Decimal.D7 d => uint_value (10 * acc + 7) d
  | Decimal.D8 d => uint_value (10 * acc + 8) d
  | Decimal.D9 d => uint_value (10 * acc + 9) d
  end.

(** The population cell of the row is one or the other. *)
Definition served (r : CensusRow) : Prop :=
  count_cell (B01003_001E r) \/ no_number (B01003_001E r) = true.

(** ** The average rank as the specification words it

    The column is put in ascending order, the places are counted from 1,
    and a value gets the mean of the places that it and its ties take. *)

Fixpoint insert_sorted (x : Q) (s : list Q) : list Q :=
  match s with
  | [] => [x]
  | y :: s' => if Qle_bool x y then x :: s else y :: insert_sorted x s'
  end.

Definition ascending (xs : list Q) : list Q := foldr insert_sorted [] xs.

(** The places of [x] in [s], the first place of [s] being [i]. *)
Fixpoint places (s : list Q) (x : Q) (i : Z) : list Z :=
  match s with
  | [] => []
  | y :: s' =>
      if Qeq_bool y x then i :: places s' x (i + 1) else places s' x (i + 1)
  end.

Definition total (l : list Z) : Z := foldr Z.add 0 l.

Definition average_rank (xs : list Q) (x : Q) : Q :=
  let ps := places (ascending xs) x 1 in
  (inject_Z (total ps) / inject_Z (Z.of_nat (length ps)))%Q.

(** A download that fails: no answer, or an answer with an error status. *)
Definition fetch_fails {A} (o : Requests.Outcome A) : Prop :=
  o = Requests.NoResponse \/
  exists status_code json,
    o = Requests.Response status_code json /\ 400 <= status_code < 600.

(** A download that fails as the specification words it: no answer, or
    an answer whose status is not one of the success statuses 2xx. *)
Definition non_success {A} (o : Requests.Outcome A) : Prop :=
  o = Requests.NoResponse \/
  exists status_code json,
    o = Requests.Response status_code json /\ ~ (200 <= status_code < 300).

(* ====================================================================== *)
(** * The ramp as the specification words it                              *)
(* ====================================================================== *)

(** The five boundary colours, at the ranks 0, 1/4, 1/2, 3/4 and 1. *)
Definition ramp_stops : list (Q * Q * Q) :=
  [(30, 60, 150); (30, 200, 255); (130, 255, 155); (255, 200, 50);
   (255, 70, 0)]%Q.

Definition band (t : Q) : nat :=
  if ltb t 0.25 then 0 else if ltb t 0.5 then 1
  else if ltb t 0.75 then 2 else 3.

Definition lerp (a b s : Q) : Q := (a + (b - a) * s)%Q.

(** The linear formulas of the band of [t], for red, green and blue, with
    the local parameter [s = (t - band_start) / 0.25]. *)
Definition band_formula (t : Q) : list Q :=
  let k := band t in
  let s := ((t - inject_Z (Z.of_nat k) * 0.25) / 0.25)%Q in
  let '(r0, g0, b0) := nth k ramp_stops (0, 0, 0)%Q in
  let '(r1, g1, b1) := nth (S k) ramp_stops (0, 0, 0)%Q in
  [lerp r0 r1 s; lerp g0 g1 s; lerp b0 b1 s].

(** The ramp with a given conversion of the channels to integers. *)
Definition ramp (to_int : Q -> Z) (t : Q) : list Z :=
  map to_int (band_formula t) ++ [200].

(* ====================================================================== *)
(** * Sample responses                                                    *)
(* ====================================================================== *)

Definition census_header : list string :=
  ["NAME"; "B01003_001E"; "state"; "county"]%string.

Definition polygon (fips geo_id : string) : Feature.t :=
  Feature.mk (Some (JStr fips))
    (Some {[ "GEO_ID"%string := JStr geo_id ]})
    [("type"%string, JStr "Feature")].

Definition collection (fs : list Feature.t) : GeoJSON :=
  {| features := fs;
     foreign_members := [("type"%string, JStr "FeatureCollection")] |}.

(** Los Angeles and San Diego. *)
Definition la_sd_census : list (list string) :=
  [census_header;
   ["Los Angeles County, California"; "10000000"; "06"; "037"];
   ["San Diego County, California"; "3000000"; "06"; "073"]]%string.

Definition la_sd_rows : list CensusRow :=
  [{| NAME := Some "Los Angeles County, California";
      B01003_001E := "10000000"; state := "06"; county := "037" |};
   {| NAME := Some "San Diego County, California";
      B01003_001E := "3000000"; state := "06"; county := "073" |}]%string.

Definition los_angeles : County :=
  derived_row [10000000; 3000000]%Q (nth 0 la_sd_rows inhabitant, 10000000%Q).

Definition san_diego : County :=
  derived_row [10000000; 3000000]%Q (nth 1 la_sd_rows inhabitant, 3000000%Q).

Definition la_sd_df : list County := [los_angeles; san_diego].

Definition la_sd_counties : GeoJSON :=
  collection [polygon "06037" "0500000US06037";
              polygon "06073" "0500000US06073"].

(** Three small counties, one of them without data, and a polygon that
    has no row. *)
Definition small_census : list (list string) :=
  [census_header;
   ["Loving County, Texas"; "64"; "48"; "301"];
   ["Kalawao County, Hawaii"; "82"; "15"; "005"];
   ["King County, Texas"; "265"; "48"; "269"];
   ["Nowhere County"; "-666666666"; "99"; "999"]]%string.

Definition small_counties : GeoJSON :=
  collection [polygon "48301" "0500000US48301";
              polygon "15005" "0500000US15005";
              polygon "48269" "0500000US48269";
              polygon "99999" "0500000US99999";
              polygon "72001" "0500000US72001"].

Definition small_rows : list CensusRow :=
  [{| NAME := Some "Loving County, Texas"; B01003_001E := "64";
      state := "48"; county := "301" |};
   {| NAME := Some "Kalawao County, Hawaii"; B01003_001E := "82";
      state := "15"; county := "005" |};
   {| NAME := Some "King County, Texas"; B01003_001E := "265";
      state := "48"; county := "269" |};
   {| NAME := Some "Nowhere County"; B01003_001E := "-666666666";
      state := "99"; county := "999" |}]%string.

Definition small_county (i : nat) (p : Q) : County :=
  derived_row [64; 82; 265]%Q (nth i small_rows inhabitant, p).

Definition loving : County := small_county 0 64.
Definition kalawao : County := small_county 1 82.
Definition king : County := small_county 2 265.

Definition small_df : list County := [loving; kalawao; king].

(** The polygon [polygon fips geo_id] with the attributes of [row]. *)
Definition attach (fips geo_id : string) (row : County) (name : string)
  : Feature.t :=
  Feature.mk (Some (JStr fips))
    (Some (inject {[ "GEO_ID"%string := JStr geo_id ]} fips (info_row row name)))
    [("type"%string, JStr "Feature")].

Definition csv_line (row : County) (name : string) : CsvRow :=
  {| csv_FIPS := FIPS row; csv_NAME := name;
     csv_population := population row;
     csv_population_formatted := population_formatted row;
     csv_log_pop := log_pop row;
     csv_quantile := quantile row |}.

Definition small_doc : GeoJSON :=
  collection
    [attach "48301" "0500000US48301" loving "Loving County, Texas";
     attach "15005" "0500000US15005" kalawao "Kalawao County, Hawaii";
     attach "48269" "0500000US48269" king "King County, Texas"].

Definition small_table : list CsvRow :=
  [csv_line loving "Loving County, Texas";
   csv_line kalawao "Kalawao County, Hawaii";
   csv_line king "King County, Texas"].

Definition la_sd_doc : GeoJSON :=
  collection
    [attach "06037" "0500000US06037" los_angeles
       "Los Angeles County, California";
     attach "06073" "0500000US06073" san_diego
       "San Diego County, California"].

Definition la_sd_table : list CsvRow :=
  [csv_line los_angeles "Los Angeles County, California";
   csv_line san_diego "San Diego County, California"].

(** A response whose codes are not padded and whose count is not whole. *)
Definition short_census : list (list string) :=
  [census_header; ["Tiny"; "0.5"; "6"; "37"]]%string.

Definition short_counties : GeoJSON := collection [polygon "637" "637"].

Definition short_county : County :=
  derived_row [0.5]%Q
    ({| NAME := Some "Tiny"; B01003_001E := "0.5"; state := "6";
        county := "37" |}%string, 0.5%Q).

Definition short_doc : GeoJSON :=
  collection [attach "637" "637" short_county "Tiny"].

Definition empty_world : World := {| files := ∅; locked := ∅ |}.

(** The world after both artifacts were written. *)
Definition written (w : World) (doc : GeoJSON) (table : list CsvRow) : World :=
  {| files := <[csv_path := CSVFile table]>
                (<[geojson_path := GeoJSONFile doc]> (files w));
     locked := locked w |}.

Definition answers (g : GeoJSON) (t : list (list string)) : Upstream :=
  {| counties := Requests.Response 200 (Some g);
     census := Requests.Response 200 (Some t) |}.

(** A response with a count, the sentinel, a zero and two cells that are
    no numbers. *)
Definition mixed_census : list (list string) :=
  [census_header;
   ["Loving County, Texas"; "64"; "48"; "301"];
   ["Nowhere County"; "-666666666"; "99"; "999"];
   ["Empty County"; "0"; "99"; "001"];
   ["Unknown County"; "N/A"; "99"; "003"];
   ["Blank County"; ""; "99"; "005"]]%string.

Definition mixed_rows : list CensusRow :=
  [{| NAME := Some "Loving County, Texas"; B01003_001E := "64";
      state := "48"; county := "301" |};
   {| NAME := Some "Nowhere County"; B01003_001E := "-666666666";
      state := "99"; county := "999" |};
   {| NAME := Some "Empty County"; B01003_001E := "0";
      state := "99"; county := "001" |};
   {| NAME := Some "Unknown County"; B01003_001E := "N/A";
      state := "99"; county := "003" |};
   {| NAME := Some "Blank County"; B01003_001E := "";
      state := "99"; county := "005" |}]%string.

Definition mixed_county : County :=
  derived_row [64]%Q (nth 0 mixed_rows inhabitant, 64%Q).

Definition mixed_counties : GeoJSON :=
  collection [polygon "48301" "0500000US48301";
              polygon "99999" "0500000US99999";
              polygon "99001" "0500000US99001";
              polygon "99003" "0500000US99003";
              polygon "99005" "0500000US99005"].

Definition mixed_doc : GeoJSON :=
  collection [attach "48301" "0500000US48301" mixed_county
                "Loving County, Texas"].

Definition mixed_table : list CsvRow :=
  [csv_line mixed_county "Loving County, Texas"].

(** Four counties, two of them with the same population. *)
Definition tied_census : list (list string) :=
  [census_header;
   ["Daggett County, Utah"; "900"; "49"; "009"];
   ["Piute County, Utah"; "1500"; "49"; "031"];
   ["Rich County, Utah"; "1500"; "49"; "033"];
   ["Wayne County, Utah"; "2500"; "49"; "055"]]%string.

Definition tied_county (name co : string) (p : Z) : County :=
  derived_row [900; 1500; 1500; 2500]%Q
    ({| NAME := Some name;
        B01003_001E := str p;
        state := "49"; county := co |}, inject_Z p).

Definition daggett : County := tied_county "Daggett County, Utah" "009" 900.
Definition piute : County := tied_county "Piute County, Utah" "031" 1500.
Definition rich : County := tied_county "Rich County, Utah" "033" 1500.
Definition wayne : County := tied_county "Wayne County, Utah" "055" 2500.

Definition tied_df : list County := [daggett; piute; rich; wayne].

(** Two rows whose counts differ by one, near 10^15. *)
Definition crowded_census : list (list string) :=
  [census_header;
   ["Crowded County"; "999999999999999"; "01"; "001"];
   ["More Crowded County"; "1000000000000000"; "01"; "003"]]%string.

Definition crowded_county (name b co : string) (p : Q) : County :=
  derived_row [999999999999999; 1000000000000000]%Q
    ({| NAME := Some name; B01003_001E := b; state := "01"; county := co |},
     p).

Definition crowded : County :=
  crowded_county "Crowded County" "999999999999999" "001" 999999999999999.

Definition more_crowded : County :=
  crowded_county "More Crowded County" "1000000000000000" "003"
    1000000000000000.

(** The boundary source answers with the status 300 (Multiple Choices)
    and the collection as its body. *)
Definition multiple_choices : Upstream :=
  {| counties := Requests.Response 300 (Some la_sd_counties);
     census := Requests.Response 200 (Some la_sd_census) |}.


(* ====================================================================== *)
(** * The presentation layer, [app.py]                                    *)
(* ====================================================================== *)

Module App.

(** Line 23. *)
Definition DATA_PATH : string := "data/us_counties_population.geojson".

(** The body of [load_geojson], lines 29-30: [open(DATA_PATH)] and
    [json.load].  A missing file raises FileNotFoundError, which is an
    [OSError]; a file that is not a JSON document raises
    JSONDecodeError. *)
Definition read_geojson (w : World) : Result GeoJSON :=
  match files w !! DATA_PATH with
  | None => Raise OSError
  | Some (GeoJSONFile doc) => Ok doc
  | Some (CSVFile _) => Raise JSONDecodeError
  end.

(** The cache that the decorator [st.cache_data] of line 27 keeps for
    [load_geojson] in the running app.  The function takes no argument,
    so the cache has one entry: nothing until a call has returned, then
    the document that call returned. *)
Definition Cache : Type := option GeoJSON.

(** [load_geojson()], lines 27-30, as decorated: a call that finds the
    entry returns it and does not run the body; a call that finds none
    runs the body and stores what it returns; a call whose body raises
    stores nothing. *)
Definition load_geojson (w : World) (cache : Cache)
  : Result GeoJSON * Cache :=
  match cache with
  | Some doc => (Ok doc, cache)
  | None =>
      match read_geojson w with
      | Ok doc => (Ok doc, Some doc)
      | Raise e => (Raise e, None)
      end
  end.

(** The properties of a feature that the tooltip of lines 107-117
    names. *)
Definition tooltip_fields : list string :=
  ["county_name"; "fips"; "population_formatted"]%string.

End App.

(* ====================================================================== *)
(** * Auxiliary notions for the properties of the remaining code          *)
(* ====================================================================== *)

(** A string without its thousands separators. *)
Definition not_comma (c : ascii) : bool := negb (Ascii.eqb c ","%char).

Definition strip_commas (s : string) : string :=
  string_of_list_ascii (List.filter not_comma (list_ascii_of_string s)).

(** The keys lines 124-130 assign. *)
Definition injected_keys : list string :=
  ["population"; "population_formatted"; "log_pop"; "quantile";
   "fill_color"; "county_name"; "fips"]%string.

(** The columns lines 51 and 54 read from the whole table. *)
Definition required_columns : list string :=
  ["state"; "county"; "B01003_001E"]%string.

(** Every data row is as wide as the header. *)
Definition rectangular (header : list string) (rows : list (list string))
  : Prop :=
  Forall (fun r => length r = length header) rows.

(** The world after the first artifact alone was written. *)
Definition half_written (w : World) (doc : GeoJSON) : World :=
  {| files := <[geojson_path := GeoJSONFile doc]> (files w);
     locked := locked w |}.

(** A file system on which the flat table cannot be written. *)
Definition csv_locked_world : World :=
  {| files := ∅; locked := {[ csv_path ]} |}.

(** The red channel of a colour. *)
Definition red (color : list Z) : Z := nth 0 color 0.

(** The red formula of the four bands as one function of the rank. *)
Definition red_formula (t : Q) : Q :=
  if ltb t 0.25 then 30
  else if ltb t 0.5 then 400 * t - 70
  else if ltb t 0.75 then 500 * t - 120
  else 255.

(** A response with two rows for one county. *)
Definition twice_census : list (list string) :=
  [census_header;
   ["Autauga County, Alabama"; "58000"; "01"; "001"];
   ["Autauga County, Alabama (revised)"; "59000"; "01"; "001"]]%string.

Definition twice_row (name b : string) : CensusRow :=
  {| NAME := Some name; B01003_001E := b; state := "01"; county := "001" |}.

Definition twice_first : County :=
  derived_row [58000; 59000]%Q
    (twice_row "Autauga County, Alabama" "58000", 58000%Q).

Definition twice_last : County :=
  derived_row [58000; 59000]%Q
    (twice_row "Autauga County, Alabama (revised)" "59000", 59000%Q).

Definition twice_counties : GeoJSON :=
  collection [polygon "01001" "0500000US01001"].

Definition twice_doc : GeoJSON :=
  collection [attach "01001" "0500000US01001" twice_last
                "Autauga County, Alabama (revised)"].

(** A response without the column [NAME]. *)
Definition nameless_census : list (list string) :=
  [["B01003_001E"; "state"; "county"]; ["64"; "48"; "301"]]%string.

Definition nameless_empty_census : list (list string) :=
  [["B01003_001E"; "state"; "county"]; ["-666666666"; "48"; "301"]]%string.

(** A polygon without [id], identified by its [GEO_ID] alone. *)
Definition anonymous_polygon (geo_id : string) : Feature.t :=
  Feature.mk None (Some {[ "GEO_ID"%string := JStr geo_id ]})
    [("type"%string, JStr "Feature")].
(* ====================================================================== *)
(** * The colour ramp: boundary values and integer conversion             *)
(* ====================================================================== *)

(** Linear arithmetic over the rationals and over the reals. *)
Ltac qlra := Lqa.lra.
Ltac rlra := Lra.lra.

(** ** Comparison and truncation *)

Lemma ltb_lt (a b : Q) : ltb a b = true <-> (a < b)%Q.
Proof.
  unfold ltb. rewrite Qlt_alt. destruct (a ?= b)%Q; split; congruence.
Qed.

Lemma ltb_ge (a b : Q) : ltb a b = false <-> (b <= a)%Q.
Proof.
  pose proof (ltb_lt a b) as H. split.
  - intros Hf. apply Qnot_lt_le. intros Hlt. apply H in Hlt. congruence.
  - intros Hle. destruct (ltb a b); [|reflexivity].
    exfalso. apply (Qle_not_lt _ _ Hle). now apply H.
Qed.

Lemma ltb_comp (a a' b b' : Q) :
  (a == a')%Q -> (b == b')%Q -> ltb a b = ltb a' b'.
Proof.
  intros Ha Hb. unfold ltb. now rewrite Ha, Hb.
Qed.

Lemma int_comp (x y : Q) : (x == y)%Q -> int x = int y.
Proof.
  intros H. unfold int.
  rewrite (Qfloor_comp x y H), (Qceiling_comp x y H).
  now rewrite (Qleb_comp 0%Q 0%Q (Qeq_refl 0%Q) x y H).
Qed.

Lemma int_nonneg (x : Q) : (0 <= x)%Q -> int x = Qfloor x.
Proof.
  intros H. unfold int. apply Qle_bool_iff in H. now rewrite H.
Qed.

Lemma int_Z (z : Z) : int (inject_Z z) = z.
Proof.
  unfold int.
  destruct (Qle_bool 0 (inject_Z z)); [apply Qfloor_Z | apply Qceiling_Z].
Qed.

Lemma int_bounds (x : Q) (n : Z) :
  (0 <= x)%Q -> (x <= inject_Z n)%Q -> 0 <= int x <= n.
Proof.
  intros H0 Hn. rewrite (int_nonneg x H0). split.
  - rewrite <- (Qfloor_Z 0). now apply Qfloor_resp_le.
  - rewrite <- (Qfloor_Z n). now apply Qfloor_resp_le.
Qed.

Lemma int_floor_spec (x : Q) :
  (0 <= x)%Q -> (inject_Z (int x) <= x)%Q /\ (x < inject_Z (int x) + 1)%Q.
Proof.
  intros H0. rewrite (int_nonneg x H0). split; [apply Qfloor_le|].
  pose proof (Qlt_floor x) as H. rewrite inject_Z_plus in H. exact H.
Qed.

(** ** The code against the ramp of the specification *)

(** C3: the colour ramp maps the five boundary ranks 0, 0.25, 0.5, 0.75
    and 1 to [30,60,150,200], [30,200,255,200], [130,255,155,200],
    [255,200,50,200] and [255,70,0,200], in exact arithmetic and on
    binary64 numbers alike. *)
Theorem population_color_boundaries :
  (population_color 0 = [30; 60; 150; 200] /\
   population_color 0.25 = [30; 200; 255; 200] /\
   population_color 0.5 = [130; 255; 155; 200] /\
   population_color 0.75 = [255; 200; 50; 200] /\
   population_color 1 = [255; 70; 0; 200]) /\
  (Binary64.population_color 0 = Some [30; 60; 150; 200] /\
   Binary64.population_color 0.25 = Some [30; 200; 255; 200] /\
   Binary64.population_color 0.5 = Some [130; 255; 155; 200] /\
   Binary64.population_color 0.75 = Some [255; 200; 50; 200] /\
   Binary64.population_color 1 = Some [255; 70; 0; 200]).
Proof. repeat split; vm_compute; reflexivity. Qed.

Ltac channel :=
  first
    [ apply int_comp; cbn; field
    | match goal with
      | |- ?n = int _ => rewrite <- (int_Z n) at 1; apply int_comp; cbn; field
      end ].

Ltac bands t :=
  destruct (ltb t 0.25) eqn:?;
    [|destruct (ltb t 0.5) eqn:?; [|destruct (ltb t 0.75) eqn:?]];
  repeat match goal with
         | H : ltb _ _ = true |- _ => apply ltb_lt in H
         | H : ltb _ _ = false |- _ => apply ltb_ge in H
         end.

Lemma population_color_ramp (t : Q) : population_color t = ramp int t.
Proof.
  unfold population_color, ramp, band_formula, band, lerp.
  destruct (ltb t 0.25); [|destruct (ltb t 0.5); [|destruct (ltb t 0.75)]];
    cbn [nth ramp_stops map app Z.of_nat];
    repeat (f_equal; try channel).
Qed.

Lemma band_formula_range (t : Q) :
  (0 <= t <= 1)%Q -> Forall (fun x => 0 <= x <= 255)%Q (band_formula t).
Proof.
  intros [H0 H1]. unfold band_formula, band, lerp.
  bands t; cbn [nth ramp_stops Z.of_nat Pos.of_succ_nat Pos.succ];
    match goal with
    | |- context [((t - ?k * 0.25) / 0.25)%Q] =>
        assert (Hs : (0 <= (t - k * 0.25) / 0.25 <= 1)%Q)
          by (assert (E : ((t - k * 0.25) / 0.25 == 4 * t - k)%Q) by field;
              rewrite E; clear E;
              let k' := eval cbv in k in change k with k'; qlra);
        generalize dependent ((t - k * 0.25) / 0.25)%Q
    end;
    intros s Hs; repeat constructor; qlra.
Qed.

(** In exact arithmetic, which is what the column [fill_color] of the
    model holds: for a rank in [0,1] the channels are the band's formulas
    rounded down, and lie between 0 and 255. *)
Lemma exact_ramp_truncates (t : Q) :
  (0 <= t <= 1)%Q ->
  population_color t = map int (band_formula t) ++ [200] /\
  Forall (fun x => inject_Z (int x) <= x < inject_Z (int x) + 1)%Q
    (band_formula t) /\
  Forall (fun c => 0 <= c <= 255) (population_color t) /\
  nth 3 (population_color t) 0 = 200.
Proof.
  intros Ht. pose proof (band_formula_range t Ht) as Hr.
  rewrite population_color_ramp. unfold ramp. repeat split.
  - eapply Forall_impl; [exact Hr|]. cbv beta. intros x [Hx _].
    now apply int_floor_spec.
  - apply Forall_app. split.
    + apply Forall_map. eapply Forall_impl; [exact Hr|]. cbv beta.
      intros x [Hx0 Hx1]. now apply int_bounds.
    + repeat constructor; lia.
  - unfold band_formula.
    destruct (nth (band t) ramp_stops _) as [[? ?] ?].
    destruct (nth (S (band t)) ramp_stops _) as [[? ?] ?]. reflexivity.
Qed.

(** ** The colour ramp on binary64 *)

Lemma float_sub_zero (t : float) : (t - 0)%float = t.
Proof.
  apply Prim2SF_inj. rewrite sub_spec.
  change (Prim2SF 0) with (S754_zero false).
  destruct (Prim2SF t) as [[|]|[|]| |[|] m e]; reflexivity.
Qed.

(** [int] of a float is the truncation toward zero of the number the
    float stands for. *)
Lemma binary64_int_truncates (x : float) :
  Binary64.int x = Py.int <$> Binary64.value x.
Proof.
  unfold Binary64.int, Binary64.value.
  destruct (Prim2SF x) as [s|s| |s m e]; try reflexivity.
  cbn [fmap option_fmap option_map]. f_equal.
  destruct e as [|p|p], s; cbv zeta.
  - change (- inject_Z (Z.pos m))%Q with (inject_Z (- Z.pos m)).
    now rewrite int_Z.
  - now rewrite int_Z.
  - change (- inject_Z (Z.pos m * 2 ^ Z.pos p))%Q
      with (inject_Z (- (Z.pos m * 2 ^ Z.pos p))).
    now rewrite int_Z.
  - now rewrite int_Z.
  - unfold Py.int. change (- (Z.pos m # 2 ^ p))%Q with (Z.neg m # 2 ^ p).
    change (Qle_bool 0 (Z.neg m # 2 ^ p)) with false.
    change (Qceiling (Z.neg m # 2 ^ p)) with (- (Z.pos m / Z.pos (2 ^ p))).
    now rewrite Pos2Z.inj_pow.
  - unfold Py.int. change (Qle_bool 0 (Z.pos m # 2 ^ p)) with true.
    change (Qfloor (Z.pos m # 2 ^ p)) with (Z.pos m / Z.pos (2 ^ p)).
    now rewrite Pos2Z.inj_pow.
Qed.

(** Evaluates the comparisons and differences of the boundary values. *)
Ltac float_constants :=
  repeat match goal with
         | |- context [(?a <? ?b)%float] =>
             let v := eval vm_compute in (a <? b)%float in
             progress change (a <? b)%float with v
         | |- context [(?a - ?b)%float] =>
             let v := eval vm_compute in (a - b)%float in
             progress change (a - b)%float with v
         end.

(** The code against the ramp of the specification, on binary64. *)
Lemma binary64_ramp (t : float) :
  Binary64.population_color t = Binary64.ramp Binary64.int t.
Proof.
  unfold Binary64.population_color, Binary64.ramp, Binary64.band_formula,
    Binary64.band.
  destruct (t <? 0.25)%float; [|destruct (t <? 0.5)%float;
                                 [|destruct (t <? 0.75)%float]];
    cbn [nth Binary64.stops Binary64.band_start]; unfold Binary64.lerp;
    rewrite ?float_sub_zero; float_constants; cbv iota;
    cbn [mapM mbind option_bind mret option_ret];
    try change (Binary64.int 30) with (Some 30);
    try change (Binary64.int 255) with (Some 255);
    repeat match goal with
           | |- context [Binary64.int ?x] => destruct (Binary64.int x)
           end;
    reflexivity.
Qed.

(** Truncation toward zero. *)
Lemma int_truncates (v : Q) :
  ((0 <= v)%Q -> (inject_Z (int v) <= v < inject_Z (int v) + 1)%Q) /\
  ((v <= 0)%Q -> (inject_Z (int v) - 1 < v <= inject_Z (int v))%Q).
Proof.
  split; intros H.
  - now apply int_floor_spec.
  - destruct (Qeq_dec v 0) as [E|N].
    + rewrite (int_comp v 0 E). change (int 0) with 0. rewrite E.
      split; [reflexivity | discriminate].
    + assert (Hneg : (v < 0)%Q).
      { apply Qle_lt_or_eq in H as [Hlt|E]; [exact Hlt | contradiction]. }
      unfold int. destruct (Qle_bool 0 v) eqn:Eb.
      * apply Qle_bool_iff in Eb. exfalso. apply (Qlt_irrefl 0).
        now apply Qle_lt_trans with v.
      * split; [|apply Qle_ceiling].
        pose proof (Qceiling_lt v) as Hc.
        apply Qle_lt_trans with (inject_Z (Qceiling v - 1)); [|exact Hc].
        unfold Z.sub, Qminus. rewrite inject_Z_plus, inject_Z_opp.
        apply Qle_refl.
Qed.

Lemma mapM_value_int (xs : list float) (zs : list Z) :
  mapM Binary64.int xs = Some zs ->
  exists vs, mapM Binary64.value xs = Some vs /\ zs = map int vs.
Proof.
  revert zs. induction xs as [|x xs IH]; intros zs H.
  - injection H as <-. exists []. auto.
  - cbn [mapM mbind option_bind mret option_ret] in H |- *.
    rewrite binary64_int_truncates in H.
    destruct (Binary64.value x) as [v|]; [|discriminate H].
    cbn [fmap option_fmap option_map] in H.
    destruct (mapM Binary64.int xs) as [zs'|]; [|discriminate H].
    destruct (IH zs' eq_refl) as (vs & -> & ->).
    injection H as <-. exists (v :: vs). auto.
Qed.

(** C4, as the code has it: for every rank [t], a binary64 number, the
    three colour channels are the band's linear formulas evaluated in
    binary64 arithmetic and converted by [int], which truncates the
    computed value toward zero and does not round it to the nearest
    integer; the alpha channel is the constant 200.  The computed value
    of a formula is not always its exact value: at the binary64 number
    nearest to 1/7 the code stores the green 140 and the blue 210, where
    the formulas evaluated exactly at that rank give 139.99... and
    209.99..., and at 0.7, 0.8 and 0.9 it stores 229, 173 and 39, 121
    and 19, where the exact formulas at 7/10, 4/5 and 9/10 give 230,
    174 and 40, 122 and 20. *)
Theorem population_color_truncates (t : float) :
  Binary64.population_color t
  = (fun rgb => rgb ++ [200]) <$> mapM Binary64.int (Binary64.band_formula t) /\
  (forall x : float, Binary64.int x = int <$> Binary64.value x) /\
  (forall v : Q,
     ((0 <= v)%Q -> (inject_Z (int v) <= v < inject_Z (int v) + 1)%Q) /\
     ((v <= 0)%Q -> (inject_Z (int v) - 1 < v <= inject_Z (int v))%Q)) /\
  (forall color : list Z,
     Binary64.population_color t = Some color ->
     nth 3 color 0 = 200 /\
     exists values : list Q,
       mapM Binary64.value (Binary64.band_formula t) = Some values /\
       length values = 3%nat /\
       color = map int values ++ [200]) /\
  (Binary64.population_color 0x1.2492492492492p-3 = Some [30; 140; 210; 200] /\
   population_color <$> Binary64.value 0x1.2492492492492p-3
   = Some [30; 139; 209; 200]) /\
  (Binary64.population_color 0x1.6666666666666p-1 = Some [229; 211; 71; 200] /\
   population_color 0.7 = [230; 211; 71; 200]) /\
  (Binary64.population_color 0x1.999999999999ap-1 = Some [255; 173; 39; 200] /\
   population_color 0.8 = [255; 174; 40; 200]) /\
  (Binary64.population_color 0x1.ccccccccccccdp-1 = Some [255; 121; 19; 200] /\
   population_color 0.9 = [255; 122; 20; 200]).
Proof.
  split; [apply binary64_ramp|]. split; [apply binary64_int_truncates|].
  split; [apply int_truncates|].
  split; [|repeat split; vm_compute; reflexivity].
  intros color H. rewrite binary64_ramp in H. unfold Binary64.ramp in H.
  destruct (mapM Binary64.int (Binary64.band_formula t)) as [zs|] eqn:E;
    [|discriminate H].
  injection H as <-.
  destruct (mapM_value_int _ _ E) as (vs & Hvs & ->).
  assert (Hlen : length vs = 3%nat).
  { apply length_mapM in Hvs. rewrite <- Hvs. unfold Binary64.band_formula.
    destruct (nth (Binary64.band t) Binary64.stops _) as [[? ?] ?].
    destruct (nth (S (Binary64.band t)) Binary64.stops _) as [[? ?] ?].
    reflexivity. }
  split.
  - destruct vs as [|a [|b [|c [|d vs]]]]; try discriminate Hlen. reflexivity.
  - exists vs. auto.
Qed.

Lemma population_color_truncates_witness :
  Binary64.population_color 0x1.2492492492492p-3
  = Some [30; 140; 210; 200] /\
  nth 3 [30; 140; 210; 200] 0 = 200 /\
  exists values : list Q,
    mapM Binary64.value (Binary64.band_formula 0x1.2492492492492p-3)
    = Some values /\
    length values = 3%nat /\
    [30; 140; 210; 200] = map int values ++ [200].
Proof.
  assert (H : Binary64.population_color 0x1.2492492492492p-3
              = Some [30; 140; 210; 200]) by (vm_compute; reflexivity).
  split; [exact H|].
  destruct (population_color_truncates 0x1.2492492492492p-3)
    as (_ & _ & _ & Hc & _).
  exact (Hc _ H).
Defined.

(** C4, as the specification states it, fails: the channels are not
    rounded to the nearest integer.  At rank 1/64, a binary64 number at
    which every operation of the ramp is exact, the green formula is
    68.75 and the blue one 156.5625; the code stores 68 and 156, the
    nearest integers are 69 and 157. *)
Lemma population_color_not_nearest :
  (exists values : list Q,
     mapM Binary64.value (Binary64.band_formula 0.015625) = Some values /\
     Forall2 Qeq values [30; 68.75; 156.5625]%Q) /\
  Binary64.population_color 0.015625 = Some [30; 68; 156; 200] /\
  Binary64.ramp Binary64.nearest 0.015625 = Some [30; 69; 157; 200] /\
  ~ (forall t : float,
       (0 <=? t)%float = true -> (t <=? 1)%float = true ->
       Binary64.population_color t = Binary64.ramp Binary64.nearest t) /\
  Forall2 Qeq (band_formula (1 # 64)) [30; 68.75; 156.5625]%Q /\
  population_color (1 # 64) = [30; 68; 156; 200] /\
  ramp rint (1 # 64) = [30; 69; 157; 200] /\
  ~ (forall t : Q, (0 <= t <= 1)%Q -> population_color t = ramp rint t).
Proof.
  split; [|split; [|split; [|split; [|split; [|split; [|split]]]]]].
  - eexists. split; [vm_compute; reflexivity|].
    repeat (constructor; [reflexivity|]). constructor.
  - vm_compute. reflexivity.
  - vm_compute. reflexivity.
  - intros H. specialize (H 0.015625%float eq_refl eq_refl).
    vm_compute in H. discriminate H.
  - repeat (constructor; [reflexivity|]). constructor.
  - vm_compute. reflexivity.
  - vm_compute. reflexivity.
  - intros H. specialize (H (1 # 64)).
    assert (Ht : (0 <= 1 # 64 <= 1)%Q) by (split; discriminate).
    specialize (H Ht). vm_compute in H. discriminate H.
Qed.

(* ====================================================================== *)
(** * The percentile rank                                                 *)
(* ====================================================================== *)

Section Rank.

Import Pandas.

Variable xs : list Q.

Lemma count_lt_nonneg (x : Q) : 0 <= count_lt xs x.
Proof. unfold count_lt. lia. Qed.

Lemma count_eq_nonneg (x : Q) : 0 <= count_eq xs x.
Proof. unfold count_eq. lia. Qed.

(** A value is never both smaller than [x] and equal to it. *)
Lemma count_lt_eq_le (x : Q) :
  count_lt xs x + count_eq xs x <= Z.of_nat (length xs).
Proof.
  unfold count_lt, count_eq. induction xs as [|y l IH]; simpl; [lia|].
  destruct (ltb y x) eqn:Hlt, (Qeq_bool y x) eqn:Heq; simpl; try lia.
  apply ltb_lt in Hlt. apply Qeq_bool_iff in Heq.
  rewrite Heq in Hlt. now apply Qlt_irrefl in Hlt.
Qed.

Lemma count_eq_pos (x : Q) : In x xs -> 1 <= count_eq xs x.
Proof.
  unfold count_eq. induction xs as [|y l IH]; simpl; [tauto|].
  intros [->|Hin].
  - rewrite (Qeq_bool_refl x). simpl. lia.
  - specialize (IH Hin). destruct (Qeq_bool y x); simpl; lia.
Qed.

(** Ties: the counts depend on the value only. *)
Lemma count_lt_comp (x y : Q) : (x == y)%Q -> count_lt xs x = count_lt xs y.
Proof.
  intros E. unfold count_lt. f_equal. f_equal.
  induction xs as [|z l IH]; simpl; [reflexivity|].
  rewrite (ltb_comp z z x y (Qeq_refl z) E), IH. reflexivity.
Qed.

Lemma count_eq_comp (x y : Q) : (x == y)%Q -> count_eq xs x = count_eq xs y.
Proof.
  intros E. unfold count_eq. f_equal. f_equal.
  induction xs as [|z l IH]; simpl; [reflexivity|].
  rewrite (Qeqb_comp z z (Qeq_refl z) x y E), IH. reflexivity.
Qed.

(** Everything that is below [x] or ties with it is below a larger [y]. *)
Lemma count_lt_step (x y : Q) :
  (x < y)%Q -> count_lt xs x + count_eq xs x <= count_lt xs y.
Proof.
  intros Hxy. unfold count_lt, count_eq.
  induction xs as [|z l IH]; simpl; [lia|].
  destruct (ltb z x) eqn:Hlt, (Qeq_bool z x) eqn:Heq; simpl.
  - apply ltb_lt in Hlt. apply Qeq_bool_iff in Heq.
    rewrite Heq in Hlt. now apply Qlt_irrefl in Hlt.
  - apply ltb_lt in Hlt.
    assert (Hzy : ltb z y = true) by (apply ltb_lt; qlra).
    rewrite Hzy. simpl. lia.
  - apply Qeq_bool_iff in Heq.
    assert (Hzy : ltb z y = true) by (apply ltb_lt; rewrite Heq; exact Hxy).
    rewrite Hzy. simpl. lia.
  - destruct (ltb z y); simpl; lia.
Qed.

Lemma rank_pct_fraction (x : Q) :
  In x xs ->
  (rank_pct xs x ==
   inject_Z (rank_twice xs x) / inject_Z (2 * Z.of_nat (length xs)))%Q.
Proof.
  intros Hin. unfold rank_pct, rank, rank_twice.
  assert (Hn : ~ (inject_Z (Z.of_nat (length xs)) == 0)%Q).
  { destruct xs; [contradiction|]. simpl length. discriminate. }
  rewrite !inject_Z_plus, !inject_Z_mult. change (inject_Z 1) with 1%Q.
  change (inject_Z 2) with 2%Q. field. exact Hn.
Qed.

Lemma fraction_le (a b d : Z) :
  0 < d -> a <= b -> (inject_Z a / inject_Z d <= inject_Z b / inject_Z d)%Q.
Proof.
  intros Hd Hab. unfold Qdiv. apply Qmult_le_compat_r.
  - now rewrite <- Zle_Qle.
  - apply Qinv_le_0_compat. change 0%Q with (inject_Z 0).
    rewrite <- Zle_Qle. lia.
Qed.

Lemma fraction_lt (a b d : Z) :
  0 < d -> a < b -> (inject_Z a / inject_Z d < inject_Z b / inject_Z d)%Q.
Proof.
  intros Hd Hab. unfold Qdiv. apply Qmult_lt_compat_r.
  - apply Qinv_lt_0_compat. change 0%Q with (inject_Z 0).
    rewrite <- Zlt_Qlt. lia.
  - now rewrite <- Zlt_Qlt.
Qed.

Lemma length_pos (x : Q) : In x xs -> 0 < Z.of_nat (length xs).
Proof. destruct xs; [contradiction|]. simpl length. lia. Qed.

(** The rank of a value of the column lies in (0, 1]. *)
Lemma rank_pct_unit (x : Q) : In x xs -> (0 < rank_pct xs x <= 1)%Q.
Proof.
  intros Hin. rewrite (rank_pct_fraction x Hin).
  pose proof (length_pos x Hin) as Hn.
  pose proof (count_lt_nonneg x) as Hl.
  pose proof (count_eq_pos x Hin) as He.
  pose proof (count_lt_eq_le x) as Hle.
  set (d := 2 * Z.of_nat (length xs)). split.
  - apply Qle_lt_trans with (inject_Z 0 / inject_Z d)%Q.
    + unfold Qdiv. rewrite Qmult_0_l. apply Qle_refl.
    + apply fraction_lt; unfold rank_twice, d; lia.
  - apply Qle_trans with (inject_Z d / inject_Z d)%Q.
    + apply fraction_le; unfold rank_twice, d; lia.
    + unfold Qdiv. rewrite Qmult_inv_r; [apply Qle_refl|].
      change 0%Q with (inject_Z 0). rewrite inject_Z_injective.
      unfold d. lia.
Qed.

(** A larger value has a strictly larger rank, ties have the same. *)
Lemma rank_pct_lt (x y : Q) :
  In x xs -> In y xs -> (x < y)%Q -> (rank_pct xs x < rank_pct xs y)%Q.
Proof.
  intros Hx Hy Hxy.
  rewrite (rank_pct_fraction x Hx), (rank_pct_fraction y Hy).
  pose proof (length_pos x Hx) as Hn.
  pose proof (count_lt_step x y Hxy) as Hs.
  pose proof (count_eq_pos x Hx) as He.
  pose proof (count_eq_pos y Hy) as He'.
  apply fraction_lt; unfold rank_twice; lia.
Qed.

Lemma rank_pct_comp (x y : Q) : (x == y)%Q -> rank_pct xs x = rank_pct xs y.
Proof.
  intros E. unfold rank_pct, rank.
  now rewrite (count_lt_comp x y E), (count_eq_comp x y E).
Qed.

Lemma rank_pct_le (x y : Q) :
  In x xs -> In y xs -> (x <= y)%Q -> (rank_pct xs x <= rank_pct xs y)%Q.
Proof.
  intros Hx Hy Hxy. destruct (Qlt_le_dec x y) as [Hlt|Hge].
  - apply Qlt_le_weak. now apply rank_pct_lt.
  - rewrite (rank_pct_comp x y); [apply Qle_refl|]. now apply Qle_antisym.
Qed.

End Rank.

(** ** The rank is the average of the places of the ties *)

Section AverageRank.

Import Pandas.

Lemma count_lt_cons (y : Q) (s : list Q) (x : Q) :
  count_lt (y :: s) x = (if ltb y x then 1 else 0) + count_lt s x.
Proof. unfold count_lt. simpl. destruct (ltb y x); simpl length; lia. Qed.

Lemma count_eq_cons (y : Q) (s : list Q) (x : Q) :
  count_eq (y :: s) x = (if Qeq_bool y x then 1 else 0) + count_eq s x.
Proof. unfold count_eq. simpl. destruct (Qeq_bool y x); simpl length; lia. Qed.

(** Putting a column in order moves its values, it does not change how
    many of them are below or equal to a given one. *)
Lemma count_insert_sorted (y : Q) (s : list Q) (x : Q) :
  count_lt (insert_sorted y s) x = count_lt (y :: s) x /\
  count_eq (insert_sorted y s) x = count_eq (y :: s) x.
Proof.
  induction s as [|z s IH]; simpl; [auto|].
  destruct (Qle_bool y z); [auto|].
  destruct IH as [IHl IHe].
  rewrite (count_lt_cons z), (count_eq_cons z), IHl, IHe.
  rewrite !count_lt_cons, !count_eq_cons. split; lia.
Qed.

Lemma count_ascending (xs : list Q) (x : Q) :
  count_lt (ascending xs) x = count_lt xs x /\
  count_eq (ascending xs) x = count_eq xs x.
Proof.
  induction xs as [|y xs [IHl IHe]]; simpl; [auto|].
  destruct (count_insert_sorted y (ascending xs) x) as [-> ->].
  rewrite !count_lt_cons, !count_eq_cons, IHl, IHe. auto.
Qed.

Lemma length_ascending (xs : list Q) : length (ascending xs) = length xs.
Proof.
  induction xs as [|y xs IH]; simpl; [reflexivity|]. rewrite <- IH.
  generalize (ascending xs). intros s.
  induction s as [|z s IHs]; simpl; [reflexivity|].
  destruct (Qle_bool y z); simpl; congruence.
Qed.

Lemma insert_sorted_lower (b y : Q) (s : list Q) :
  (b <= y)%Q -> Forall (Qle b) s -> Forall (Qle b) (insert_sorted y s).
Proof.
  intros Hb Hs. induction Hs as [|z s Hz Hs IH]; simpl.
  - repeat constructor. exact Hb.
  - destruct (Qle_bool y z); repeat constructor; auto.
Qed.

Lemma insert_sorted_sorted (y : Q) (s : list Q) :
  StronglySorted Qle s -> StronglySorted Qle (insert_sorted y s).
Proof.
  intros Hs. induction Hs as [|z s Hs IH Hz]; simpl.
  - repeat constructor.
  - destruct (Qle_bool y z) eqn:E.
    + apply Qle_bool_iff in E. constructor; [now constructor|].
      constructor; [exact E|].
      eapply Forall_impl; [exact Hz|]. cbv beta. intros w Hw.
      now apply Qle_trans with z.
    + constructor; [exact IH|]. apply insert_sorted_lower; [|exact Hz].
      apply Qlt_le_weak. apply Qnot_le_lt. intros Hle.
      apply Qle_bool_iff in Hle. congruence.
Qed.

Lemma ascending_sorted (xs : list Q) : StronglySorted Qle (ascending xs).
Proof.
  induction xs as [|y xs IH]; simpl; [constructor|].
  now apply insert_sorted_sorted.
Qed.

(** Above a lower bound [b] of the column nothing is smaller than a
    value [x <= b], and nothing equals a value [x < b]. *)
Lemma count_lt_above (s : list Q) (b x : Q) :
  Forall (Qle b) s -> (x <= b)%Q -> count_lt s x = 0.
Proof.
  intros Hs Hx. induction Hs as [|z s Hz Hs IH]; [reflexivity|].
  rewrite count_lt_cons, IH.
  assert (E : ltb z x = false) by (apply ltb_ge; now apply Qle_trans with b).
  now rewrite E.
Qed.

Lemma count_eq_above (s : list Q) (b x : Q) :
  Forall (Qle b) s -> (x < b)%Q -> count_eq s x = 0.
Proof.
  intros Hs Hx. induction Hs as [|z s Hz Hs IH]; [reflexivity|].
  rewrite count_eq_cons, IH.
  destruct (Qeq_bool z x) eqn:E; [|reflexivity].
  apply Qeq_bool_iff in E. exfalso.
  apply (Qlt_irrefl x). apply Qlt_le_trans with b; [exact Hx|].
  now rewrite <- E.
Qed.

Lemma length_places (s : list Q) (x : Q) (i : Z) :
  Z.of_nat (length (places s x i)) = count_eq s x.
Proof.
  revert i. induction s as [|y s IH]; intros i; [reflexivity|].
  rewrite count_eq_cons. simpl.
  destruct (Qeq_bool y x); simpl length; rewrite <- (IH (i + 1)); lia.
Qed.

(** In a column in ascending order the ties of [x] stand side by side,
    from the place [i + count_lt] on: twice the sum of their places. *)
Lemma total_places (s : list Q) (x : Q) (i : Z) :
  StronglySorted Qle s ->
  2 * total (places s x i)
  = count_eq s x * (2 * (i + count_lt s x) + count_eq s x - 1).
Proof.
  intros Hs. revert i. induction Hs as [|y s Hs IH Hy]; intros i.
  - reflexivity.
  - rewrite count_lt_cons, count_eq_cons. cbn [places].
    destruct (Qeq_bool y x) eqn:Eeq.
    + apply Qeq_bool_iff in Eeq.
      assert (El : ltb y x = false)
        by (apply ltb_ge; rewrite Eeq; apply Qle_refl).
      rewrite El.
      change (total (i :: places s x (i + 1)))
        with (i + total (places s x (i + 1))).
      rewrite Z.mul_add_distr_l, (IH (i + 1)).
      rewrite (count_lt_above s y x Hy)
        by (rewrite Eeq; apply Qle_refl).
      nia.
    + destruct (ltb y x) eqn:El.
      * rewrite (IH (i + 1)). nia.
      * apply ltb_ge in El.
        assert (Hlt : (x < y)%Q).
        { apply Qle_lt_or_eq in El as [Hlt|E]; [exact Hlt|].
          exfalso. assert (Qeq_bool y x = true)
            by (apply Qeq_bool_iff; now symmetry). congruence. }
        rewrite (IH (i + 1)), (count_eq_above s y x Hy Hlt). lia.
Qed.

Lemma half_quotient (a b c : Z) :
  0 < b -> 2 * a = b * c ->
  (inject_Z a / inject_Z b == inject_Z c / 2)%Q.
Proof.
  intros Hb E. apply Qmult_inj_r with (inject_Z b * 2)%Q.
  - intros H. assert (Hq : (0 < inject_Z b)%Q)
      by (change 0%Q with (inject_Z 0); rewrite <- Zlt_Qlt; lia).
    qlra.
  - assert (Hn : ~ (inject_Z b == 0)%Q).
    { change 0%Q with (inject_Z 0). rewrite inject_Z_injective. lia. }
    assert (Eq : (2 * inject_Z a == inject_Z b * inject_Z c)%Q).
    { rewrite <- inject_Z_mult, <- E, inject_Z_mult. reflexivity. }
    assert (El : (inject_Z a / inject_Z b * (inject_Z b * 2)
                  == 2 * inject_Z a)%Q) by (field; exact Hn).
    assert (Er : (inject_Z c / 2 * (inject_Z b * 2)
                  == inject_Z b * inject_Z c)%Q) by field.
    rewrite El, Er. exact Eq.
Qed.

(** The closed form of [Series.rank] is the average rank. *)
Lemma rank_average (xs : list Q) (x : Q) :
  In x xs -> (rank xs x == average_rank xs x)%Q.
Proof.
  intros Hin. unfold average_rank, rank.
  pose proof (count_eq_pos xs x Hin) as He.
  destruct (count_ascending xs x) as [Hl Heq].
  pose proof (total_places _ x 1 (ascending_sorted xs)) as Ht.
  pose proof (length_places (ascending xs) x 1) as Hlen.
  rewrite Hl, Heq in Ht. rewrite Heq in Hlen.
  set (ps := places (ascending xs) x 1) in *. cbv zeta.
  rewrite (half_quotient (total ps) (Z.of_nat (length ps))
             (2 * count_lt xs x + count_eq xs x + 1))
    by (rewrite ?Hlen; lia).
  apply Qdiv_comp; [|reflexivity].
  rewrite <- inject_Z_plus. apply inject_Z_injective. lia.
Qed.

End AverageRank.

(* ====================================================================== *)
(** * The cleaned table and its derived columns                           *)
(* ====================================================================== *)

Lemma bind_Ok {A B} (r : Result A) (k : A -> Result B) (b : B) :
  r ≫= k = Ok b -> exists a, r = Ok a /\ k a = Ok b.
Proof. destruct r as [a|e]; [eauto | discriminate]. Qed.

Lemma keep_Some (r r' : CensusRow) (v : Q) :
  keep r = Some (r', v) <->
  r' = r /\ Pandas.to_numeric (B01003_001E r) = Some v /\ (0 < v)%Q.
Proof.
  unfold keep. destruct (Pandas.to_numeric (B01003_001E r)) as [x|].
  - destruct (ltb 0 x) eqn:E.
    + apply ltb_lt in E. split.
      * intros [= <- <-]. auto.
      * intros (-> & [= <-] & _). reflexivity.
    + apply ltb_ge in E. split; [discriminate|].
      intros (_ & [= <-] & Hv). exfalso. now apply (Qle_not_lt _ _ E).
  - split; [discriminate | intros (_ & H & _); discriminate].
Qed.

Lemma elem_of_clean (rows : list CensusRow) (r : CensusRow) (v : Q) :
  (r, v) ∈ clean rows <->
  r ∈ rows /\ Pandas.to_numeric (B01003_001E r) = Some v /\ (0 < v)%Q.
Proof.
  unfold clean. rewrite list_elem_of_omap. split.
  - intros (r0 & Hin & Hk). apply keep_Some in Hk as (-> & Hn & Hv). auto.
  - intros (Hin & Hn & Hv). exists r. split; [exact Hin|].
    apply keep_Some. auto.
Qed.

Lemma populations_derived (tbl : list (CensusRow * Q)) :
  map population (derived_fields tbl) = tbl.*2.
Proof.
  unfold derived_fields. generalize (tbl.*2) at 1 as pops. intros pops.
  induction tbl as [|[r p] l IH]; simpl; [reflexivity|].
  now rewrite IH.
Qed.

Lemma elem_of_derived_fields (tbl : list (CensusRow * Q)) (c : County) :
  c ∈ derived_fields tbl <->
  exists r p, (r, p) ∈ tbl /\ c = derived_row (tbl.*2) (r, p).
Proof.
  unfold derived_fields. rewrite list_elem_of_In, in_map_iff. split.
  - intros ([r p] & <- & Hin). exists r, p. now rewrite list_elem_of_In.
  - intros (r & p & Hin & ->). exists (r, p). now rewrite <- list_elem_of_In.
Qed.

Lemma load_table_Ok (census_raw : list (list string)) (df : list County) :
  load_table census_raw = Ok df ->
  exists rows, DataFrame census_raw = Ok rows /\
               df = derived_fields (clean rows).
Proof.
  unfold load_table. intros H. apply bind_Ok in H as (rows & Hr & [= <-]).
  eauto.
Qed.

(** Every row of the table comes from a row of the response that the
    cleaning keeps, and its columns are the derived fields of that row. *)
Lemma county_origin (census_raw : list (list string)) (df : list County)
    (c : County) :
  load_table census_raw = Ok df -> c ∈ df ->
  exists rows,
    DataFrame census_raw = Ok rows /\
    source c ∈ rows /\
    Pandas.to_numeric (B01003_001E (source c)) = Some (population c) /\
    (0 < population c)%Q /\
    In (population c) (map population df) /\
    FIPS c = (state (source c) ++ county (source c))%string /\
    log_pop c = log10 (Q2R (population c + 1)) /\
    population_formatted c = format_thousands (int (population c)) /\
    quantile c = Pandas.rank_pct (map population df) (population c) /\
    fill_color c = population_color (quantile c).
Proof.
  intros Hload Hc. apply load_table_Ok in Hload as (rows & Hrows & ->).
  exists rows. split; [exact Hrows|].
  rewrite populations_derived.
  apply elem_of_derived_fields in Hc as (r & p & Hin & ->).
  pose proof Hin as Hin'. apply elem_of_clean in Hin' as (Hr & Hn & Hp).
  simpl. repeat split; auto.
  apply list_elem_of_In. apply list_elem_of_fmap. exists (r, p). auto.
Qed.

(** C5: in the cleaned table every record's rank lies in (0, 1]; of two
    records the one with the larger population has a rank at least as
    large (strictly larger when the populations differ); records with
    equal populations have the same rank; and that rank is the average
    rank: the mean of the places which the record's population and its
    ties take when the population column is put in ascending order,
    divided by the number of records. *)
Theorem quantile_unit_interval_monotone
    (census_raw : list (list string)) (df : list County) (c1 c2 : County) :
  load_table census_raw = Ok df -> c1 ∈ df -> c2 ∈ df ->
  (0 < quantile c1 <= 1)%Q /\
  ((population c1 <= population c2)%Q -> (quantile c1 <= quantile c2)%Q) /\
  ((population c1 < population c2)%Q -> (quantile c1 < quantile c2)%Q) /\
  ((population c1 == population c2)%Q -> quantile c1 = quantile c2) /\
  (quantile c1 ==
   average_rank (map population df) (population c1)
   / inject_Z (Z.of_nat (length df)))%Q.
Proof.
  intros Hload H1 H2.
  destruct (county_origin _ _ _ Hload H1)
    as (_ & _ & _ & _ & _ & Hin1 & _ & _ & _ & Hq1 & _).
  destruct (county_origin _ _ _ Hload H2)
    as (_ & _ & _ & _ & _ & Hin2 & _ & _ & _ & Hq2 & _).
  rewrite Hq1, Hq2. split; [|split; [|split; [|split]]].
  - now apply rank_pct_unit.
  - now apply rank_pct_le.
  - now apply rank_pct_lt.
  - now apply rank_pct_comp.
  - unfold Pandas.rank_pct. rewrite length_map.
    apply Qdiv_comp; [|reflexivity]. now apply rank_average.
Qed.

Lemma la_sd_load : load_table la_sd_census = Ok la_sd_df.
Proof. reflexivity. Qed.

Lemma tied_load : load_table tied_census = Ok tied_df.
Proof. reflexivity. Qed.

Lemma quantile_unit_interval_monotone_witness :
  ((0 < quantile piute <= 1)%Q /\
   (quantile piute <= quantile wayne)%Q /\
   (quantile piute < quantile wayne)%Q /\
   quantile piute = quantile rich /\
   (quantile piute ==
    average_rank (map population tied_df) (population piute)
    / inject_Z (Z.of_nat (length tied_df)))%Q) /\
  ascending (map population tied_df) = [900; 1500; 1500; 2500]%Q /\
  places (ascending (map population tied_df)) (population piute) 1 = [2; 3] /\
  (average_rank (map population tied_df) (population piute) == 5 # 2)%Q /\
  (quantile piute == 5 # 8)%Q.
Proof.
  assert (Hp : piute ∈ tied_df)
    by (unfold tied_df; apply list_elem_of_In; simpl; auto).
  assert (Hr : rich ∈ tied_df)
    by (unfold tied_df; apply list_elem_of_In; simpl; auto).
  assert (Hw : wayne ∈ tied_df)
    by (unfold tied_df; apply list_elem_of_In; simpl; auto).
  destruct (quantile_unit_interval_monotone tied_census tied_df piute wayne
              tied_load Hp Hw) as (Hunit & Hle & Hlt & _ & Havg).
  destruct (quantile_unit_interval_monotone tied_census tied_df piute rich
              tied_load Hp Hr) as (_ & _ & _ & Htie & _).
  split; [|split; [|split; [|split]]]; try reflexivity.
  split; [exact Hunit|]. split; [apply Hle; discriminate|].
  split; [apply Hlt; reflexivity|]. split; [apply Htie; reflexivity|].
  exact Havg.
Defined.

(* ====================================================================== *)
(** * The logarithm                                                       *)
(* ====================================================================== *)

Lemma ln_10_pos : (0 < ln 10)%R.
Proof. rewrite <- ln_1. apply ln_increasing; rlra. Qed.

Lemma log10_increasing (x y : R) :
  (0 < x)%R -> (x < y)%R -> (log10 x < log10 y)%R.
Proof.
  intros Hx Hxy. unfold log10. apply Rmult_lt_compat_r.
  - apply Rinv_0_lt_compat, ln_10_pos.
  - now apply ln_increasing.
Qed.

(* ====================================================================== *)
(** * The join                                                            *)
(* ====================================================================== *)

Lemma info_of_Ok (c : County) (i : Info.t) :
  info_of c = Ok i ->
  exists name, NAME (source c) = Some name /\ i = info_row c name.
Proof.
  unfold info_of. destruct (NAME (source c)) as [name|]; [|discriminate].
  intros [= <-]. eauto.
Qed.

(** Every entry of the lookup was there before or stems from a row. *)
Lemma build_lookup_lookup (df : list County) :
  forall (m vl : gmap string Info.t) (key : string) (i : Info.t),
    build_lookup m df = Ok vl -> vl !! key = Some i ->
    m !! key = Some i \/ exists c, c ∈ df /\ FIPS c = key /\ info_of c = Ok i.
Proof.
  induction df as [|c df IH]; intros m vl key i Hb Hl; simpl in Hb.
  - injection Hb as <-. auto.
  - apply bind_Ok in Hb as (ic & Hic & Hb).
    destruct (IH _ _ _ _ Hb Hl) as [Hm | (c' & Hin & Hk & Hi)].
    + destruct (decide (FIPS c = key)) as [E|E].
      * subst key. rewrite lookup_insert_eq in Hm. injection Hm as <-.
        right. exists c. split; [apply list_elem_of_here | auto].
      * rewrite lookup_insert_ne in Hm by exact E. auto.
    + right. exists c'. split; [now apply list_elem_of_further | auto].
Qed.

(** The keys of the lookup are those it had and the identifiers of the
    rows. *)
Lemma build_lookup_dom (df : list County) :
  forall (m vl : gmap string Info.t) (key : string),
    build_lookup m df = Ok vl ->
    is_Some (vl !! key) <-> is_Some (m !! key) \/ key ∈ FIPS <$> df.
Proof.
  induction df as [|c df IH]; intros m vl key Hb; simpl in Hb.
  - injection Hb as <-. rewrite fmap_nil, elem_of_nil. tauto.
  - apply bind_Ok in Hb as (ic & Hic & Hb). rewrite (IH _ _ key Hb).
    rewrite fmap_cons, elem_of_cons.
    destruct (decide (FIPS c = key)) as [E|E].
    + subst key. rewrite lookup_insert_eq. split; [|eauto].
      intros _. right. now left.
    + rewrite lookup_insert_ne by exact E. split.
      * intros [?|?]; auto.
      * intros [?|[?|?]]; auto. congruence.
Qed.

(** The attributes do not touch the key the identifier is read from. *)
Lemma inject_GEO_ID (props : gmap string JValue) (key : string) (i : Info.t) :
  inject props key i !! "GEO_ID"%string = props !! "GEO_ID"%string.
Proof. unfold inject. now rewrite !lookup_insert_ne by discriminate. Qed.

Lemma origin_fips (f0 f : Feature.t) :
  origin f0 f -> feature_fips f = feature_fips f0.
Proof.
  intros (Hid & _ & props & key & i & Hp0 & Hp). unfold feature_fips.
  rewrite Hid, Hp0, Hp, inject_GEO_ID. reflexivity.
Qed.

Lemma matched_features_joined (vl : gmap string Info.t) (fs : list Feature.t) :
  forall out, matched_features vl fs = Ok out ->
              Forall2 (joined vl) (List.filter (hit vl) fs) out.
Proof.
  induction fs as [|f0 fs IH]; intros out H; simpl in H.
  - injection H as <-. constructor.
  - apply bind_Ok in H as (fips & Hf & H).
    apply bind_Ok in H as (h & Hh & H).
    simpl. unfold hit at 1. rewrite Hf.
    destruct fips as [|b|n|x|s|l|l]; simpl in Hh; try discriminate;
      injection Hh as <-; try (now apply IH).
    destruct (vl !! s) as [i|] eqn:Hl; simpl in H.
    + rewrite bool_decide_eq_true_2 by eauto.
      destruct (Feature.properties f0) as [props|] eqn:Hp; [|discriminate].
      apply bind_Ok in H as (rest & Hrest & [= <-]).
      constructor; [|now apply IH]. exists props, s, i. auto.
    + rewrite bool_decide_eq_false_2 by (intros [? ?]; discriminate).
      now apply IH.
Qed.

Lemma hit_has_entry (df : list County) (vl : gmap string Info.t)
    (f0 : Feature.t) :
  build_lookup ∅ df = Ok vl -> hit vl f0 = has_entry df f0.
Proof.
  intros Hb. unfold hit, has_entry.
  destruct (feature_fips f0) as [[| | | |key| |]|]; try reflexivity.
  apply bool_decide_ext. rewrite (build_lookup_dom df ∅ vl key Hb).
  rewrite lookup_empty. split; [intros [[? ?]|?]|]; auto. discriminate.
Qed.

Lemma property_inject (id : option JValue) (props : gmap string JValue)
    (key : string) (i : Info.t) (others : list (string * JValue)) :
  let f := Feature.mk id (Some (inject props key i)) others in
  property f "fips" = JStr key /\
  property f "population" = JInt (Info.population i) /\
  property f "population_formatted" = JStr (Info.population_formatted i) /\
  property f "log_pop" = JFloat (Info.log_pop i) /\
  property f "quantile" = JFloat (Q2R (Info.quantile i)) /\
  property f "fill_color" = JArr (JInt <$> Info.fill_color i) /\
  property f "county_name" = JStr (Info.county_name i).
Proof.
  unfold property, inject. simpl.
  repeat split;
    repeat (rewrite lookup_insert_ne by discriminate);
    now rewrite lookup_insert_eq.
Qed.

Lemma joined_carries (df : list County) (vl : gmap string Info.t)
    (f0 f : Feature.t) :
  build_lookup ∅ df = Ok vl -> joined vl f0 f ->
  origin f0 f /\
  exists c, c ∈ df /\ feature_fips f0 = Ok (JStr (FIPS c)) /\ carries f c.
Proof.
  intros Hb (props & key & i & Hf & Hl & Hp & ->). split.
  - split; [reflexivity|]. split; [reflexivity|].
    exists props, key, i. auto.
  - destruct (build_lookup_lookup df ∅ vl key i Hb Hl)
      as [He | (c & Hin & <- & Hi)].
    + rewrite lookup_empty in He. discriminate.
    + exists c. split; [exact Hin|]. split; [exact Hf|].
      apply info_of_Ok in Hi as (name & Hn & ->).
      pose proof (property_inject (Feature.id f0) props (FIPS c)
        (info_row c name) (Feature.others f0)) as Hprop.
      cbv zeta in Hprop. simpl in Hprop.
      destruct Hprop as (H1 & H2 & H3 & H4 & H5 & H6 & H7).
      unfold carries. rewrite H1, H2, H3, H4, H5, H6, H7, Hn.
      repeat split.
Qed.

(** The written collection is, in order, the polygons whose identifier
    is the key of a row, each with the attributes of such a row. *)
Lemma merged_spec (counties_geojson doc : GeoJSON) (df : list County) :
  merged counties_geojson df = Ok doc ->
  foreign_members doc = foreign_members counties_geojson /\
  Forall2
    (fun f0 f =>
       origin f0 f /\
       exists c, c ∈ df /\ feature_fips f0 = Ok (JStr (FIPS c)) /\ carries f c)
    (List.filter (has_entry df) (features counties_geojson)) (features doc).
Proof.
  unfold merged. intros H.
  apply bind_Ok in H as (vl & Hb & H).
  apply bind_Ok in H as (out & Hm & [= <-]). simpl. split; [reflexivity|].
  apply matched_features_joined in Hm.
  rewrite (filter_ext (hit vl) (has_entry df)) in Hm
    by (intros f0; now apply hit_has_entry).
  eapply Forall2_impl; [exact Hm|]. intros f0 f Hj.
  now apply (joined_carries df vl).
Qed.

(** ** The flat table *)

Lemma select_rows_spec (df : list County) :
  forall table, select_rows df = Ok table -> Forall2 csv_of df table.
Proof.
  induction df as [|c df IH]; intros table H; simpl in H.
  - injection H as <-. constructor.
  - destruct (NAME (source c)) as [name|] eqn:Hn; [|discriminate].
    apply bind_Ok in H as (rest & Hrest & [= <-]).
    constructor; [|now apply IH].
    unfold csv_of. simpl. rewrite Hn. repeat split.
Qed.

Lemma df_out_spec (census_raw : list (list string)) (df : list County)
    (table : list CsvRow) :
  df_out census_raw df = Ok table -> Forall2 csv_of df table.
Proof.
  unfold df_out. intros H. apply bind_Ok in H as (_ & _ & H).
  now apply select_rows_spec.
Qed.

(** ** Sample runs of the pure part *)

Lemma small_load : load_table small_census = Ok small_df.
Proof. reflexivity. Qed.

Lemma small_merged : merged small_counties small_df = Ok small_doc.
Proof. reflexivity. Qed.

Lemma small_df_out : df_out small_census small_df = Ok small_table.
Proof. reflexivity. Qed.

Lemma la_sd_merged : merged la_sd_counties la_sd_df = Ok la_sd_doc.
Proof. reflexivity. Qed.

Lemma la_sd_df_out : df_out la_sd_census la_sd_df = Ok la_sd_table.
Proof. reflexivity. Qed.

Lemma short_load : load_table short_census = Ok [short_county].
Proof. reflexivity. Qed.

Lemma short_merged : merged short_counties [short_county] = Ok short_doc.
Proof. reflexivity. Qed.

(* ====================================================================== *)
(** * Join completeness                                                   *)
(* ====================================================================== *)

Lemma length_append (a b : string) :
  String.length (a ++ b) = (String.length a + String.length b)%nat.
Proof. induction a as [|c a IH]; simpl; [reflexivity | now rewrite IH]. Qed.

Lemma int_whole_pos (p : Q) :
  (0 < p)%Q -> (exists n : Z, (p == inject_Z n)%Q) -> 0 < int p.
Proof.
  intros Hp [n Hn]. rewrite (int_comp _ _ Hn), int_Z.
  rewrite Hn in Hp. change 0%Q with (inject_Z 0) in Hp.
  now rewrite <- Zlt_Qlt in Hp.
Qed.

Lemma Forall2_elem_of_r {A B} (P : A -> B -> Prop) (l : list A) (k : list B)
    (y : B) :
  Forall2 P l k -> y ∈ k -> exists x, x ∈ l /\ P x y.
Proof.
  induction 1 as [|x y' l k HP HF IH]; intros Hy.
  - now apply elem_of_nil in Hy.
  - apply elem_of_cons in Hy as [->|Hy].
    + exists x. split; [apply list_elem_of_here | exact HP].
    + destruct (IH Hy) as (x' & Hx' & HP'). exists x'.
      split; [now apply list_elem_of_further | exact HP'].
Qed.

(** Every written feature carries the attributes of a row of the table,
    and its identifier, read as line 121 reads it, is that row's key. *)
Lemma feature_entry (counties_geojson doc : GeoJSON) (df : list County)
    (f : Feature.t) :
  merged counties_geojson df = Ok doc -> f ∈ features doc ->
  exists c, c ∈ df /\ feature_fips f = Ok (JStr (FIPS c)) /\ carries f c.
Proof.
  intros Hm Hf. apply merged_spec in Hm as [_ HF].
  destruct (Forall2_elem_of_r _ _ _ _ HF Hf)
    as (f0 & _ & Ho & c & Hc & Hfips & Hcar).
  exists c. split; [exact Hc|]. split; [|exact Hcar].
  now rewrite (origin_fips f0 f Ho).
Qed.

(** C1, as the code has it: every feature of the written collection has
    a matching entry in the cleaned table; it carries that entry's
    identifier, which is the state code followed by the county code (5
    characters when the codes have 2 and 3), and the integer part of the
    entry's strictly positive population (strictly positive when the
    population is a whole number).  The written features are, in order,
    the polygons that have an entry, so a polygon whose identifier has
    no entry is not written, with null attributes or otherwise. *)
Theorem join_matches_cleaned_table
    (census_raw : list (list string)) (counties_geojson doc : GeoJSON)
    (df : list County) :
  load_table census_raw = Ok df -> merged counties_geojson df = Ok doc ->
  (forall f, f ∈ features doc ->
     exists c,
       c ∈ df /\ feature_fips f = Ok (JStr (FIPS c)) /\
       property f "fips" = JStr (FIPS c) /\
       property f "population" = JInt (int (population c)) /\
       (0 < population c)%Q /\
       FIPS c = (state (source c) ++ county (source c))%string /\
       ((exists n : Z, (population c == inject_Z n)%Q) ->
        0 < int (population c)) /\
       (String.length (state (source c)) = 2%nat ->
        String.length (county (source c)) = 3%nat ->
        String.length (FIPS c) = 5%nat)) /\
  Forall2 origin
    (List.filter (has_entry df) (features counties_geojson)) (features doc) /\
  (forall f0, f0 ∈ features counties_geojson -> has_entry df f0 = false ->
     forall f, f ∈ features doc -> feature_fips f <> feature_fips f0).
Proof.
  intros Hload Hm. split; [|split].
  - intros f Hf.
    destruct (feature_entry _ _ _ _ Hm Hf) as (c & Hc & Hfips & Hcar).
    destruct (county_origin _ _ _ Hload Hc)
      as (_ & _ & _ & _ & Hpos & _ & HF & _).
    destruct Hcar as (Hp1 & Hp2 & _).
    exists c. repeat split; auto.
    + intros Hn. now apply int_whole_pos.
    + intros Hs Hco. now rewrite HF, length_append, Hs, Hco.
  - apply merged_spec in Hm as [_ HF].
    eapply Forall2_impl; [exact HF|]. now intros f0 f [Ho _].
  - intros f0 _ Hno f Hf E.
    destruct (feature_entry _ _ _ _ Hm Hf) as (c & Hc & Hfips & _).
    unfold has_entry in Hno. rewrite <- E, Hfips in Hno.
    apply bool_decide_eq_false in Hno. apply Hno.
    apply list_elem_of_fmap. eauto.
Qed.

Lemma join_matches_cleaned_table_witness :
  (forall f, f ∈ features small_doc ->
     exists c,
       c ∈ small_df /\ feature_fips f = Ok (JStr (FIPS c)) /\
       property f "fips" = JStr (FIPS c) /\
       property f "population" = JInt (int (population c)) /\
       (0 < population c)%Q /\
       FIPS c = (state (source c) ++ county (source c))%string /\
       ((exists n : Z, (population c == inject_Z n)%Q) ->
        0 < int (population c)) /\
       (String.length (state (source c)) = 2%nat ->
        String.length (county (source c)) = 3%nat ->
        String.length (FIPS c) = 5%nat)) /\
  Forall2 origin
    (List.filter (has_entry small_df) (features small_counties))
    (features small_doc) /\
  (forall f0, f0 ∈ features small_counties -> has_entry small_df f0 = false ->
     forall f, f ∈ features small_doc -> feature_fips f <> feature_fips f0).
Proof.
  apply (join_matches_cleaned_table small_census small_counties small_doc
           small_df); reflexivity.
Defined.

(** C1, as the specification states it, fails: for the answer with the
    unpadded codes 6 and 37 and the count 0.5 the written feature has
    the 3-character identifier 637 and the population 0. *)
Lemma join_identifier_not_always_five_characters :
  (load_table short_census = Ok [short_county] /\
   merged short_counties [short_county] = Ok short_doc /\
   features short_doc = [attach "637" "637" short_county "Tiny"] /\
   property (attach "637" "637" short_county "Tiny") "population" = JInt 0 /\
   property (attach "637" "637" short_county "Tiny") "fips" = JStr "637") /\
  ~ (forall census_raw counties_geojson doc df,
       load_table census_raw = Ok df ->
       merged counties_geojson df = Ok doc ->
       forall f, f ∈ features doc ->
         exists c,
           c ∈ df /\ feature_fips f = Ok (JStr (FIPS c)) /\
           (exists n, property f "population" = JInt n /\ 0 < n) /\
           (exists s, property f "fips" = JStr s /\ String.length s = 5%nat)).
Proof.
  split; [repeat split|]. intros H.
  destruct (H short_census short_counties short_doc [short_county]
              short_load short_merged
              (attach "637" "637" short_county "Tiny"))
    as (c & _ & _ & (n & Hn & Hpos) & (s & Hs & Hlen)).
  - apply list_elem_of_here.
  - injection Hs as <-. discriminate Hlen.
Qed.

(* ====================================================================== *)
(** * Cleaning                                                            *)
(* ====================================================================== *)

(** ** What [to_numeric] reads *)

Section ToNumeric.

Import Pandas.

Lemma digits_value_uint (d : Decimal.uint) (acc : Z) :
  digits_value acc (list_ascii_of_string (NilEmpty.string_of_uint d))
  = Some (uint_value acc d).
Proof.
  revert acc. induction d; intros acc; cbn [NilEmpty.string_of_uint
    list_ascii_of_string digits_value uint_value]; [reflexivity|..];
    (change (digit_value _) with (Some 0) ||
     change (digit_value _) with (Some 1) ||
     change (digit_value _) with (Some 2) ||
     change (digit_value _) with (Some 3) ||
     change (digit_value _) with (Some 4) ||
     change (digit_value _) with (Some 5) ||
     change (digit_value _) with (Some 6) ||
     change (digit_value _) with (Some 7) ||
     change (digit_value _) with (Some 8) ||
     change (digit_value _) with (Some 9));
    cbv iota; rewrite ?Z.add_0_r; apply IHd.
Qed.

Lemma uint_value_acc (d : Decimal.uint) (acc : positive) :
  uint_value (Z.pos acc) d = Z.pos (Pos.of_uint_acc d acc).
Proof.
  revert acc. induction d; intros acc; cbn [uint_value Pos.of_uint_acc];
    [reflexivity|..];
    match goal with
    | |- uint_value ?a _ = Z.pos (Pos.of_uint_acc _ ?b) =>
        replace a with (Z.pos b) by lia
    end; apply IHd.
Qed.

Lemma uint_value_of_uint (d : Decimal.uint) :
  uint_value 0 d = Z.of_N (Pos.of_uint d).
Proof.
  induction d; cbn [uint_value Pos.of_uint]; try reflexivity;
    try (exact IHd); apply (uint_value_acc d).
Qed.

Lemma uint_value_to_uint (p : positive) :
  uint_value 0 (Pos.to_uint p) = Z.pos p.
Proof.
  now rewrite uint_value_of_uint, DecimalPos.Unsigned.of_to.
Qed.

Lemma digits_are_digits (d : Decimal.uint) :
  Forall (fun c => is_digit c = true)
    (list_ascii_of_string (NilEmpty.string_of_uint d)).
Proof. induction d; simpl; constructor; auto. Qed.

Lemma split_point_digits (l : list ascii) :
  Forall (fun c => is_digit c = true) l -> split_point l = (l, []).
Proof.
  induction 1 as [|c l Hc Hl IH]; [reflexivity|]. simpl.
  destruct (Ascii.eqb c ".") eqn:E.
  - apply Ascii.eqb_eq in E. subst c. discriminate Hc.
  - now rewrite IH.
Qed.

Lemma unsigned_decimal_digits (p : positive) :
  unsigned_decimal
    (list_ascii_of_string (NilEmpty.string_of_uint (Pos.to_uint p)))
  = Some (inject_Z (Z.pos p)).
Proof.
  unfold unsigned_decimal.
  rewrite (split_point_digits _ (digits_are_digits _)), app_nil_r.
  pose proof (digits_value_uint (Pos.to_uint p) 0) as Hv.
  rewrite uint_value_to_uint in Hv.
  destruct (list_ascii_of_string _) eqn:E.
  - exfalso. pose proof (DecimalPos.Unsigned.to_uint_nonnil p) as Hn.
    destruct (Pos.to_uint p); try discriminate E. now apply Hn.
  - rewrite Hv. reflexivity.
Qed.

(** [to_numeric] reads back the integer that [str] prints. *)
Lemma to_numeric_str (n : Z) : to_numeric (str n) = Some (inject_Z n).
Proof.
  destruct n as [|p|p]; [reflexivity|..];
    pose proof (unsigned_decimal_digits p) as H;
    pose proof (DecimalPos.Unsigned.to_uint_nonnil p) as Hn;
    unfold to_numeric, str; cbn [Z.to_int NilZero.string_of_int].
  - unfold NilZero.string_of_uint.
    destruct (Pos.to_uint p) eqn:E; [now contradiction Hn|..];
      cbn [NilEmpty.string_of_uint list_ascii_of_string] in H |- *;
      exact H.
  - cbn [list_ascii_of_string]. unfold NilZero.string_of_uint.
    destruct (Pos.to_uint p) eqn:E; [now contradiction Hn|..];
      cbn [NilEmpty.string_of_uint] in H |- *; rewrite H; reflexivity.
Qed.

(** [str] prints different integers differently. *)
Lemma str_inj (n m : Z) : str n = str m -> n = m.
Proof.
  intros E. pose proof (to_numeric_str n) as Hn. rewrite E in Hn.
  rewrite to_numeric_str in Hn. now injection Hn.
Qed.

(** A string without digits is not read as a number. *)
Lemma unsigned_decimal_no_digit (l : list ascii) :
  Forall (fun c => is_digit c = false) l -> unsigned_decimal l = None.
Proof.
  intros Hl. unfold unsigned_decimal.
  assert (Hs : Forall (fun c => is_digit c = false)
                 ((split_point l).1 ++ (split_point l).2)).
  { induction Hl as [|c l Hc Hl IH]; [constructor|]. simpl.
    destruct (Ascii.eqb c "."); simpl.
    - exact Hl.
    - destruct (split_point l) as [a b]. simpl in *. now constructor. }
  destruct (split_point l) as [ip fp]. simpl in Hs.
  destruct (ip ++ fp) as [|c k]; [reflexivity|].
  apply Forall_cons in Hs as [Hc _]. unfold is_digit in Hc. simpl.
  destruct (digit_value c); [discriminate Hc | reflexivity].
Qed.

Lemma to_numeric_unsigned (cell : string) :
  exists l, (l = list_ascii_of_string cell \/
             exists c, c :: l = list_ascii_of_string cell) /\
            (to_numeric cell = unsigned_decimal l \/
             to_numeric cell = Qopp <$> unsigned_decimal l).
Proof.
  unfold to_numeric. destruct (list_ascii_of_string cell) as [|c l].
  - exists []. auto.
  - destruct c as [[] [] [] [] [] [] [] []];
      solve [ exists l; eauto | eexists (_ :: l); eauto ].
Qed.

Lemma to_numeric_no_number (cell : string) :
  no_number cell = true -> to_numeric cell = None.
Proof.
  unfold no_number. rewrite forallb_forall. intros H.
  assert (Hd : Forall (fun c => is_digit c = false)
                 (list_ascii_of_string cell)).
  { apply List.Forall_forall. intros c Hc. specialize (H c Hc).
    destruct (is_digit c); [|reflexivity].
    rewrite andb_false_r in H. discriminate H. }
  destruct (to_numeric_unsigned cell) as (l & Hl & Hn).
  assert (Hd' : Forall (fun c => is_digit c = false) l).
  { destruct Hl as [->|[c E]]; [exact Hd|].
    rewrite <- E in Hd. now apply Forall_cons in Hd as [_ Hd]. }
  rewrite (unsigned_decimal_no_digit l Hd') in Hn.
  destruct Hn as [-> | ->]; reflexivity.
Qed.

End ToNumeric.

(** ** The rows that are kept *)

Lemma sentinel_not_positive :
  Pandas.to_numeric "-666666666" = Some (-666666666 # 1) /\
  Pandas.to_numeric "0" = Some (0 # 1).
Proof. split; reflexivity. Qed.

(** A row with a count is kept exactly when the count is positive, and
    then with that count as its population. *)
Lemma kept_count (rows : list CensusRow) (r : CensusRow) (v : Q) :
  r ∈ rows -> served r ->
  ((r, v) ∈ clean rows <->
   exists n : Z, B01003_001E r = str n /\ 0 < n /\ v = inject_Z n).
Proof.
  intros Hr Hs. rewrite elem_of_clean. split.
  - intros (_ & Hn & Hv). destruct Hs as [(n & _ & E) | Hno].
    + rewrite E, to_numeric_str in Hn. injection Hn as <-.
      exists n. split; [exact E|]. split; [|reflexivity].
      change 0%Q with (inject_Z 0) in Hv. now rewrite <- Zlt_Qlt in Hv.
    + rewrite (to_numeric_no_number _ Hno) in Hn. discriminate Hn.
  - intros (n & E & Hn & ->). split; [exact Hr|].
    rewrite E, to_numeric_str. split; [reflexivity|].
    change 0%Q with (inject_Z 0). now rewrite <- Zlt_Qlt.
Qed.



(* ====================================================================== *)
(** * Rounding and logarithms of reals                                    *)
(* ====================================================================== *)

Lemma Int_part_bounds (x : R) :
  (IZR (Int_part x) <= x < IZR (Int_part x) + 1)%R.
Proof. destruct (base_Int_part x) as [H1 H2]. split; rlra. Qed.

Lemma Int_part_unique (x : R) (n : Z) :
  (IZR n <= x < IZR n + 1)%R -> Int_part x = n.
Proof.
  intros [Hl Hu]. destruct (Int_part_bounds x) as [Hl' Hu'].
  assert (H1 : (IZR n < IZR (Int_part x + 1))%R) by (rewrite plus_IZR; rlra).
  assert (H2 : (IZR (Int_part x) < IZR (n + 1))%R) by (rewrite plus_IZR; rlra).
  apply lt_IZR in H1, H2. lia.
Qed.

Lemma Q2R_inject_Z (z : Z) : Q2R (inject_Z z) = IZR z.
Proof. unfold Q2R, inject_Z. simpl. field. Qed.

Lemma Int_part_Q2R (q : Q) : Int_part (Q2R q) = Qfloor q.
Proof.
  apply Int_part_unique. split.
  - rewrite <- Q2R_inject_Z. apply Qle_Rle, Qfloor_le.
  - replace (IZR (Qfloor q) + 1)%R with (IZR (Qfloor q + 1))
      by (rewrite plus_IZR; reflexivity).
    rewrite <- Q2R_inject_Z. apply Qlt_Rlt, Qlt_floor.
Qed.

(** The two models of [round] are one function. *)
Lemma Rrint_Q2R (q : Q) : Rrint (Q2R q) = rint q.
Proof.
  unfold Rrint, rint. rewrite Int_part_Q2R.
  set (n := Qfloor q).
  assert (E : (Q2R q - IZR n)%R = Q2R (q - inject_Z n)).
  { unfold Qminus. rewrite Q2R_plus, Q2R_opp, Q2R_inject_Z. reflexivity. }
  assert (Eh : (1 / 2)%R = Q2R (1 # 2)) by (unfold Q2R; simpl; field).
  rewrite E, Eh.
  destruct (q - inject_Z n ?= 1 # 2)%Q eqn:C.
  - apply Qeq_alt in C. apply Qeq_eqR in C. rewrite C.
    destruct (Rlt_dec _ _) as [H|_]; [exfalso; rlra | reflexivity].
  - apply Qlt_alt in C. apply Qlt_Rlt in C.
    destruct (Rlt_dec _ _) as [_|H]; [reflexivity | contradiction].
  - apply Qgt_alt in C. apply Qlt_Rlt in C.
    destruct (Rlt_dec _ _) as [H|_]; [exfalso; rlra|].
    destruct (Rlt_dec _ _) as [_|H]; [reflexivity | contradiction].
Qed.


Lemma Rrint_cases (x : R) :
  Rrint x = Int_part x \/ Rrint x = Int_part x + 1.
Proof.
  unfold Rrint. destruct (Rlt_dec _ _); [auto|].
  destruct (Rlt_dec _ _); [auto|]. destruct (Z.even _); auto.
Qed.

(** Rounding never crosses an integer. *)
Lemma Rrint_ge (x : R) (k : Z) : (IZR k <= x)%R -> k <= Rrint x.
Proof.
  intros Hk. destruct (Int_part_bounds x) as [_ Hu].
  assert (Hlt : (IZR k < IZR (Int_part x + 1))%R) by (rewrite plus_IZR; rlra).
  apply lt_IZR in Hlt. destruct (Rrint_cases x) as [-> | ->]; lia.
Qed.

Lemma Rrint_le (x : R) (k : Z) : (x <= IZR k)%R -> Rrint x <= k.
Proof.
  intros Hk. destruct (Int_part_bounds x) as [Hl _].
  assert (Hle : (IZR (Int_part x) <= IZR k)%R) by rlra.
  apply le_IZR in Hle.
  destruct (Z.eq_dec (Int_part x) k) as [E|E].
  - unfold Rrint. destruct (Rlt_dec _ _) as [_|Hn]; [lia|].
    exfalso. apply Hn. rewrite E in *. rlra.
  - destruct (Rrint_cases x) as [-> | ->]; lia.
Qed.

Lemma ten_pow_pos (n : nat) : (0 < IZR (10 ^ Z.of_nat n))%R.
Proof. apply IZR_lt. apply Z.pow_pos_nonneg; lia. Qed.

Lemma Rround_Q2R (q : Q) (n : nat) : Q2R (round q n) = Rround (Q2R q) n.
Proof.
  unfold round, Rround. pose proof (ten_pow_pos n) as Hp.
  rewrite <- Rrint_Q2R, Q2R_mult, Q2R_inject_Z.
  unfold Qdiv. rewrite Q2R_mult, Q2R_inv, !Q2R_inject_Z; [reflexivity|].
  intros E. apply Qeq_eqR in E. rewrite Q2R_inject_Z in E.
  unfold Q2R in E. simpl in E. rlra.
Qed.

Lemma Rrint_close (x : R) : (Rabs (IZR (Rrint x) - x) <= 1 / 2)%R.
Proof.
  destruct (Int_part_bounds x) as [Hl Hu]. unfold Rrint.
  destruct (Rlt_dec _ _) as [H1|H1].
  - apply Rabs_le. rlra.
  - destruct (Rlt_dec _ _) as [H2|H2].
    + rewrite plus_IZR. apply Rabs_le. rlra.
    + destruct (Z.even _); [|rewrite plus_IZR]; apply Rabs_le; rlra.
Qed.

Lemma Rround_close (x : R) (n : nat) :
  (Rabs (Rround x n - x) <= 1 / 2 / IZR (10 ^ Z.of_nat n))%R.
Proof.
  pose proof (ten_pow_pos n) as Hp. unfold Rround.
  set (p := IZR (10 ^ Z.of_nat n)) in *.
  pose proof (Rrint_close (x * p)) as H.
  replace (IZR (Rrint (x * p)) / p - x)%R
    with ((IZR (Rrint (x * p)) - x * p) * / p)%R by (field; rlra).
  rewrite Rabs_mult, (Rabs_right (/ p))
    by (apply Rle_ge, Rlt_le, Rinv_0_lt_compat, Hp).
  unfold Rdiv at 2. apply Rmult_le_compat_r; [|exact H].
  apply Rlt_le, Rinv_0_lt_compat, Hp.
Qed.

Lemma Rround_rounded (x : R) (n : nat) : rounded_to n (Rround x n) x.
Proof.
  split; [|apply Rround_close]. unfold Rround. eauto.
Qed.

Lemma Rround_ge (x : R) (k : Z) (n : nat) :
  (IZR k / IZR (10 ^ Z.of_nat n) <= x)%R ->
  (IZR k / IZR (10 ^ Z.of_nat n) <= Rround x n)%R.
Proof.
  intros H. pose proof (ten_pow_pos n) as Hp. unfold Rround.
  apply Rmult_le_compat_r; [apply Rlt_le, Rinv_0_lt_compat, Hp|].
  apply IZR_le, Rrint_ge.
  apply (Rmult_le_compat_r _ _ _ (Rlt_le _ _ Hp)) in H.
  unfold Rdiv in H. rewrite Rmult_assoc, Rinv_l, Rmult_1_r in H; rlra.
Qed.

Lemma Rround_le (x : R) (k : Z) (n : nat) :
  (x <= IZR k / IZR (10 ^ Z.of_nat n))%R ->
  (Rround x n <= IZR k / IZR (10 ^ Z.of_nat n))%R.
Proof.
  intros H. pose proof (ten_pow_pos n) as Hp. unfold Rround.
  apply Rmult_le_compat_r; [apply Rlt_le, Rinv_0_lt_compat, Hp|].
  apply IZR_le, Rrint_le.
  apply (Rmult_le_compat_r _ _ _ (Rlt_le _ _ Hp)) in H.
  unfold Rdiv in H. rewrite Rmult_assoc, Rinv_l, Rmult_1_r in H; rlra.
Qed.

(** Logarithms of integers against rational bounds [a / b], by
    comparing powers. *)
Lemma ln_IZR_pow (n : Z) (b : nat) :
  0 < n -> ln (IZR (n ^ Z.of_nat b)) = (INR b * ln (IZR n))%R.
Proof.
  intros Hn. rewrite <- pow_IZR. apply ln_pow. now apply IZR_lt.
Qed.

Lemma log10_cross (n a b : Z) :
  0 < n -> 0 <= a -> 0 < b ->
  (IZR b * ln (IZR n) = ln (IZR (n ^ b)))%R /\
  (IZR a * ln 10 = ln (IZR (10 ^ a)))%R /\
  (0 < IZR (n ^ b))%R /\ (0 < IZR (10 ^ a))%R.
Proof.
  intros Hn Ha Hb.
  rewrite <- (Z2Nat.id a), <- (Z2Nat.id b) by lia.
  rewrite !ln_IZR_pow, <- !INR_IZR_INZ by lia.
  repeat split; apply IZR_lt; apply Z.pow_pos_nonneg; lia.
Qed.

Lemma log10_lower (n a b : Z) :
  0 < n -> 0 <= a -> 0 < b -> 10 ^ a <= n ^ b ->
  (IZR a / IZR b <= log10 (IZR n))%R.
Proof.
  intros Hn Ha Hb Hpow. unfold log10.
  destruct (log10_cross n a b Hn Ha Hb) as (En & E10 & Pn & P10).
  assert (Hb' : (0 < IZR b)%R) by now apply IZR_lt.
  pose proof ln_10_pos as H10.
  assert (Hln : (IZR a * ln 10 <= IZR b * ln (IZR n))%R).
  { rewrite En, E10. apply IZR_le in Hpow.
    destruct (Rle_lt_or_eq_dec _ _ Hpow) as [Hlt|Heq].
    - now apply Rlt_le, ln_increasing.
    - rewrite Heq. apply Rle_refl. }
  apply (Rmult_le_reg_r (IZR b * ln 10)); [apply Rmult_lt_0_compat; rlra|].
  replace (IZR a / IZR b * (IZR b * ln 10))%R with (IZR a * ln 10)%R
    by (field; rlra).
  replace (ln (IZR n) / ln 10 * (IZR b * ln 10))%R with (IZR b * ln (IZR n))%R
    by (field; rlra).
  exact Hln.
Qed.

Lemma log10_upper (n a b : Z) :
  0 < n -> 0 <= a -> 0 < b -> n ^ b <= 10 ^ a ->
  (log10 (IZR n) <= IZR a / IZR b)%R.
Proof.
  intros Hn Ha Hb Hpow. unfold log10.
  destruct (log10_cross n a b Hn Ha Hb) as (En & E10 & Pn & P10).
  assert (Hb' : (0 < IZR b)%R) by now apply IZR_lt.
  pose proof ln_10_pos as H10.
  assert (Hln : (IZR b * ln (IZR n) <= IZR a * ln 10)%R).
  { rewrite En, E10. apply IZR_le in Hpow.
    destruct (Rle_lt_or_eq_dec _ _ Hpow) as [Hlt|Heq].
    - now apply Rlt_le, ln_increasing.
    - rewrite Heq. apply Rle_refl. }
  apply (Rmult_le_reg_r (IZR b * ln 10)); [apply Rmult_lt_0_compat; rlra|].
  replace (IZR a / IZR b * (IZR b * ln 10))%R with (IZR a * ln 10)%R
    by (field; rlra).
  replace (ln (IZR n) / ln 10 * (IZR b * ln 10))%R with (IZR b * ln (IZR n))%R
    by (field; rlra).
  exact Hln.
Qed.

(** The logarithm of an odd number above 1 has no finite decimal
    expansion, so rounding it to any number of digits changes it. *)
Lemma log10_odd_not_decimal (n k : Z) (d : nat) :
  1 < n -> Z.odd n = true ->
  log10 (IZR n) <> (IZR k / IZR (10 ^ Z.of_nat d))%R.
Proof.
  intros Hn Hodd E. unfold log10 in E.
  pose proof ln_10_pos as H10. pose proof (ten_pow_pos d) as Hd.
  set (N := Z.to_nat (10 ^ Z.of_nat d)) in *.
  assert (HN : IZR (10 ^ Z.of_nat d) = INR N).
  { unfold N. rewrite INR_IZR_INZ, Z2Nat.id; [reflexivity|].
    apply Z.pow_nonneg; lia. }
  assert (Hlnn : (0 < ln (IZR n))%R).
  { rewrite <- ln_1. apply ln_increasing; [rlra|]. apply IZR_lt. lia. }
  assert (Hk : 0 < k).
  { apply lt_IZR. apply (Rmult_lt_reg_r (/ IZR (10 ^ Z.of_nat d))).
    - now apply Rinv_0_lt_compat.
    - rewrite Rmult_0_l. fold (IZR k / IZR (10 ^ Z.of_nat d))%R.
      rewrite <- E. apply Rdiv_lt_0_compat; assumption. }
  assert (Hcross : (INR N * ln (IZR n) = INR (Z.to_nat k) * ln 10)%R).
  { rewrite <- HN, INR_IZR_INZ, Z2Nat.id by lia.
    apply (Rmult_eq_reg_r (/ ln 10 * / IZR (10 ^ Z.of_nat d))).
    - replace (IZR (10 ^ Z.of_nat d) * ln (IZR n) *
               (/ ln 10 * / IZR (10 ^ Z.of_nat d)))%R
        with (ln (IZR n) / ln 10)%R by (field; rlra).
      replace (IZR k * ln 10 * (/ ln 10 * / IZR (10 ^ Z.of_nat d)))%R
        with (IZR k / IZR (10 ^ Z.of_nat d))%R by (field; rlra).
      exact E.
    - apply Rmult_integral_contrapositive_currified;
        apply Rinv_neq_0_compat; rlra. }
  rewrite <- (ln_IZR_pow n N), <- (ln_IZR_pow 10 (Z.to_nat k)) in Hcross by lia.
  apply ln_inv in Hcross.
  - apply eq_IZR in Hcross.
    assert (HNpos : 0 < Z.of_nat N).
    { unfold N. rewrite Z2Nat.id by (apply Z.pow_nonneg; lia).
      apply Z.pow_pos_nonneg; lia. }
    apply (f_equal Z.odd) in Hcross.
    rewrite Z.odd_pow, Hodd in Hcross by lia.
    rewrite Z.odd_pow in Hcross by (rewrite Z2Nat.id; lia).
    discriminate Hcross.
  - apply IZR_lt. apply Z.pow_pos_nonneg; lia.
  - apply IZR_lt. apply Z.pow_pos_nonneg; lia.
Qed.

Lemma Q2R_whole (n : Z) : Q2R (n # 1) = IZR n.
Proof. unfold Q2R. simpl. field. Qed.

(* ====================================================================== *)
(** * The log-scaled magnitude, exactly and on binary64                   *)
(* ====================================================================== *)

(** ** Bounds on the logarithm *)

Lemma Rpower_log10 (x : R) : (0 < x)%R -> Rpower 10 (log10 x) = x.
Proof.
  intros Hx. unfold Rpower, log10. pose proof ln_10_pos as H10.
  replace (ln x / ln 10 * ln 10)%R with (ln x) by (field; rlra).
  now apply exp_ln.
Qed.

Lemma ln_le_minus_1 (y : R) : (0 < y)%R -> (ln y <= y - 1)%R.
Proof.
  intros Hy. pose proof (exp_ineq1_le (ln y)) as H.
  rewrite (exp_ln y Hy) in H. rlra.
Qed.

Lemma ln_10_bounds : (2 < ln 10 < 4)%R.
Proof.
  assert (H2 : (2 < exp 1)%R)
    by (pose proof (exp_ineq1 1 ltac:(rlra)); rlra).
  pose proof exp_le_3 as H3. pose proof (exp_pos 1) as Hp.
  assert (E2 : exp 2 = (exp 1 * exp 1)%R)
    by (rewrite <- exp_plus; f_equal; rlra).
  assert (E4 : exp 4 = (exp 2 * exp 2)%R)
    by (rewrite <- exp_plus; f_equal; rlra).
  assert (U : (exp 1 * exp 1 <= 3 * 3)%R)
    by (apply Rmult_le_compat; rlra).
  assert (L : (2 * 2 < exp 1 * exp 1)%R)
    by (apply Rmult_le_0_lt_compat; rlra).
  assert (L4 : (4 * 4 < exp 2 * exp 2)%R)
    by (rewrite E2; apply Rmult_le_0_lt_compat; rlra).
  split.
  - apply exp_lt_inv. rewrite (exp_ln 10) by rlra. rewrite E2. rlra.
  - apply exp_lt_inv. rewrite (exp_ln 10) by rlra. rewrite E4. rlra.
Qed.

(** How far apart the logarithms of two numbers are. *)
Lemma log10_gap_lower (a b : R) :
  (0 < a)%R -> (a < b)%R -> ((b - a) / b / 4 < log10 b - log10 a)%R.
Proof.
  intros Ha Hab. destruct ln_10_bounds as [_ H4]. pose proof ln_10_pos as H0.
  assert (Hb : (0 < b)%R) by rlra.
  assert (Hq : (0 < a / b)%R) by (apply Rdiv_lt_0_compat; rlra).
  pose proof (ln_le_minus_1 (a / b) Hq) as Hln.
  assert (E : ln (a / b) = (ln a - ln b)%R).
  { unfold Rdiv. rewrite ln_mult by (try apply Rinv_0_lt_compat; rlra).
    rewrite ln_Rinv by rlra. rlra. }
  rewrite E in Hln.
  assert (Hd : ((b - a) / b <= ln b - ln a)%R).
  { replace ((b - a) / b)%R with (1 - a / b)%R by (field; rlra). rlra. }
  assert (Hpos : (0 < (b - a) / b)%R) by (apply Rdiv_lt_0_compat; rlra).
  unfold log10.
  replace (ln b / ln 10 - ln a / ln 10)%R with ((ln b - ln a) / ln 10)%R
    by (field; rlra).
  apply Rlt_le_trans with ((b - a) / b / ln 10)%R.
  - unfold Rdiv at 1 3. apply Rmult_lt_compat_l; [exact Hpos|].
    apply Rinv_lt_contravar; rlra.
  - unfold Rdiv at 1 3. apply Rmult_le_compat_r; [|exact Hd].
    apply Rlt_le, Rinv_0_lt_compat, H0.
Qed.

Lemma log10_gap_upper (a b : R) :
  (0 < a)%R -> (a < b)%R -> (log10 b - log10 a < (b - a) / a / 2)%R.
Proof.
  intros Ha Hab. destruct ln_10_bounds as [H2 _]. pose proof ln_10_pos as H0.
  assert (Hb : (0 < b)%R) by rlra.
  assert (Hq : (0 < b / a)%R) by (apply Rdiv_lt_0_compat; rlra).
  pose proof (ln_le_minus_1 (b / a) Hq) as Hln.
  assert (E : ln (b / a) = (ln b - ln a)%R).
  { unfold Rdiv. rewrite ln_mult by (try apply Rinv_0_lt_compat; rlra).
    rewrite ln_Rinv by rlra. rlra. }
  rewrite E in Hln.
  assert (Hd : (ln b - ln a <= (b - a) / a)%R).
  { replace ((b - a) / a)%R with (b / a - 1)%R by (field; rlra). exact Hln. }
  assert (Hpos : (0 < (b - a) / a)%R) by (apply Rdiv_lt_0_compat; rlra).
  unfold log10.
  replace (ln b / ln 10 - ln a / ln 10)%R with ((ln b - ln a) / ln 10)%R
    by (field; rlra).
  apply Rle_lt_trans with ((b - a) / a / ln 10)%R.
  - unfold Rdiv at 1 3. apply Rmult_le_compat_r; [|exact Hd].
    apply Rlt_le, Rinv_0_lt_compat, H0.
  - unfold Rdiv at 1 3. apply Rmult_lt_compat_l; [exact Hpos|].
    apply Rinv_lt_contravar; rlra.
Qed.

Lemma log10_pow10 (n : nat) : log10 (IZR (10 ^ Z.of_nat n)) = INR n.
Proof.
  unfold log10. rewrite ln_IZR_pow by lia. pose proof ln_10_pos.
  field. rlra.
Qed.

(** ** Any accurate implementation keeps the order of the counts *)

Lemma Rabs_bounds (a b : R) : (Rabs a <= b)%R -> (- b <= a <= b)%R.
Proof.
  intros H. pose proof (Rle_abs a) as H1. pose proof (Rle_abs (- a)) as H2.
  rewrite Rabs_Ropp in H2. split; rlra.
Qed.

Lemma accurate_increasing (log10_impl : R -> R) (n1 n2 : Z) :
  accurate log10_impl (/ IZR (2 ^ 37)) (10 ^ 10 + 1) ->
  0 <= n1 -> n1 < n2 -> n2 <= 10 ^ 10 ->
  (log10_impl (IZR n1 + 1) < log10_impl (IZR n2 + 1))%R.
Proof.
  intros Hacc H0 H12 Hmax.
  pose proof (Hacc (n1 + 1) ltac:(lia)) as Ea.
  pose proof (Hacc (n2 + 1) ltac:(lia)) as Eb.
  rewrite plus_IZR in Ea, Eb.
  assert (Ha : (1 <= IZR n1 + 1)%R)
    by (apply IZR_le in H0; rlra).
  assert (Hab : (IZR n1 + 1 <= IZR n2 + 1 - 1)%R).
  { assert (H : n1 + 1 <= n2) by lia. apply IZR_le in H.
    rewrite plus_IZR in H. rlra. }
  assert (Hb : (IZR n2 + 1 <= IZR (10 ^ 10 + 1))%R).
  { assert (H : n2 + 1 <= 10 ^ 10 + 1) by lia. apply IZR_le in H.
    rewrite plus_IZR in H. exact H. }
  set (a := (IZR n1 + 1)%R) in *. set (b := (IZR n2 + 1)%R) in *.
  pose proof (log10_gap_lower a b ltac:(rlra) ltac:(rlra)) as Hgap.
  assert (Hfrac : (/ IZR (10 ^ 10 + 1) <= (b - a) / b)%R).
  { apply Rle_trans with (/ b)%R.
    - apply Rinv_le_contravar; rlra.
    - unfold Rdiv. rewrite <- (Rmult_1_l (/ b)) at 1.
      apply Rmult_le_compat_r; [|rlra].
      apply Rlt_le, Rinv_0_lt_compat. rlra. }
  assert (Heps : (2 * / IZR (2 ^ 37) < / IZR (10 ^ 10 + 1) / 4)%R).
  { change (2 ^ 37) with 137438953472.
    change (10 ^ 10 + 1) with 10000000001. rlra. }
  apply Rabs_bounds in Ea, Eb. rlra.
Qed.

Lemma log_pop_with_whole (log10_impl : R -> R) (p : Q) (n : Z) :
  (p == inject_Z n)%Q ->
  log_pop_with log10_impl p = log10_impl (IZR n + 1)%R.
Proof.
  intros E. unfold log_pop_with. f_equal.
  rewrite Q2R_plus, (Qeq_eqR _ _ E), Q2R_inject_Z.
  f_equal. unfold Q2R. simpl. field.
Qed.

(** C6, as the code has it: a surviving record has a population
    [p > 0]; its log-scaled magnitude is [math.log10 (p + 1)].  In exact
    arithmetic that is the base-10 logarithm of [p + 1], the number to
    which 10 must be raised to give [p + 1], and it is strictly
    increasing in [p].  As computed, with any implementation of
    [math.log10] that is within 2^-37 of the logarithm, the magnitude
    is strictly increasing over the whole populations up to 10^10. *)
Theorem log_pop_log10_increasing
    (census_raw : list (list string)) (df : list County) (c1 c2 : County) :
  load_table census_raw = Ok df -> c1 ∈ df -> c2 ∈ df ->
  (0 < population c1)%Q /\
  log_pop c1 = log_pop_with log10 (population c1) /\
  log_pop c1 = log10 (Q2R (population c1) + 1) /\
  Rpower 10 (log_pop c1) = (Q2R (population c1) + 1)%R /\
  ((population c1 < population c2)%Q -> (log_pop c1 < log_pop c2)%R) /\
  (forall (log10_impl : R -> R) (n1 n2 : Z),
     accurate log10_impl (/ IZR (2 ^ 37)) (10 ^ 10 + 1) ->
     (population c1 == inject_Z n1)%Q -> (population c2 == inject_Z n2)%Q ->
     n1 < n2 <= 10 ^ 10 ->
     (log_pop_with log10_impl (population c1)
      < log_pop_with log10_impl (population c2))%R).
Proof.
  intros Hload H1 H2.
  destruct (county_origin _ _ _ Hload H1)
    as (_ & _ & _ & _ & Hp1 & _ & _ & Hl1 & _).
  destruct (county_origin _ _ _ Hload H2)
    as (_ & _ & _ & _ & Hp2 & _ & _ & Hl2 & _).
  assert (E1 : Q2R (1 # 1) = 1%R) by (unfold Q2R; simpl; field).
  assert (E0 : Q2R 0 = 0%R) by (unfold Q2R; simpl; field).
  assert (Hp1' : (0 < Q2R (population c1))%R)
    by (rewrite <- E0; now apply Qlt_Rlt).
  split; [exact Hp1|]. split; [exact Hl1|].
  rewrite Hl1, Hl2, !Q2R_plus. change (Q2R 1) with (Q2R (1 # 1)).
  rewrite E1. split; [reflexivity|]. split; [|split].
  - apply Rpower_log10. rlra.
  - intros Hlt. apply Qlt_Rlt in Hlt. apply log10_increasing; rlra.
  - intros log10_impl n1 n2 Hacc En1 En2 [H12 Hmax].
    rewrite (log_pop_with_whole _ _ _ En1), (log_pop_with_whole _ _ _ En2).
    apply accurate_increasing; try assumption.
    rewrite En1 in Hp1. change 0%Q with (inject_Z 0) in Hp1.
    rewrite <- Zlt_Qlt in Hp1. lia.
Qed.

(** ** Rounding to binary64 *)

Lemma Rrint_near (x : R) (k : Z) :
  (IZR k <= x < IZR k + 1 / 2)%R -> Rrint x = k.
Proof.
  intros [Hl Hu]. unfold Rrint.
  rewrite (Int_part_unique x k) by (split; rlra).
  destruct (Rlt_dec (x - IZR k) (1 / 2)) as [_|Hn]; [reflexivity|].
  exfalso. apply Hn. rlra.
Qed.

Lemma round_2_49_close (y : R) :
  (Rabs (round_2_49 y - y) <= / IZR (2 ^ 50))%R.
Proof.
  unfold round_2_49.
  assert (Hp : (0 < IZR (2 ^ 49))%R) by (apply IZR_lt; reflexivity).
  pose proof (Rrint_close (y * IZR (2 ^ 49))) as H.
  replace (IZR (Rrint (y * IZR (2 ^ 49))) / IZR (2 ^ 49) - y)%R
    with ((IZR (Rrint (y * IZR (2 ^ 49))) - y * IZR (2 ^ 49))
          * / IZR (2 ^ 49))%R by (field; rlra).
  rewrite Rabs_mult, (Rabs_pos_eq (/ IZR (2 ^ 49)))
    by (apply Rlt_le, Rinv_0_lt_compat, Hp).
  replace (/ IZR (2 ^ 50))%R with (1 / 2 * / IZR (2 ^ 49))%R.
  - apply Rmult_le_compat_r; [|exact H].
    apply Rlt_le, Rinv_0_lt_compat, Hp.
  - change (2 ^ 50) with (2 * 2 ^ 49). rewrite mult_IZR. field. rlra.
Qed.

Lemma round_2_49_accurate (bound : Z) :
  accurate (fun x => round_2_49 (log10 x)) (/ IZR (2 ^ 37)) bound.
Proof.
  intros n _. apply Rle_trans with (/ IZR (2 ^ 50))%R.
  - apply round_2_49_close.
  - apply Rlt_le, Rinv_lt_contravar.
    + apply Rmult_lt_0_compat; apply IZR_lt; reflexivity.
    + apply IZR_lt. reflexivity.
Qed.

Lemma round_2_49_near (y : R) (k : Z) :
  (IZR k <= y < IZR k + / IZR (2 ^ 50))%R -> round_2_49 y = IZR k.
Proof.
  intros [Hl Hu]. unfold round_2_49.
  assert (Hp : (0 < IZR (2 ^ 49))%R) by (apply IZR_lt; reflexivity).
  rewrite (Rrint_near _ (k * 2 ^ 49)).
  - rewrite mult_IZR. field. rlra.
  - rewrite mult_IZR. split.
    + apply Rmult_le_compat_r; rlra.
    + apply Rlt_le_trans with ((IZR k + / IZR (2 ^ 50)) * IZR (2 ^ 49))%R.
      * apply Rmult_lt_compat_r; rlra.
      * change (2 ^ 50) with (2 * 2 ^ 49). rewrite mult_IZR.
        apply Req_le. field. rlra.
Qed.

Lemma log_pop_log10_increasing_witness :
  (0 < population san_diego)%Q /\
  log_pop san_diego = log_pop_with log10 (population san_diego) /\
  log_pop san_diego = log10 (Q2R (population san_diego) + 1) /\
  Rpower 10 (log_pop san_diego) = (Q2R (population san_diego) + 1)%R /\
  (log_pop san_diego < log_pop los_angeles)%R /\
  (log_pop_with (fun x => round_2_49 (log10 x)) (population san_diego)
   < log_pop_with (fun x => round_2_49 (log10 x)) (population los_angeles))%R.
Proof.
  destruct (log_pop_log10_increasing la_sd_census la_sd_df
              san_diego los_angeles)
    as (Hpos & Hwith & Hlog & Hpow & Hlt & Himpl).
  - reflexivity.
  - unfold la_sd_df. apply list_elem_of_In. simpl. auto.
  - unfold la_sd_df. apply list_elem_of_In. simpl. auto.
  - split; [exact Hpos|]. split; [exact Hwith|]. split; [exact Hlog|].
    split; [exact Hpow|]. split; [apply Hlt; reflexivity|].
    apply (Himpl _ 3000000 10000000).
    + apply round_2_49_accurate.
    + reflexivity.
    + reflexivity.
    + split; [reflexivity | discriminate].
Defined.

(** ** Near 10^15 the order is lost *)

Lemma crowded_load : load_table crowded_census = Ok [crowded; more_crowded].
Proof. reflexivity. Qed.

(** A strictly increasing map into the multiples of 2^-49 climbs by a
    step at least for every unit of its argument. *)
Lemma grid_climb (v : Z -> R) (a j : Z) :
  0 <= j ->
  (forall n, a <= n <= a + j -> binary64_from_8_to_16 (v n)) ->
  (forall n m, a <= n -> n < m -> m <= a + j -> (v n < v m)%R) ->
  exists k : Z, v (a + j) = (IZR k / IZR (2 ^ 49))%R /\ 8 * 2 ^ 49 + j <= k.
Proof.
  intros Hj. pattern j. apply natlike_ind; [| |exact Hj]; clear j Hj.
  - intros Hgrid _. destruct (Hgrid a ltac:(lia)) as ([H8 _] & k & Ek).
    exists k. rewrite Z.add_0_r. split; [exact Ek|].
    rewrite Ek in H8.
    assert (Hp : (0 < IZR (2 ^ 49))%R) by (apply IZR_lt; reflexivity).
    assert (H : (IZR (8 * 2 ^ 49) <= IZR k)%R).
    { rewrite mult_IZR. apply Rmult_le_reg_r with (/ IZR (2 ^ 49))%R.
      - now apply Rinv_0_lt_compat.
      - rewrite Rmult_assoc, Rinv_r by rlra. unfold Rdiv in H8. rlra. }
    apply le_IZR in H. lia.
  - intros j Hj IH Hgrid Hinc.
    destruct IH as (k & Ek & Hk).
    + intros n Hn. apply Hgrid. lia.
    + intros n m Hn Hnm Hm. apply Hinc; lia.
    + destruct (Hgrid (a + Z.succ j) ltac:(lia)) as (_ & k' & Ek').
      exists k'. split; [exact Ek'|].
      pose proof (Hinc (a + j) (a + Z.succ j) ltac:(lia) ltac:(lia)
                    ltac:(lia)) as Hlt.
      rewrite Ek, Ek' in Hlt.
      assert (Hp : (0 < IZR (2 ^ 49))%R) by (apply IZR_lt; reflexivity).
      assert (H : (IZR k < IZR k')%R).
      { apply Rmult_lt_reg_r with (/ IZR (2 ^ 49))%R.
        - now apply Rinv_0_lt_compat.
        - exact Hlt. }
      apply lt_IZR in H. lia.
Qed.

(** C6, as the specification states it, fails on the numbers the script
    computes with.  The counts 10^15 - 1 and 10^15 both survive the
    cleaning; their exact magnitudes differ, but by less than half the
    distance between two binary64 numbers near 15, so the binary64
    number nearest to either is 15.  Whatever the implementation: no
    function that gives the counts from 10^15 - 1 to 10^15 + 2^52,
    which are all binary64 numbers, a binary64 magnitude between 8 and
    16 is strictly increasing, there being more counts than
    magnitudes. *)
Lemma log_pop_not_increasing_on_binary64 :
  load_table crowded_census = Ok [crowded; more_crowded] /\
  (0 < population crowded)%Q /\
  (population crowded < population more_crowded)%Q /\
  (log_pop crowded < log_pop more_crowded)%R /\
  round_2_49 (log_pop crowded) = 15%R /\
  round_2_49 (log_pop more_crowded) = 15%R /\
  ~ (exists log10_impl : R -> R,
       (forall n : Z,
          10 ^ 15 - 1 <= n <= 10 ^ 15 + 2 ^ 52 ->
          binary64_from_8_to_16 (log_pop_with log10_impl (inject_Z n))) /\
       (forall n m : Z,
          10 ^ 15 - 1 <= n -> n < m -> m <= 10 ^ 15 + 2 ^ 52 ->
          (log_pop_with log10_impl (inject_Z n)
           < log_pop_with log10_impl (inject_Z m))%R)).
Proof.
  assert (Ec : log_pop crowded = 15%R).
  { change (log_pop crowded) with (log10 (Q2R (1000000000000000 # 1))).
    rewrite Q2R_whole. change 1000000000000000 with (10 ^ Z.of_nat 15).
    rewrite log10_pow10. simpl. rlra. }
  assert (Em : (15 < log_pop more_crowded < 15 + / IZR (2 ^ 50))%R).
  { change (log_pop more_crowded) with (log10 (Q2R (1000000000000001 # 1))).
    rewrite Q2R_whole. rewrite <- Ec.
    change (log_pop crowded) with (log10 (Q2R (1000000000000000 # 1))).
    rewrite Q2R_whole.
    pose proof (log10_gap_upper (IZR 1000000000000000)
                  (IZR 1000000000000001) ltac:(rlra) ltac:(rlra)) as Hu.
    pose proof (log10_increasing (IZR 1000000000000000)
                  (IZR 1000000000000001) ltac:(rlra) ltac:(rlra)) as Hl.
    split; [rlra|].
    assert (Hs : ((IZR 1000000000000001 - IZR 1000000000000000)
                  / IZR 1000000000000000 / 2 < / IZR (2 ^ 50))%R).
    { change (2 ^ 50) with 1125899906842624. rlra. }
    rlra. }
  split; [exact crowded_load|]. split; [reflexivity|]. split; [reflexivity|].
  split; [rewrite Ec; apply Em|].
  split; [rewrite Ec; apply (round_2_49_near 15 15); split;
          [rlra | pose proof (Rinv_0_lt_compat (IZR (2 ^ 50))
                                ltac:(apply IZR_lt; reflexivity)); rlra]|].
  split; [apply (round_2_49_near _ 15); split; [rlra | apply Em]|].
  intros (impl & Hgrid & Hinc).
  destruct (grid_climb (fun n => log_pop_with impl (inject_Z n))
              (10 ^ 15 - 1) (2 ^ 52 + 1) ltac:(lia)) as (k & Ek & Hk).
  - intros n Hn. apply Hgrid. lia.
  - intros n m Hn Hnm Hm. apply Hinc; lia.
  - destruct (Hgrid (10 ^ 15 - 1 + (2 ^ 52 + 1)) ltac:(lia))
      as ([_ H16] & _).
    cbv beta in Ek. rewrite Ek in H16.
    assert (Hp : (0 < IZR (2 ^ 49))%R) by (apply IZR_lt; reflexivity).
    assert (H : (IZR k <= IZR (16 * 2 ^ 49))%R).
    { rewrite mult_IZR. apply Rmult_le_reg_r with (/ IZR (2 ^ 49))%R.
      - now apply Rinv_0_lt_compat.
      - rewrite Rmult_assoc, Rinv_r by rlra. unfold Rdiv in H16. rlra. }
    apply le_IZR in H. lia.
Qed.

(* ====================================================================== *)
(** * Precision of the two artifacts                                      *)
(* ====================================================================== *)

Lemma loving_log_pop_changes :
  Rround (log_pop loving) 4 <> log_pop loving.
Proof.
  change (log_pop loving) with (log10 (Q2R (65 # 1))).
  rewrite Q2R_whole. unfold Rround. intros E. symmetry in E.
  now apply log10_odd_not_decimal in E.
Qed.

Lemma loving_quantile_changes :
  Q2R (round (quantile loving) 4) <> Q2R (quantile loving).
Proof.
  intros E. apply eqR_Qeq in E. lazy in E. discriminate E.
Qed.

(** C10: for every included county the geometry artifact stores the
    log-scaled magnitude and the rank rounded to 4 decimal places (a
    multiple of 0.0001 within 0.00005 of the computed value), the flat
    table stores them as computed, and the two artifacts can disagree on
    both fields for the same identifier. *)
Theorem geojson_rounds_csv_does_not :
  (forall census_raw counties_geojson df doc table,
     load_table census_raw = Ok df ->
     merged counties_geojson df = Ok doc ->
     df_out census_raw df = Ok table ->
     (forall f, f ∈ features doc ->
        exists c x q,
          c ∈ df /\ property f "fips" = JStr (FIPS c) /\
          property f "log_pop" = JFloat x /\
          x = Rround (log_pop c) 4 /\ rounded_to 4 x (log_pop c) /\
          property f "quantile" = JFloat q /\
          q = Q2R (round (quantile c) 4) /\
          rounded_to 4 q (Q2R (quantile c))) /\
     Forall2
       (fun c line =>
          csv_FIPS line = FIPS c /\ csv_log_pop line = log_pop c /\
          csv_quantile line = quantile c) df table) /\
  (exists census_raw counties_geojson df doc table f line,
     load_table census_raw = Ok df /\
     merged counties_geojson df = Ok doc /\
     df_out census_raw df = Ok table /\
     f ∈ features doc /\ line ∈ table /\
     property f "fips" = JStr (csv_FIPS line) /\
     property f "log_pop" <> JFloat (csv_log_pop line) /\
     property f "quantile" <> JFloat (Q2R (csv_quantile line))).
Proof.
  split.
  - intros census_raw counties_geojson df doc table Hload Hm Hout. split.
    + intros f Hf.
      destruct (feature_entry _ _ _ _ Hm Hf)
        as (c & Hc & _ & H1 & _ & _ & H4 & H5 & _).
      exists c, (Rround (log_pop c) 4), (Q2R (round (quantile c) 4)).
      repeat split; auto.
      * unfold Rround. eauto.
      * apply Rround_close.
      * rewrite Rround_Q2R. unfold Rround. eauto.
      * rewrite Rround_Q2R. apply Rround_close.
    + apply df_out_spec in Hout. eapply Forall2_impl; [exact Hout|].
      intros c line (H1 & _ & _ & _ & H5 & H6). auto.
  - exists small_census, small_counties, small_df, small_doc, small_table,
      (attach "48301" "0500000US48301" loving "Loving County, Texas"),
      (csv_line loving "Loving County, Texas").
    split; [reflexivity|]. split; [reflexivity|]. split; [reflexivity|].
    split; [apply list_elem_of_here|]. split; [apply list_elem_of_here|].
    split; [reflexivity|]. split.
    + intros [= E]. now apply loving_log_pop_changes.
    + intros [= E]. now apply loving_quantile_changes.
Qed.

Lemma geojson_rounds_csv_does_not_witness :
  (forall f, f ∈ features small_doc ->
     exists c x q,
       c ∈ small_df /\ property f "fips" = JStr (FIPS c) /\
       property f "log_pop" = JFloat x /\
       x = Rround (log_pop c) 4 /\ rounded_to 4 x (log_pop c) /\
       property f "quantile" = JFloat q /\
       q = Q2R (round (quantile c) 4) /\
       rounded_to 4 q (Q2R (quantile c))) /\
  Forall2
    (fun c line =>
       csv_FIPS line = FIPS c /\ csv_log_pop line = log_pop c /\
       csv_quantile line = quantile c) small_df small_table.
Proof.
  apply (proj1 geojson_rounds_csv_does_not small_census small_counties
           small_df small_doc small_table); reflexivity.
Defined.

(* ====================================================================== *)
(** * The script as a whole                                               *)
(* ====================================================================== *)

Lemma main_Ok (net : Upstream) (w w' : World) :
  main net w = (Ok tt, w') ->
  exists g t df doc table,
    Requests.get_json (counties net) = Ok g /\
    Requests.get_json (census net) = Ok t /\
    load_table t = Ok df /\ merged g df = Ok doc /\
    df_out t df = Ok table /\
    (geojson_path ∉ locked w) /\ (csv_path ∉ locked w) /\
    w' = written w doc table.
Proof.
  unfold main, mbind, IO_bind, lift, write. intros H.
  destruct (Requests.get_json (counties net)) as [g|]; [|discriminate].
  destruct (Requests.get_json (census net)) as [t|]; [|discriminate].
  destruct (load_table t) as [df|] eqn:Hl; [|discriminate].
  destruct (merged g df) as [doc|] eqn:Hm; [|discriminate].
  destruct (decide (geojson_path ∈ locked w)) as [|Hg]; [discriminate|].
  destruct (df_out t df) as [table|] eqn:Ho; [|discriminate].
  simpl in H. destruct (decide (csv_path ∈ locked w)) as [|Hc]; [discriminate|].
  injection H as <-. exists g, t, df, doc, table. repeat split; auto.
Qed.

Lemma main_run (net : Upstream) (w : World) g t df doc table :
  Requests.get_json (counties net) = Ok g ->
  Requests.get_json (census net) = Ok t ->
  load_table t = Ok df -> merged g df = Ok doc -> df_out t df = Ok table ->
  geojson_path ∉ locked w -> csv_path ∉ locked w ->
  main net w = (Ok tt, written w doc table).
Proof.
  intros Hg Ht Hl Hm Ho Hgp Hcp.
  unfold main, mbind, IO_bind, lift, write.
  rewrite Hg, Ht, Hl, Hm. rewrite decide_False by exact Hgp.
  rewrite Ho. simpl. rewrite decide_False by exact Hcp. reflexivity.
Qed.

Lemma written_files (w : World) (doc : GeoJSON) (table : list CsvRow) :
  files (written w doc table) !! geojson_path = Some (GeoJSONFile doc) /\
  files (written w doc table) !! csv_path = Some (CSVFile table).
Proof.
  unfold written. simpl. split.
  - rewrite lookup_insert_ne by discriminate. apply lookup_insert_eq.
  - apply lookup_insert_eq.
Qed.

Lemma written_again (w : World) (doc : GeoJSON) (table : list CsvRow) :
  written (written w doc table) doc table = written w doc table.
Proof.
  unfold written. simpl. f_equal. apply map_eq. intros k.
  destruct (decide (k = csv_path)) as [->|Hc].
  - now rewrite !lookup_insert_eq.
  - destruct (decide (k = geojson_path)) as [->|Hg].
    + repeat (rewrite (lookup_insert_ne _ csv_path) by congruence).
      now rewrite !lookup_insert_eq.
    + now repeat (rewrite lookup_insert_ne by congruence).
Qed.

Lemma fetch_fails_raises {A} (o : Requests.Outcome A) :
  fetch_fails o -> exists e, Requests.get_json o = Raise e.
Proof.
  intros [-> | (status & json & -> & Hs)]; simpl; [eauto|].
  unfold Requests.raise_for_status.
  assert (E : (400 <=? status) && (status <? 600) = true)
    by (apply andb_true_iff; split; [apply Z.leb_le | apply Z.ltb_lt]; lia).
  rewrite E. simpl. eauto.
Qed.

(** C8, as the code has it: when either download fails, by a network
    error or by an error status from 400 to 599, which are the statuses
    [raise_for_status] rejects, the script raises with the file system
    as it found it: no artifact is written, neither the first nor the
    second. *)
Theorem fetch_failure_writes_nothing (net : Upstream) (w : World) :
  fetch_fails (counties net) \/ fetch_fails (census net) ->
  exists e, main net w = (Raise e, w).
Proof.
  intros [Hf|Hf]; apply fetch_fails_raises in Hf as [e He];
    unfold main, mbind, IO_bind, lift.
  - rewrite He. eauto.
  - destruct (Requests.get_json (counties net)) as [g|e']; [|eauto].
    rewrite He. eauto.
Qed.

Lemma fetch_failure_writes_nothing_witness :
  exists e,
    main {| counties := Requests.Response 200 (Some la_sd_counties);
            census := Requests.Response 503 None |} empty_world
    = (Raise e, empty_world).
Proof.
  apply fetch_failure_writes_nothing. right. right.
  exists 503, None. split; [reflexivity | lia].
Defined.

(** C8, as the specification states it, fails: a status that is not a
    success status need not stop the script.  [raise_for_status] lets
    every status outside 400..599 pass, so an answer with the status 300
    and a collection as its body is processed like a success and both
    artifacts are written. *)
Lemma non_success_status_writes_both :
  non_success (counties multiple_choices) /\
  Requests.raise_for_status 300 = Ok tt /\
  main multiple_choices empty_world
  = (Ok tt, written empty_world la_sd_doc la_sd_table) /\
  files (written empty_world la_sd_doc la_sd_table) !! geojson_path
  = Some (GeoJSONFile la_sd_doc) /\
  files (written empty_world la_sd_doc la_sd_table) !! csv_path
  = Some (CSVFile la_sd_table) /\
  ~ (forall (net : Upstream) (w : World),
       non_success (counties net) \/ non_success (census net) ->
       exists e, main net w = (Raise e, w)).
Proof.
  assert (Hn : non_success (counties multiple_choices)).
  { right. exists 300, (Some la_sd_counties). split; [reflexivity | lia]. }
  assert (Hrun : main multiple_choices empty_world
                 = (Ok tt, written empty_world la_sd_doc la_sd_table)).
  { apply (main_run _ _ la_sd_counties la_sd_census la_sd_df);
      try reflexivity; apply not_elem_of_empty. }
  split; [exact Hn|]. split; [reflexivity|]. split; [exact Hrun|].
  destruct (written_files empty_world la_sd_doc la_sd_table) as [Hg Hc].
  split; [exact Hg|]. split; [exact Hc|].
  intros H. destruct (H multiple_choices empty_world (or_introl Hn)) as [e He].
  rewrite Hrun in He. discriminate He.
Qed.

Lemma la_sd_run :
  main (answers la_sd_counties la_sd_census) empty_world
  = (Ok tt, written empty_world la_sd_doc la_sd_table).
Proof.
  apply (main_run _ _ la_sd_counties la_sd_census la_sd_df);
    try reflexivity; apply not_elem_of_empty.
Qed.

(** Tied populations get the same derived fields, whatever their order. *)
Lemma ties_agree (census_raw : list (list string)) (df : list County)
    (c1 c2 : County) :
  load_table census_raw = Ok df -> c1 ∈ df -> c2 ∈ df ->
  (population c1 == population c2)%Q ->
  log_pop c1 = log_pop c2 /\ quantile c1 = quantile c2 /\
  fill_color c1 = fill_color c2.
Proof.
  intros Hload H1 H2 E.
  destruct (county_origin _ _ _ Hload H1)
    as (_ & _ & _ & _ & _ & _ & _ & Hl1 & _ & Hq1 & Hc1).
  destruct (county_origin _ _ _ Hload H2)
    as (_ & _ & _ & _ & _ & _ & _ & Hl2 & _ & Hq2 & Hc2).
  assert (Hq : quantile c1 = quantile c2)
    by (rewrite Hq1, Hq2; now apply rank_pct_comp).
  repeat split.
  - rewrite Hl1, Hl2. f_equal. apply Qeq_eqR. now rewrite E.
  - exact Hq.
  - now rewrite Hc1, Hc2, Hq.
Qed.

(** C9: two runs on the same two answers write the same two artifacts,
    whatever the file system held before, so every identifier has the
    same log-scaled magnitude, rank and colour in both; running again
    over the result changes nothing; and records with tied populations
    get the same derived fields. *)
Theorem rerun_writes_same_artifacts
    (net : Upstream) (w1 w2 w1' w2' : World) :
  main net w1 = (Ok tt, w1') -> main net w2 = (Ok tt, w2') ->
  (exists doc table,
     files w1' !! geojson_path = Some (GeoJSONFile doc) /\
     files w2' !! geojson_path = Some (GeoJSONFile doc) /\
     files w1' !! csv_path = Some (CSVFile table) /\
     files w2' !! csv_path = Some (CSVFile table)) /\
  main net w1' = (Ok tt, w1') /\
  (forall census_raw df c1 c2,
     load_table census_raw = Ok df -> c1 ∈ df -> c2 ∈ df ->
     (population c1 == population c2)%Q ->
     log_pop c1 = log_pop c2 /\ quantile c1 = quantile c2 /\
     fill_color c1 = fill_color c2).
Proof.
  intros H1 H2.
  apply main_Ok in H1
    as (g & t & df & doc & table & Hg & Ht & Hl & Hm & Ho & Hgp & Hcp & ->).
  apply main_Ok in H2
    as (g' & t' & df' & doc' & table' & Hg' & Ht' & Hl' & Hm' & Ho' & _ & _ & ->).
  assert (g' = g) by congruence. subst g'.
  assert (t' = t) by congruence. subst t'.
  assert (df' = df) by congruence. subst df'.
  assert (doc' = doc) by congruence. subst doc'.
  assert (table' = table) by congruence. subst table'.
  split; [|split].
  - exists doc, table.
    destruct (written_files w1 doc table) as [-> ->].
    destruct (written_files w2 doc table) as [-> ->]. auto.
  - rewrite <- (written_again w1 doc table) at 2.
    now apply (main_run net _ g t df).
  - apply ties_agree.
Qed.

Lemma rerun_writes_same_artifacts_witness :
  (exists doc table,
     files (written empty_world la_sd_doc la_sd_table) !! geojson_path
       = Some (GeoJSONFile doc) /\
     files (written (written empty_world la_sd_doc la_sd_table)
              la_sd_doc la_sd_table) !! geojson_path
       = Some (GeoJSONFile doc) /\
     files (written empty_world la_sd_doc la_sd_table) !! csv_path
       = Some (CSVFile table) /\
     files (written (written empty_world la_sd_doc la_sd_table)
              la_sd_doc la_sd_table) !! csv_path
       = Some (CSVFile table)) /\
  main (answers la_sd_counties la_sd_census)
    (written empty_world la_sd_doc la_sd_table)
  = (Ok tt, written empty_world la_sd_doc la_sd_table) /\
  (forall census_raw df c1 c2,
     load_table census_raw = Ok df -> c1 ∈ df -> c2 ∈ df ->
     (population c1 == population c2)%Q ->
     log_pop c1 = log_pop c2 /\ quantile c1 = quantile c2 /\
     fill_color c1 = fill_color c2).
Proof.
  apply (rerun_writes_same_artifacts (answers la_sd_counties la_sd_census)
           empty_world (written empty_world la_sd_doc la_sd_table)).
  - apply la_sd_run.
  - apply (main_run _ _ la_sd_counties la_sd_census la_sd_df);
      try reflexivity; apply not_elem_of_empty.
Defined.

(* ====================================================================== *)
(** * Los Angeles and San Diego                                           *)
(* ====================================================================== *)

Lemma la_sd_magnitudes :
  (Rround (log_pop san_diego) 4 < Rround (log_pop los_angeles) 4)%R /\
  (log_pop san_diego < log_pop los_angeles)%R.
Proof.
  change (log_pop san_diego) with (log10 (Q2R (3000001 # 1))).
  change (log_pop los_angeles) with (log10 (Q2R (10000001 # 1))).
  rewrite !Q2R_whole. split.
  - apply Rle_lt_trans with (IZR 65000 / IZR (10 ^ Z.of_nat 4))%R.
    + apply Rround_le.
      assert (E : (IZR 13 / IZR 2 = IZR 65000 / IZR (10 ^ Z.of_nat 4))%R)
        by (change (10 ^ Z.of_nat 4) with 10000; rlra).
      rewrite <- E.
      apply log10_upper; [lia | lia | lia | vm_compute; discriminate].
    + apply Rlt_le_trans with (IZR 70000 / IZR (10 ^ Z.of_nat 4))%R.
      * change (10 ^ Z.of_nat 4) with 10000. rlra.
      * apply Rround_ge.
        assert (E : (IZR 7 / IZR 1 = IZR 70000 / IZR (10 ^ Z.of_nat 4))%R)
          by (change (10 ^ Z.of_nat 4) with 10000; rlra).
        rewrite <- E.
        apply log10_lower; [lia | lia | lia | vm_compute; discriminate].
  - apply log10_increasing; [rlra|]. apply IZR_lt. lia.
Qed.

(** C7: for the boundary collection with the counties 06037 and 06073
    and the statistics 06037 -> 10,000,000 and 06073 -> 3,000,000 the
    script writes exactly these two identifiers, and 06037 has the
    strictly higher rank, the strictly higher log-scaled magnitude and
    the colour with the strictly larger red channel. *)
Theorem la_sd_scenario :
  main (answers la_sd_counties la_sd_census) empty_world
  = (Ok tt, written empty_world la_sd_doc la_sd_table) /\
  (fun f => property f "fips") <$> features la_sd_doc
  = [JStr "06037"; JStr "06073"] /\
  csv_FIPS <$> la_sd_table = ["06037"; "06073"]%string /\
  exists la sd,
    features la_sd_doc = [la; sd] /\
    (exists qa qs,
       property la "quantile" = JFloat (Q2R qa) /\
       property sd "quantile" = JFloat (Q2R qs) /\ (qs < qa)%Q) /\
    (exists xa xs,
       property la "log_pop" = JFloat xa /\
       property sd "log_pop" = JFloat xs /\ (xs < xa)%R) /\
    (exists ra rs ca cs,
       property la "fill_color" = JArr (JInt ra :: ca) /\
       property sd "fill_color" = JArr (JInt rs :: cs) /\ rs < ra) /\
    property la "fill_color" = JArr (JInt <$> [255; 70; 0; 200]) /\
    property sd "fill_color" = JArr (JInt <$> [130; 255; 155; 200]) /\
    (quantile san_diego < quantile los_angeles)%Q /\
    (log_pop san_diego < log_pop los_angeles)%R /\
    Binary64.population_color 1 = Some [255; 70; 0; 200] /\
    Binary64.population_color 0.5 = Some [130; 255; 155; 200].
Proof.
  split; [apply la_sd_run|]. split; [reflexivity|]. split; [reflexivity|].
  eexists _, _. split; [reflexivity|].
  destruct la_sd_magnitudes as [Hround Hlog].
  split; [|split; [|split; [|split; [|split; [|split; [|split; [|split]]]]]]].
  - exists (round (quantile los_angeles) 4), (round (quantile san_diego) 4).
    split; [reflexivity|]. split; [reflexivity|]. lazy. reflexivity.
  - exists (Rround (log_pop los_angeles) 4), (Rround (log_pop san_diego) 4).
    split; [reflexivity|]. split; [reflexivity|]. exact Hround.
  - exists 255, 130, (JInt <$> [70; 0; 200]), (JInt <$> [255; 155; 200]).
    split; [reflexivity|]. split; [reflexivity|]. lia.
  - reflexivity.
  - reflexivity.
  - lazy. reflexivity.
  - exact Hlog.
  - vm_compute. reflexivity.
  - vm_compute. reflexivity.
Qed.
(* ====================================================================== *)
(** * The identifier of a polygon                                         *)
(* ====================================================================== *)

Lemma string_of_list_ascii_app (a b : list ascii) :
  string_of_list_ascii (a ++ b)
  = (string_of_list_ascii a ++ string_of_list_ascii b)%string.
Proof. induction a as [|c a IH]; simpl; [reflexivity | now rewrite IH]. Qed.

Lemma length_string_of_list_ascii (l : list ascii) :
  String.length (string_of_list_ascii l) = length l.
Proof. induction l as [|c l IH]; simpl; [reflexivity | now rewrite IH]. Qed.

Lemma length_list_ascii_of_string (s : string) :
  length (list_ascii_of_string s) = String.length s.
Proof. induction s as [|c s IH]; simpl; [reflexivity | now rewrite IH]. Qed.

(** [s[-n:]] is the end of [s], of length [min n (len s)]. *)
Lemma suffix_spec (n : nat) (s : string) :
  exists p, s = (p ++ suffix n s)%string /\
            String.length (suffix n s) = Nat.min n (String.length s).
Proof.
  unfold suffix. set (l := list_ascii_of_string s).
  exists (string_of_list_ascii (take (length l - n) l)). split.
  - rewrite <- string_of_list_ascii_app, take_drop.
    unfold l. now rewrite string_of_list_ascii_of_string.
  - rewrite length_string_of_list_ascii, length_drop.
    unfold l. rewrite length_list_ascii_of_string. lia.
Qed.

(** X1: a polygon without a usable [id] is identified by the end of its
    [GEO_ID]: the last five characters, or all of it when it is shorter. *)
Theorem fips_from_geo_id (feature : Feature.t) (props : gmap string JValue)
    (geo_id : string) :
  truthy (default JNull (Feature.id feature)) = false ->
  Feature.properties feature = Some props ->
  props !! "GEO_ID"%string = Some (JStr geo_id) ->
  exists prefix fips,
    feature_fips feature = Ok (JStr fips) /\
    geo_id = (prefix ++ fips)%string /\
    String.length fips = Nat.min 5 (String.length geo_id).
Proof.
  intros Hid Hp Hg. unfold feature_fips. rewrite Hid, Hp, Hg.
  destruct (suffix_spec 5 geo_id) as (p & Hs & Hl).
  exists p, (suffix 5 geo_id). auto.
Qed.

Lemma fips_from_geo_id_witness :
  exists prefix fips,
    feature_fips (anonymous_polygon "0500000US06037") = Ok (JStr fips) /\
    "0500000US06037"%string = (prefix ++ fips)%string /\
    String.length fips = Nat.min 5 (String.length "0500000US06037").
Proof.
  apply (fips_from_geo_id (anonymous_polygon "0500000US06037")
           {[ "GEO_ID"%string := JStr "0500000US06037" ]}); reflexivity.
Defined.

(* ====================================================================== *)
(** * The lookup table                                                    *)
(* ====================================================================== *)

Lemma build_lookup_app (l1 l2 : list County) :
  forall m, build_lookup m (l1 ++ l2)
            = build_lookup m l1 ≫= (fun m' => build_lookup m' l2).
Proof.
  induction l1 as [|c l1 IH]; intros m; simpl; [reflexivity|].
  destruct (info_of c) as [i|e]; simpl; [apply IH | reflexivity].
Qed.

(** Rows with other identifiers leave an entry alone. *)
Lemma build_lookup_other (df : list County) (key : string) :
  forall m vl, build_lookup m df = Ok vl ->
               (forall c, c ∈ df -> FIPS c <> key) -> vl !! key = m !! key.
Proof.
  induction df as [|c df IH]; intros m vl Hb Hne; simpl in Hb.
  - now injection Hb as <-.
  - apply bind_Ok in Hb as (i & Hi & Hb).
    rewrite (IH _ _ Hb) by (intros c' Hc'; apply Hne; now right).
    apply lookup_insert_ne. apply Hne. now left.
Qed.

Lemma joined_feature (vl : gmap string Info.t) (fs out : list Feature.t)
    (f : Feature.t) :
  matched_features vl fs = Ok out -> f ∈ out ->
  exists f0, f0 ∈ fs /\ joined vl f0 f.
Proof.
  intros Hm Hf. apply matched_features_joined in Hm.
  destruct (Forall2_elem_of_r _ _ _ _ Hm Hf) as (f0 & Hf0 & Hj).
  exists f0. split; [|exact Hj].
  apply list_elem_of_In in Hf0. apply filter_In in Hf0 as [Hf0 _].
  now apply list_elem_of_In.
Qed.

(** X2: when the table has several rows for one identifier, the lookup holds
    the last of them, and that is the row whose attributes every written
    feature with this identifier carries. *)
Theorem last_row_wins (counties_geojson doc : GeoJSON)
    (df1 df2 : list County) (c : County) :
  merged counties_geojson (df1 ++ c :: df2) = Ok doc ->
  (forall c', c' ∈ df2 -> FIPS c' <> FIPS c) ->
  (exists vl name,
     build_lookup ∅ (df1 ++ c :: df2) = Ok vl /\
     NAME (source c) = Some name /\
     vl !! FIPS c = Some (info_row c name)) /\
  (forall f, f ∈ features doc -> feature_fips f = Ok (JStr (FIPS c)) ->
             carries f c).
Proof.
  intros Hm Hlast. unfold merged in Hm.
  apply bind_Ok in Hm as (vl & Hb & Hm).
  apply bind_Ok in Hm as (out & Hout & [= <-]). simpl.
  pose proof Hb as Hb'. rewrite build_lookup_app in Hb'.
  apply bind_Ok in Hb' as (m1 & _ & Hb'). simpl in Hb'.
  apply bind_Ok in Hb' as (i & Hi & Hb').
  apply info_of_Ok in Hi as (name & Hn & ->).
  assert (Hl : vl !! FIPS c = Some (info_row c name)).
  { rewrite (build_lookup_other df2 (FIPS c) _ vl Hb' Hlast).
    apply lookup_insert_eq. }
  split; [exists vl, name; auto|].
  intros f Hf Hfips.
  destruct (joined_feature vl _ _ f Hout Hf)
    as (f0 & _ & props & key & i & Hfips0 & Hlk & Hp & ->).
  assert (Hkey : key = FIPS c).
  { unfold feature_fips in Hfips, Hfips0. simpl in Hfips.
    rewrite Hp in Hfips0. rewrite inject_GEO_ID in Hfips.
    rewrite Hfips0 in Hfips. now injection Hfips. }
  subst key. rewrite Hl in Hlk. injection Hlk as <-.
  pose proof (property_inject (Feature.id f0) props (FIPS c)
                (info_row c name) (Feature.others f0)) as Hprop.
  cbv zeta in Hprop. simpl in Hprop.
  destruct Hprop as (H1 & H2 & H3 & H4 & H5 & H6 & H7).
  unfold carries. rewrite H1, H2, H3, H4, H5, H6, H7, Hn. repeat split.
Qed.

Lemma last_row_wins_witness :
  (exists vl name,
     build_lookup ∅ ([twice_first] ++ twice_last :: []) = Ok vl /\
     NAME (source twice_last) = Some name /\
     vl !! FIPS twice_last = Some (info_row twice_last name)) /\
  (forall f, f ∈ features twice_doc ->
             feature_fips f = Ok (JStr (FIPS twice_last)) ->
             carries f twice_last).
Proof.
  apply (last_row_wins twice_counties twice_doc [twice_first] []).
  - reflexivity.
  - intros c' Hc'. now apply elem_of_nil in Hc'.
Defined.

Lemma twice_load : load_table twice_census = Ok [twice_first; twice_last].
Proof. reflexivity. Qed.

(* ====================================================================== *)
(** * What the join keeps and what it drops                               *)
(* ====================================================================== *)

Lemma inject_other (props : gmap string JValue) (fips key : string)
    (i : Info.t) :
  key ∉ injected_keys -> inject props fips i !! key = props !! key.
Proof.
  intros Hk. unfold injected_keys in Hk.
  repeat (apply not_elem_of_cons in Hk as [? Hk]).
  unfold inject. now rewrite !lookup_insert_ne by congruence.
Qed.

(** X3: the join changes nothing but the seven attributes: a written feature
    has the [id] and the other members (geometry, type) of its polygon,
    every property of the polygon under another key is kept with its
    value, and the members of the collection besides [features] are
    kept. *)
Theorem join_keeps_the_rest (counties_geojson doc : GeoJSON)
    (df : list County) :
  merged counties_geojson df = Ok doc ->
  foreign_members doc = foreign_members counties_geojson /\
  Forall2
    (fun f0 f =>
       Feature.id f = Feature.id f0 /\
       Feature.others f = Feature.others f0 /\
       forall key, key ∉ injected_keys ->
         Feature.properties f ≫= (fun props => props !! key)
         = Feature.properties f0 ≫= (fun props => props !! key))
    (List.filter (has_entry df) (features counties_geojson)) (features doc).
Proof.
  intros Hm. apply merged_spec in Hm as [Hfm HF]. split; [exact Hfm|].
  eapply Forall2_impl; [exact HF|].
  intros f0 f [(Hid & Ho & props & key & i & Hp0 & Hp) _].
  split; [exact Hid|]. split; [exact Ho|].
  intros k Hk. rewrite Hp0, Hp. simpl. now apply inject_other.
Qed.

Lemma join_keeps_the_rest_witness :
  foreign_members small_doc = foreign_members small_counties /\
  Forall2
    (fun f0 f =>
       Feature.id f = Feature.id f0 /\
       Feature.others f = Feature.others f0 /\
       forall key, key ∉ injected_keys ->
         Feature.properties f ≫= (fun props => props !! key)
         = Feature.properties f0 ≫= (fun props => props !! key))
    (List.filter (has_entry small_df) (features small_counties))
    (features small_doc).
Proof. apply (join_keeps_the_rest small_counties small_doc small_df). reflexivity. Defined.

Lemma filter_none {A} (l : list A) : List.filter (fun _ => false) l = [].
Proof. induction l as [|a l IH]; simpl; auto. Qed.

Lemma has_entry_nil (f0 : Feature.t) : has_entry [] f0 = false.
Proof.
  unfold has_entry. destruct (feature_fips f0) as [[| | | |key| |]|]; auto.
Qed.

Lemma merged_without_rows (counties_geojson doc : GeoJSON) :
  merged counties_geojson [] = Ok doc -> features doc = [].
Proof.
  intros Hm. apply merged_spec in Hm as [_ HF].
  apply Forall2_length in HF.
  rewrite (filter_ext (has_entry []) (fun _ => false)) in HF
    by apply has_entry_nil.
  rewrite filter_none in HF. now destruct (features doc).
Qed.

(** X4: the join never adds a feature, and with no surviving row, or with no
    polygon, it writes an empty collection. *)
Theorem join_of_nothing (counties_geojson doc : GeoJSON) (df : list County) :
  merged counties_geojson df = Ok doc ->
  (length (features doc) <= length (features counties_geojson))%nat /\
  (df = [] \/ features counties_geojson = [] -> features doc = []).
Proof.
  intros Hm. pose proof Hm as Hm'. apply merged_spec in Hm' as [_ HF].
  pose proof (Forall2_length _ _ _ HF) as Hlen.
  split.
  - rewrite <- Hlen. apply List.filter_length_le.
  - intros [E | E].
    + subst df. now apply (merged_without_rows counties_geojson).
    + rewrite E in Hlen. now destruct (features doc).
Qed.

Lemma join_of_nothing_witness :
  (length (features (collection [])) <= length (features small_counties))%nat /\
  (@nil County = [] \/ features small_counties = [] ->
   features (collection []) = []).
Proof.
  apply (join_of_nothing small_counties (collection []) []). reflexivity.
Defined.

(* ====================================================================== *)
(** * The flat table                                                      *)
(* ====================================================================== *)

Lemma clean_sublist (rows : list CensusRow) : (clean rows).*1 `sublist_of` rows.
Proof.
  unfold clean. induction rows as [|r rows IH]; simpl; [constructor|].
  destruct (keep r) as [[r' v]|] eqn:Hk; simpl.
  - apply keep_Some in Hk as (-> & _). now constructor.
  - now constructor.
Qed.

(** X5: the flat table has one line for every row that survives the
    cleaning, in the order of the response, with the row's name, its
    identifier and its population, whether or not a polygon matches. *)
Theorem csv_lists_every_surviving_row
    (census_raw : list (list string)) (rows : list CensusRow)
    (df : list County) (table : list CsvRow) :
  DataFrame census_raw = Ok rows ->
  load_table census_raw = Ok df ->
  df_out census_raw df = Ok table ->
  (fun l => (csv_FIPS l, Some (csv_NAME l), csv_population l)) <$> table
  = (fun rv => ((state rv.1 ++ county rv.1)%string, NAME rv.1, rv.2))
      <$> clean rows /\
  (clean rows).*1 `sublist_of` rows.
Proof.
  intros Hrows Hload Hout. split; [|apply clean_sublist].
  apply load_table_Ok in Hload as (rows' & Hrows' & ->).
  assert (rows' = rows) by congruence. subst rows'.
  apply df_out_spec in Hout. unfold derived_fields in Hout.
  revert Hout. generalize ((clean rows).*2). intros pops.
  generalize (clean rows). intros tbl. revert table.
  induction tbl as [|[r p] tbl IH]; intros table HF; simpl in HF.
  - now inversion HF.
  - inversion HF as [|c line l1 l2 Hcsv HF' E1 E2]. subst.
    rewrite !fmap_cons. rewrite (IH _ HF'). f_equal.
    destruct Hcsv as (H1 & H2 & H3 & _). simpl in H1, H2, H3.
    simpl. now rewrite H1, H2, H3.
Qed.

Lemma csv_lists_every_surviving_row_witness :
  (fun l => (csv_FIPS l, Some (csv_NAME l), csv_population l)) <$> small_table
  = (fun rv => ((state rv.1 ++ county rv.1)%string, NAME rv.1, rv.2))
      <$> clean small_rows /\
  (clean small_rows).*1 `sublist_of` small_rows.
Proof.
  apply (csv_lists_every_surviving_row small_census small_rows small_df
           small_table); reflexivity.
Defined.

(* ====================================================================== *)
(** * What a run does to the file system                                  *)
(* ====================================================================== *)

(** The run, stage by stage. *)
Lemma main_stages (net : Upstream) (w : World) :
  match Requests.get_json (counties net) with
  | Raise e => main net w = (Raise e, w)
  | Ok g =>
    match Requests.get_json (census net) with
    | Raise e => main net w = (Raise e, w)
    | Ok t =>
      match load_table t with
      | Raise e => main net w = (Raise e, w)
      | Ok df =>
        match merged g df with
        | Raise e => main net w = (Raise e, w)
        | Ok doc =>
          if decide (geojson_path ∈ locked w)
          then main net w = (Raise OSError, w)
          else
            match df_out t df with
            | Raise e => main net w = (Raise e, half_written w doc)
            | Ok table =>
              if decide (csv_path ∈ locked w)
              then main net w = (Raise OSError, half_written w doc)
              else main net w = (Ok tt, written w doc table)
            end
        end
      end
    end
  end.
Proof.
  unfold main, mbind, IO_bind, lift, write.
  destruct (Requests.get_json (counties net)) as [g|]; [|reflexivity].
  destruct (Requests.get_json (census net)) as [t|]; [|reflexivity].
  destruct (load_table t) as [df|]; [|reflexivity].
  destruct (merged g df) as [doc|]; [|reflexivity].
  destruct (decide (geojson_path ∈ locked w)); [reflexivity|].
  destruct (df_out t df) as [table|]; [|reflexivity]. simpl.
  destruct (decide (csv_path ∈ locked w)); reflexivity.
Qed.

Ltac stages net w :=
  pose proof (main_stages net w) as Hst;
  destruct (Requests.get_json (counties net)) as [g|] eqn:Hg;
    [destruct (Requests.get_json (census net)) as [t|] eqn:Ht;
       [destruct (load_table t) as [df|] eqn:Hl;
          [destruct (merged g df) as [doc|] eqn:Hm;
             [destruct (decide (geojson_path ∈ locked w)) as [Hgl|Hgl];
                [|destruct (df_out t df) as [table|] eqn:Ho;
                    [destruct (decide (csv_path ∈ locked w)) as [Hcl|Hcl]|]]
             |]
          |]
       |]
    |].

(** X6: a run replaces nothing but its two artifacts, it never changes
    which paths can be written, and it replaces the flat table only when
    it ends without an exception, after the geometry artifact. *)
Theorem run_touches_only_the_artifacts (net : Upstream) (w : World) :
  locked (main net w).2 = locked w /\
  (forall path, path <> geojson_path -> path <> csv_path ->
     files (main net w).2 !! path = files w !! path) /\
  (files (main net w).2 !! csv_path = files w !! csv_path \/
   ((main net w).1 = Ok tt /\
    exists doc, files (main net w).2 !! geojson_path = Some (GeoJSONFile doc))).
Proof.
  stages net w; rewrite Hst; simpl;
    (split; [reflexivity|]); (split; [|auto]);
    try (intros path H1 H2; reflexivity).
  - intros path H1 H2. now rewrite lookup_insert_ne by congruence.
  - left. now rewrite lookup_insert_ne by discriminate.
  - intros path H1 H2. now rewrite !lookup_insert_ne by congruence.
  - right. split; [reflexivity|]. exists doc.
    rewrite lookup_insert_ne by discriminate. apply lookup_insert_eq.
  - intros path H1 H2. now rewrite lookup_insert_ne by congruence.
  - left. now rewrite lookup_insert_ne by discriminate.
Qed.

(** X7: a run that raises leaves the file system as it found it, unless it
    fails in the last step: then both downloads, the table and the join
    went well, the geometry artifact is written, and either the column
    selection of the flat table raised or its path cannot be written. *)
Theorem partial_output_only_from_last_step
    (net : Upstream) (w w' : World) (e : Exception) :
  main net w = (Raise e, w') -> w' <> w ->
  exists g t df doc,
    Requests.get_json (counties net) = Ok g /\
    Requests.get_json (census net) = Ok t /\
    load_table t = Ok df /\ merged g df = Ok doc /\
    w' = half_written w doc /\
    (df_out t df = Raise e \/ (csv_path ∈ locked w /\ e = OSError)).
Proof.
  intros Hrun Hne. stages net w; rewrite Hst in Hrun;
    injection Hrun as <- <- || discriminate Hrun;
    try (now contradiction Hne);
    exists g, t, df, doc; repeat split; auto.
Qed.

Lemma csv_locked_run :
  main (answers la_sd_counties la_sd_census) csv_locked_world
  = (Raise OSError, half_written csv_locked_world la_sd_doc).
Proof. reflexivity. Qed.

Lemma half_written_differs (doc : GeoJSON) :
  half_written csv_locked_world doc <> csv_locked_world.
Proof.
  intros E. apply (f_equal (fun w => files w !! geojson_path)) in E.
  simpl in E. rewrite lookup_insert_eq, lookup_empty in E. discriminate E.
Qed.

Lemma partial_output_only_from_last_step_witness :
  exists g t df doc,
    Requests.get_json (counties (answers la_sd_counties la_sd_census)) = Ok g /\
    Requests.get_json (census (answers la_sd_counties la_sd_census)) = Ok t /\
    load_table t = Ok df /\ merged g df = Ok doc /\
    half_written csv_locked_world la_sd_doc = half_written csv_locked_world doc /\
    (df_out t df = Raise OSError \/
     (csv_path ∈ locked csv_locked_world /\ OSError = OSError)).
Proof.
  apply (partial_output_only_from_last_step
           (answers la_sd_counties la_sd_census) csv_locked_world).
  - apply csv_locked_run.
  - apply half_written_differs.
Defined.

(* ====================================================================== *)
(** * Malformed statistics responses                                      *)
(* ====================================================================== *)

Lemma rectangular_forallb (header : list string) (rows : list (list string)) :
  forallb (fun r => Nat.eqb (length r) (length header)) rows = true
  <-> rectangular header rows.
Proof.
  unfold rectangular. rewrite forallb_forall, Forall_forall.
  split; intros H r Hr.
  - apply Nat.eqb_eq, H. now apply list_elem_of_In.
  - apply Nat.eqb_eq, H. now apply list_elem_of_In.
Qed.

Lemma load_failure (net : Upstream) (w : World) g t e :
  Requests.get_json (counties net) = Ok g ->
  Requests.get_json (census net) = Ok t ->
  DataFrame t = Raise e -> main net w = (Raise e, w).
Proof.
  intros Hg Ht Hd. pose proof (main_stages net w) as H.
  rewrite Hg, Ht in H. unfold load_table in H. rewrite Hd in H. exact H.
Qed.

(** X8: a statistics response that is not a table the script can read stops
    the run before anything is written: an empty response raises
    IndexError, a row that is wider than the header ValueError, and, in
    a table whose rows are as wide as the header, a missing column among
    state, county and B01003_001E the KeyError of such a column. *)
Theorem malformed_table_writes_nothing
    (net : Upstream) (w : World) (g : GeoJSON) (t : list (list string)) :
  Requests.get_json (counties net) = Ok g ->
  Requests.get_json (census net) = Ok t ->
  (t = [] -> main net w = (Raise IndexError, w)) /\
  (forall header rows row,
     t = header :: rows -> row ∈ rows ->
     (length header < length row)%nat ->
     main net w = (Raise ValueError, w)) /\
  (forall header rows col,
     t = header :: rows -> rectangular header rows ->
     col ∈ required_columns -> index_of col header = None ->
     exists missing,
       missing ∈ required_columns /\ index_of missing header = None /\
       main net w = (Raise (KeyError missing), w)).
Proof.
  intros Hg Ht. split; [|split].
  - intros ->. now apply (load_failure net w g []).
  - intros header rows row -> Hrow Hwide.
    apply (load_failure net w g _ _ Hg Ht).
    simpl. destruct (forallb _ rows) eqn:E; [|reflexivity].
    exfalso. apply rectangular_forallb in E. unfold rectangular in E.
    rewrite Forall_forall in E. specialize (E row Hrow). lia.
  - intros header rows col -> Hrect Hcol Hmiss.
    apply rectangular_forallb in Hrect.
    assert (Hfirst : exists missing,
               missing ∈ required_columns /\ index_of missing header = None /\
               DataFrame (header :: rows) = Raise (KeyError missing)).
    { unfold DataFrame. rewrite Hrect. simpl negb. cbv iota.
      unfold has_column, required_columns.
      destruct (index_of "state" header) eqn:E1.
      - destruct (index_of "county" header) eqn:E2.
        + destruct (index_of "B01003_001E" header) eqn:E3.
          * exfalso. unfold required_columns in Hcol.
            repeat (apply elem_of_cons in Hcol as [->|Hcol]);
              try congruence. now apply elem_of_nil in Hcol.
          * exists "B01003_001E"%string. repeat split; auto.
            do 2 right. left.
        + exists "county"%string. repeat split; auto. right. left.
      - exists "state"%string. repeat split; auto. left. }
    destruct Hfirst as (missing & H1 & H2 & H3).
    exists missing. repeat split; auto.
    now apply (load_failure net w g _ _ Hg Ht).
Qed.

Lemma malformed_table_writes_nothing_witness :
  ([["NAME"; "B01003_001E"; "state"]]%string = [] ->
   main (answers la_sd_counties [["NAME"; "B01003_001E"; "state"]]%string)
     empty_world = (Raise IndexError, empty_world)) /\
  (forall header rows row,
     [["NAME"; "B01003_001E"; "state"]]%string = header :: rows ->
     row ∈ rows -> (length header < length row)%nat ->
     main (answers la_sd_counties [["NAME"; "B01003_001E"; "state"]]%string)
       empty_world = (Raise ValueError, empty_world)) /\
  (forall header rows col,
     [["NAME"; "B01003_001E"; "state"]]%string = header :: rows ->
     rectangular header rows ->
     col ∈ required_columns -> index_of col header = None ->
     exists missing,
       missing ∈ required_columns /\ index_of missing header = None /\
       main (answers la_sd_counties [["NAME"; "B01003_001E"; "state"]]%string)
         empty_world = (Raise (KeyError missing), empty_world)).
Proof.
  apply (malformed_table_writes_nothing _ empty_world la_sd_counties);
    reflexivity.
Defined.

Lemma read_rows_nameless (header : list string) (rows : list (list string)) :
  index_of "NAME" header = None ->
  forall rs, read_rows header rows = Ok rs ->
             Forall (fun r => NAME r = None) rs.
Proof.
  intros Hn. induction rows as [|row rows IH]; intros rs H; simpl in H.
  - injection H as <-. constructor.
  - apply bind_Ok in H as (r & Hr & H).
    apply bind_Ok in H as (rs' & Hrs & [= <-]).
    constructor; [|now apply IH].
    unfold read_row in Hr.
    apply bind_Ok in Hr as (st & _ & Hr).
    apply bind_Ok in Hr as (co & _ & Hr).
    apply bind_Ok in Hr as (b & _ & [= <-]). simpl.
    unfold cell. now rewrite Hn.
Qed.

Lemma DataFrame_nameless (header : list string) (rows : list (list string))
    (rs : list CensusRow) :
  index_of "NAME" header = None -> DataFrame (header :: rows) = Ok rs ->
  Forall (fun r => NAME r = None) rs.
Proof.
  intros Hn H. unfold DataFrame in H.
  destruct (negb _); [discriminate|].
  apply bind_Ok in H as (_ & _ & H). apply bind_Ok in H as (_ & _ & H).
  apply bind_Ok in H as (_ & _ & H). now apply (read_rows_nameless header rows).
Qed.

(** X9: without the column NAME the run fails with KeyError.  When a row
    survives the cleaning, the loop that fills the lookup raises it and
    nothing is written; when none survives, that loop has nothing to
    read, the geometry artifact is written with no feature, and the
    column selection of the flat table raises afterwards. *)
Theorem missing_name_column
    (net : Upstream) (w : World) (g : GeoJSON)
    (header : list string) (rows : list (list string)) (df : list County) :
  Requests.get_json (counties net) = Ok g ->
  Requests.get_json (census net) = Ok (header :: rows) ->
  index_of "NAME" header = None ->
  load_table (header :: rows) = Ok df ->
  (df <> [] -> main net w = (Raise (KeyError "NAME"), w)) /\
  (df = [] -> forall doc,
     merged g [] = Ok doc -> geojson_path ∉ locked w ->
     features doc = [] /\
     main net w = (Raise (KeyError "NAME"), half_written w doc)).
Proof.
  intros Hg Ht Hn Hl. pose proof (main_stages net w) as Hst.
  rewrite Hg, Ht, Hl in Hst. split.
  - intros Hne. destruct df as [|c df]; [congruence|].
    assert (Hc : NAME (source c) = None).
    { pose proof Hl as Hl'.
      apply load_table_Ok in Hl' as (rs & Hrs & E).
      pose proof (DataFrame_nameless _ _ _ Hn Hrs) as Hall.
      destruct (county_origin _ _ c Hl) as (rs' & Hrs' & Hsrc & _);
        [now left|].
      assert (rs' = rs) by congruence. subst rs'.
      rewrite Forall_forall in Hall. now apply Hall. }
    assert (Hm : merged g (c :: df) = Raise (KeyError "NAME")).
    { unfold merged. simpl. unfold info_of. now rewrite Hc. }
    now rewrite Hm in Hst.
  - intros -> doc Hm Hgl.
    split; [now apply (merged_without_rows g)|].
    rewrite Hm in Hst. rewrite decide_False in Hst by exact Hgl.
    unfold df_out, has_column in Hst. simpl in Hst. now rewrite Hn in Hst.
Qed.

Lemma missing_name_column_witness :
  features (collection []) = [] /\
  main (answers small_counties nameless_empty_census) empty_world
  = (Raise (KeyError "NAME"), half_written empty_world (collection [])).
Proof.
  destruct (missing_name_column
              (answers small_counties nameless_empty_census) empty_world
              small_counties ["B01003_001E"; "state"; "county"]%string
              [["-666666666"; "48"; "301"]]%string [])
    as [_ H]; try reflexivity.
  apply (H eq_refl (collection [])); [reflexivity | apply not_elem_of_empty].
Defined.

(* ====================================================================== *)
(** * The artifact as the presentation layer reads it                     *)
(* ====================================================================== *)

Lemma population_color_shape (t : Q) :
  (0 <= t <= 1)%Q ->
  length (population_color t) = 4%nat /\
  Forall (fun c => 0 <= c <= 255) (population_color t).
Proof.
  intros Ht. pose proof (band_formula_range t Ht) as Hr.
  rewrite population_color_ramp. unfold ramp. split.
  - rewrite length_app, length_map. unfold band_formula.
    destruct (nth (band t) ramp_stops _) as [[? ?] ?].
    destruct (nth (S (band t)) ramp_stops _) as [[? ?] ?]. reflexivity.
  - apply Forall_app. split.
    + apply Forall_map. eapply Forall_impl; [exact Hr|]. cbv beta.
      intros x [Hx0 Hx1]. now apply int_bounds.
    + repeat constructor; lia.
Qed.

Lemma Rround_nonneg (x : R) (n : nat) : (0 <= x)%R -> (0 <= Rround x n)%R.
Proof.
  intros Hx. pose proof (Rround_ge x 0 n) as H.
  unfold Rdiv in H. rewrite Rmult_0_l in H. now apply H.
Qed.

(** X10: the app reads the collection from the path the script writes,
    and through the cache of [st.cache_data] it reads it once.  An app
    started after a run that ended without an exception loads the
    collection that run wrote; after a later run has replaced the file,
    the running app still returns the collection it loaded first, and
    an app started afresh returns the new one; where no artifact
    exists the load raises and nothing is cached.  On every feature of
    the loaded collection [log_pop] is a number that is not negative,
    [fill_color] four integers between 0 and 255, and [county_name],
    [fips] and [population_formatted] are strings. *)
Theorem app_loads_once (net1 net2 : Upstream) (w0 w1 w2 : World) :
  main net1 w0 = (Ok tt, w1) -> main net2 w1 = (Ok tt, w2) ->
  App.DATA_PATH = geojson_path /\
  (forall w, files w !! geojson_path = None ->
             App.load_geojson w None = (Raise OSError, None)) /\
  exists doc1 doc2,
    files w1 !! geojson_path = Some (GeoJSONFile doc1) /\
    files w2 !! geojson_path = Some (GeoJSONFile doc2) /\
    App.load_geojson w1 None = (Ok doc1, Some doc1) /\
    App.load_geojson w2 (App.load_geojson w1 None).2
    = (Ok doc1, Some doc1) /\
    App.load_geojson w2 None = (Ok doc2, Some doc2) /\
    forall f, f ∈ features doc1 ->
      (exists x, property f "log_pop" = JFloat x /\ (0 <= x)%R) /\
      (exists color,
         property f "fill_color" = JArr (JInt <$> color) /\
         length color = 4%nat /\ Forall (fun c => 0 <= c <= 255) color) /\
      Forall (fun key => exists s, property f key = JStr s)
        App.tooltip_fields.
Proof.
  intros Hrun1 Hrun2.
  apply main_Ok in Hrun1
    as (g & t & df & doc & table & _ & _ & Hl & Hm & _ & _ & _ & ->).
  apply main_Ok in Hrun2
    as (g' & t' & df' & doc' & table' & _ & _ & _ & _ & _ & _ & _ & ->).
  destruct (written_files w0 doc table) as [Hfile _].
  destruct (written_files (written w0 doc table) doc' table') as [Hfile' _].
  assert (Hload : forall w d,
             files w !! geojson_path = Some (GeoJSONFile d) ->
             App.load_geojson w None = (Ok d, Some d)).
  { intros w d H. unfold App.load_geojson, App.read_geojson.
    change App.DATA_PATH with geojson_path. now rewrite H. }
  split; [reflexivity|]. split.
  { intros w H. unfold App.load_geojson, App.read_geojson.
    change App.DATA_PATH with geojson_path. now rewrite H. }
  exists doc, doc'. split; [exact Hfile|]. split; [exact Hfile'|].
  split; [now apply Hload|]. split; [now rewrite (Hload _ _ Hfile)|].
  split; [now apply Hload|].
  intros f Hf.
  destruct (feature_entry _ _ _ _ Hm Hf)
    as (c & Hc & _ & H1 & _ & H3 & H4 & _ & H6 & H7).
  destruct (county_origin _ _ _ Hl Hc)
    as (_ & _ & _ & _ & Hpos & Hin & _ & Hlog & _ & Hq & Hcol).
  split; [|split].
  - exists (Rround (log_pop c) 4). split; [exact H4|].
    apply Rround_nonneg. rewrite Hlog. unfold log10.
    apply Rlt_le, Rdiv_lt_0_compat; [|apply ln_10_pos].
    rewrite <- ln_1. apply ln_increasing; [rlra|].
    rewrite Q2R_plus. apply Qlt_Rlt in Hpos.
    replace (Q2R 0) with 0%R in Hpos by (unfold Q2R; simpl; field).
    replace (Q2R 1) with 1%R by (unfold Q2R; simpl; field). rlra.
  - exists (fill_color c). split; [exact H6|].
    rewrite Hcol. apply population_color_shape.
    rewrite Hq. destruct (rank_pct_unit _ _ Hin) as [Hlo Hhi].
    split; [now apply Qlt_le_weak | exact Hhi].
  - destruct (NAME (source c)) as [name|]; [|discriminate H7].
    injection H7 as H7.
    repeat constructor.
    + exists name. exact H7.
    + exists (FIPS c). exact H1.
    + exists (population_formatted c). exact H3.
Qed.

Lemma app_loads_once_witness :
  (App.DATA_PATH = geojson_path /\
   (forall w, files w !! geojson_path = None ->
              App.load_geojson w None = (Raise OSError, None)) /\
   exists doc1 doc2,
     files (written empty_world la_sd_doc la_sd_table) !! geojson_path
     = Some (GeoJSONFile doc1) /\
     files (written (written empty_world la_sd_doc la_sd_table)
              small_doc small_table) !! geojson_path
     = Some (GeoJSONFile doc2) /\
     App.load_geojson (written empty_world la_sd_doc la_sd_table) None
     = (Ok doc1, Some doc1) /\
     App.load_geojson
       (written (written empty_world la_sd_doc la_sd_table)
          small_doc small_table)
       (App.load_geojson (written empty_world la_sd_doc la_sd_table) None).2
     = (Ok doc1, Some doc1) /\
     App.load_geojson
       (written (written empty_world la_sd_doc la_sd_table)
          small_doc small_table) None
     = (Ok doc2, Some doc2) /\
     forall f, f ∈ features doc1 ->
       (exists x, property f "log_pop" = JFloat x /\ (0 <= x)%R) /\
       (exists color,
          property f "fill_color" = JArr (JInt <$> color) /\
          length color = 4%nat /\ Forall (fun c => 0 <= c <= 255) color) /\
       Forall (fun key => exists s, property f key = JStr s)
         App.tooltip_fields) /\
  App.load_geojson
    (written (written empty_world la_sd_doc la_sd_table)
       small_doc small_table) (Some la_sd_doc)
  = (Ok la_sd_doc, Some la_sd_doc) /\
  App.load_geojson
    (written (written empty_world la_sd_doc la_sd_table)
       small_doc small_table) None
  = (Ok small_doc, Some small_doc) /\
  la_sd_doc <> small_doc.
Proof.
  split; [|split; [reflexivity|split; [reflexivity|]]].
  - apply (app_loads_once (answers la_sd_counties la_sd_census)
             (answers small_counties small_census) empty_world).
    + apply la_sd_run.
    + apply (main_run _ _ small_counties small_census small_df);
        try reflexivity; apply not_elem_of_empty.
  - intros E. apply (f_equal (fun d => length (features d))) in E.
    discriminate E.
Defined.

(* ====================================================================== *)
(** * Red grows with the rank                                             *)
(* ====================================================================== *)

Lemma red_is_formula (t : Q) :
  red (population_color t) = int (red_formula t) /\ (0 <= red_formula t)%Q.
Proof.
  unfold red, population_color, red_formula.
  bands t; cbn [nth]; split; try qlra.
  - symmetry. apply (int_Z 30).
  - apply int_comp. field.
  - apply int_comp. field.
  - symmetry. apply (int_Z 255).
Qed.

Lemma red_formula_monotone (t1 t2 : Q) :
  (t1 <= t2)%Q -> (red_formula t1 <= red_formula t2)%Q.
Proof.
  intros H. unfold red_formula. bands t1; bands t2; qlra.
Qed.

(** X11: the red channel never decreases when the rank grows. *)
Theorem red_channel_monotone (t1 t2 : Q) :
  (t1 <= t2)%Q ->
  red (population_color t1) <= red (population_color t2).
Proof.
  intros H.
  destruct (red_is_formula t1) as [-> H1].
  destruct (red_is_formula t2) as [-> H2].
  rewrite !int_nonneg by assumption.
  apply Qfloor_resp_le. now apply red_formula_monotone.
Qed.

Lemma red_channel_monotone_witness :
  red (population_color (1 # 3)) <= red (population_color (2 # 3)).
Proof. apply red_channel_monotone. discriminate. Defined.

(** X12: of two counties of the table the more populous one is never less
    red. *)
Theorem more_populous_never_less_red
    (census_raw : list (list string)) (df : list County) (c1 c2 : County) :
  load_table census_raw = Ok df -> c1 ∈ df -> c2 ∈ df ->
  (population c1 <= population c2)%Q ->
  red (fill_color c1) <= red (fill_color c2).
Proof.
  intros Hload H1 H2 Hle.
  destruct (county_origin _ _ _ Hload H1)
    as (_ & _ & _ & _ & _ & Hin1 & _ & _ & _ & Hq1 & Hc1).
  destruct (county_origin _ _ _ Hload H2)
    as (_ & _ & _ & _ & _ & Hin2 & _ & _ & _ & Hq2 & Hc2).
  rewrite Hc1, Hc2.
  destruct (red_is_formula (quantile c1)) as [-> Hr1].
  destruct (red_is_formula (quantile c2)) as [-> Hr2].
  rewrite !int_nonneg by assumption.
  apply Qfloor_resp_le, red_formula_monotone.
  rewrite Hq1, Hq2. now apply rank_pct_le.
Qed.

Lemma more_populous_never_less_red_witness :
  red (fill_color loving) <= red (fill_color king).
Proof.
  apply (more_populous_never_less_red small_census small_df).
  - reflexivity.
  - unfold small_df. apply list_elem_of_In. simpl. auto.
  - unfold small_df. apply list_elem_of_In. simpl. auto.
  - discriminate.
Defined.

(* ====================================================================== *)
(** * The top of the ranking                                              *)
(* ====================================================================== *)

Lemma count_lt_app (l1 l2 : list Q) (x : Q) :
  Pandas.count_lt (l1 ++ l2) x = Pandas.count_lt l1 x + Pandas.count_lt l2 x.
Proof.
  unfold Pandas.count_lt. rewrite List.filter_app, length_app. lia.
Qed.

Lemma count_eq_app (l1 l2 : list Q) (x : Q) :
  Pandas.count_eq (l1 ++ l2) x = Pandas.count_eq l1 x + Pandas.count_eq l2 x.
Proof.
  unfold Pandas.count_eq. rewrite List.filter_app, length_app. lia.
Qed.

(** All values of a column are below [x] exactly when the count of the
    smaller ones is its length. *)
Lemma count_lt_all (l : list Q) (x : Q) :
  Pandas.count_lt l x = Z.of_nat (length l) <-> Forall (fun y => (y < x)%Q) l.
Proof.
  unfold Pandas.count_lt. induction l as [|y l IH]; simpl.
  - split; [constructor | reflexivity].
  - pose proof (List.filter_length_le (fun y => ltb y x) l) as Hle.
    destruct (ltb y x) eqn:E; simpl.
    + apply ltb_lt in E. rewrite Forall_cons. split.
      * intros H. split; [exact E|]. apply IH. lia.
      * intros [_ H]. apply IH in H. lia.
    + split; [intros H; lia|]. intros H. apply Forall_cons in H as [H _].
      apply ltb_ge in E. exfalso. now apply (Qle_not_lt _ _ E).
Qed.

Lemma fraction_one (a d : Z) :
  0 < d -> (inject_Z a / inject_Z d == 1)%Q <-> a = d.
Proof.
  intros Hd.
  assert (Hdd : (inject_Z d / inject_Z d == 1)%Q).
  { unfold Qdiv. apply Qmult_inv_r. change 0%Q with (inject_Z 0).
    rewrite inject_Z_injective. lia. }
  split.
  - intros E. destruct (Z.lt_trichotomy a d) as [H|[H|H]]; [|exact H|].
    + apply (fraction_lt a d d Hd) in H. rewrite E, Hdd in H.
      now apply Qlt_irrefl in H.
    + apply (fraction_lt d a d Hd) in H. rewrite E, Hdd in H.
      now apply Qlt_irrefl in H.
  - now intros ->.
Qed.

(** The rank is 1 exactly for a value that every other value of the
    column is below. *)
Lemma rank_one_iff (l1 l2 : list Q) (x : Q) :
  (Pandas.rank_pct (l1 ++ x :: l2) x == 1)%Q <->
  Forall (fun y => (y < x)%Q) (l1 ++ l2).
Proof.
  set (xs := l1 ++ x :: l2).
  assert (Hin : In x xs) by (apply in_or_app; right; now left).
  rewrite (rank_pct_fraction xs x Hin).
  pose proof (length_pos xs x Hin) as Hn.
  rewrite fraction_one by lia.
  unfold rank_twice, xs.
  rewrite count_lt_app, count_eq_app, length_app. simpl length.
  change (x :: l2) with ([x] ++ l2).
  rewrite count_lt_app, count_eq_app.
  assert (Hx : Pandas.count_lt [x] x = 0 /\ Pandas.count_eq [x] x = 1).
  { unfold Pandas.count_lt, Pandas.count_eq. simpl.
    rewrite (Qeq_bool_refl x).
    assert (E : ltb x x = false) by (apply ltb_ge; apply Qle_refl).
    now rewrite E. }
  destruct Hx as [-> ->].
  pose proof (count_lt_eq_le l1 x) as H1.
  pose proof (count_lt_eq_le l2 x) as H2.
  pose proof (count_eq_nonneg l1 x) as E1.
  pose proof (count_eq_nonneg l2 x) as E2.
  rewrite Forall_app, <- !count_lt_all. lia.
Qed.

Lemma population_color_comp (t t' : Q) :
  (t == t')%Q -> population_color t = population_color t'.
Proof.
  intros E. unfold population_color.
  rewrite (ltb_comp t t' 0.25 0.25 E (Qeq_refl _)),
          (ltb_comp t t' 0.5 0.5 E (Qeq_refl _)),
          (ltb_comp t t' 0.75 0.75 E (Qeq_refl _)).
  destruct (ltb t' 0.25); [|destruct (ltb t' 0.5); [|destruct (ltb t' 0.75)]];
    repeat (f_equal; try (apply int_comp; now rewrite E)).
Qed.

(** X13: a county has rank 1 exactly when every other row of the table has a
    smaller population, so a county tied for the largest population does
    not; a county of rank 1 gets the last colour of the ramp. *)
Theorem top_county_rank_and_colour
    (census_raw : list (list string)) (l1 l2 : list County) (c : County) :
  load_table census_raw = Ok (l1 ++ c :: l2) ->
  ((quantile c == 1)%Q <->
   forall c', c' ∈ l1 ++ l2 -> (population c' < population c)%Q) /\
  ((quantile c == 1)%Q -> fill_color c = [255; 70; 0; 200]).
Proof.
  intros Hload.
  assert (Hc : c ∈ l1 ++ c :: l2)
    by (apply elem_of_app; right; apply list_elem_of_here).
  destruct (county_origin _ _ _ Hload Hc)
    as (_ & _ & _ & _ & _ & _ & _ & _ & _ & Hq & Hcol).
  rewrite map_app in Hq. simpl in Hq. split.
  - rewrite Hq, rank_one_iff, <- map_app, Forall_map, Forall_forall.
    reflexivity.
  - intros E. rewrite Hcol, (population_color_comp _ 1 E). reflexivity.
Qed.

Lemma top_county_rank_and_colour_witness :
  ((quantile king == 1)%Q <->
   forall c', c' ∈ [loving; kalawao] ++ [] ->
              (population c' < population king)%Q) /\
  ((quantile king == 1)%Q -> fill_color king = [255; 70; 0; 200]).
Proof.
  apply (top_county_rank_and_colour small_census [loving; kalawao] []).
  reflexivity.
Defined.

(* ====================================================================== *)
(** * The formatted population                                            *)
(* ====================================================================== *)

Lemma digits_no_comma (d : Decimal.uint) :
  Forall (fun c => not_comma c = true)
    (list_ascii_of_string (NilZero.string_of_uint d)).
Proof.
  assert (H : Forall (fun c => not_comma c = true)
                (list_ascii_of_string (NilEmpty.string_of_uint d)))
    by (induction d; simpl; constructor; auto).
  destruct d; simpl in *; auto.
Qed.

(** The separators are the only characters the grouping adds. *)
Lemma filter_group3 (n : nat) :
  forall l, (length l <= n)%nat -> Forall (fun c => not_comma c = true) l ->
            List.filter not_comma (group3 l) = l.
Proof.
  induction n as [|n IH]; intros l Hlen Hl.
  - destruct l; [reflexivity | simpl in Hlen; lia].
  - destruct l as [|a [|b [|c [|d rest]]]];
      try (simpl; repeat (apply Forall_cons in Hl as [-> Hl]); reflexivity).
    change (group3 (a :: b :: c :: d :: rest))
      with (a :: b :: c :: ","%char :: group3 (d :: rest)).
    pose proof Hl as Hl'.
    apply Forall_cons in Hl' as [Ha Hl'].
    apply Forall_cons in Hl' as [Hb Hl'].
    apply Forall_cons in Hl' as [Hc Hl'].
    assert (Hf : forall x k,
               List.filter not_comma (x :: k)
               = if not_comma x then x :: List.filter not_comma k
                 else List.filter not_comma k) by reflexivity.
    rewrite (Hf a), Ha, (Hf b), Hb, (Hf c), Hc, (Hf ","%char).
    change (not_comma ","%char) with false. cbv iota.
    rewrite (IH (d :: rest)); [reflexivity | simpl in *; lia | exact Hl'].
Qed.

Lemma strip_grouped (s : string) :
  Forall (fun c => not_comma c = true) (list_ascii_of_string s) ->
  strip_commas
    (string_of_list_ascii (rev (group3 (rev (list_ascii_of_string s))))) = s.
Proof.
  intros H. unfold strip_commas.
  rewrite list_ascii_of_string_of_list_ascii.
  rewrite List.filter_rev.
  rewrite (filter_group3 (length (rev (list_ascii_of_string s)))).
  - rewrite rev_involutive. apply string_of_list_ascii_of_string.
  - lia.
  - apply Forall_forall. intros c Hc. rewrite Forall_forall in H.
    apply H. apply list_elem_of_In. apply list_elem_of_In in Hc.
    now apply in_rev.
Qed.

(** X14: without its thousands separators the formatted number is the plain
    decimal numeral, and reading that numeral gives the number back. *)
Theorem format_thousands_round_trip (n : Z) :
  strip_commas (format_thousands n) = NilZero.string_of_int (Z.to_int n) /\
  Z.of_int <$> NilZero.int_of_string (strip_commas (format_thousands n))
  = Some n.
Proof.
  assert (H1 : strip_commas (format_thousands n)
               = NilZero.string_of_int (Z.to_int n)).
  { unfold format_thousands. destruct n as [|p|p]; simpl Z.ltb; cbv iota.
    - apply (strip_grouped (NilZero.string_of_uint Decimal.zero)).
      apply digits_no_comma.
    - apply (strip_grouped (NilZero.string_of_uint (Pos.to_uint p))).
      apply digits_no_comma.
    - pose proof (strip_grouped (NilZero.string_of_uint (Pos.to_uint p))
                    (digits_no_comma _)) as H.
      unfold strip_commas in *. simpl. f_equal. exact H. }
  split; [exact H1|]. rewrite H1, NilZero.isi.
  - simpl. now rewrite DecimalZ.of_to.
  - destruct n; simpl; try discriminate.
    intros [= E]. now apply DecimalPos.Unsigned.to_uint_nonnil in E.
  - destruct n; simpl; try discriminate.
    intros [= E]. now apply DecimalPos.Unsigned.to_uint_nonnil in E.
Qed.

(* ====================================================================== *)
(** * Identifiers that are not strings                                    *)
(* ====================================================================== *)

(** X15: the keys of the lookup are strings, so a polygon whose [id] is a
    number or a boolean other than zero and false matches no row: no
    written feature has such an [id]. *)
Theorem no_feature_with_numeric_id (counties_geojson doc : GeoJSON)
    (df : list County) (f : Feature.t) :
  merged counties_geojson df = Ok doc -> f ∈ features doc ->
  match Feature.id f with
  | Some (JInt n) => n = 0
  | Some (JBool b) => b = false
  | Some (JFloat x) => x = 0%R
  | _ => True
  end.
Proof.
  intros Hm Hf.
  destruct (feature_entry _ _ _ _ Hm Hf) as (c & _ & Hfips & _).
  unfold feature_fips in Hfips.
  destruct (Feature.id f) as [[|b|n|x| | |]|]; simpl in Hfips; auto.
  - destruct b; [discriminate Hfips | reflexivity].
  - destruct (n =? 0) eqn:E; simpl in Hfips; [now apply Z.eqb_eq|].
    discriminate Hfips.
  - destruct (Req_dec_T x 0); [assumption | discriminate Hfips].
Qed.

Lemma no_feature_with_numeric_id_witness :
  match Feature.id (attach "48301" "0500000US48301" loving
                      "Loving County, Texas") with
  | Some (JInt n) => n = 0
  | Some (JBool b) => b = false
  | Some (JFloat x) => x = 0%R
  | _ => True
  end.
Proof.
  apply (no_feature_with_numeric_id small_counties small_doc small_df).
  - reflexivity.
  - apply list_elem_of_here.
Defined.

(* ====================================================================== *)
(** * Where the two artifacts agree                                       *)
(* ====================================================================== *)

(** X16: every written feature has a line of the flat table with its
    identifier, on which the two artifacts agree in the name and the
    formatted population, and in the population up to its fractional
    part. *)
Theorem feature_has_its_csv_line
    (census_raw : list (list string)) (counties_geojson doc : GeoJSON)
    (df : list County) (table : list CsvRow) (f : Feature.t) :
  load_table census_raw = Ok df ->
  merged counties_geojson df = Ok doc ->
  df_out census_raw df = Ok table ->
  f ∈ features doc ->
  exists line,
    line ∈ table /\
    property f "fips" = JStr (csv_FIPS line) /\
    property f "county_name" = JStr (csv_NAME line) /\
    property f "population_formatted" = JStr (csv_population_formatted line) /\
    property f "population" = JInt (int (csv_population line)).
Proof.
  intros Hl Hm Ho Hf.
  destruct (feature_entry _ _ _ _ Hm Hf)
    as (c & Hc & _ & H1 & H2 & H3 & _ & _ & _ & H7).
  apply df_out_spec in Ho.
  assert (Hline : exists line, line ∈ table /\ csv_of c line).
  { clear -Ho Hc. induction Ho as [|c' line df table Hcsv HF IH].
    - now apply elem_of_nil in Hc.
    - apply elem_of_cons in Hc as [->|Hc].
      + exists line. split; [apply list_elem_of_here | exact Hcsv].
      + destruct (IH Hc) as (l & Hl & Hcl). exists l.
        split; [now apply list_elem_of_further | exact Hcl]. }
  destruct Hline as (line & Hline & E1 & E2 & E3 & E4 & _).
  exists line. split; [exact Hline|].
  rewrite E1, E3, E4. repeat split; auto.
  rewrite <- E2 in H7. now injection H7.
Qed.

Lemma feature_has_its_csv_line_witness :
  exists line,
    line ∈ small_table /\
    property (attach "48301" "0500000US48301" loving "Loving County, Texas")
      "fips" = JStr (csv_FIPS line) /\
    property (attach "48301" "0500000US48301" loving "Loving County, Texas")
      "county_name" = JStr (csv_NAME line) /\
    property (attach "48301" "0500000US48301" loving "Loving County, Texas")
      "population_formatted" = JStr (csv_population_formatted line) /\
    property (attach "48301" "0500000US48301" loving "Loving County, Texas")
      "population" = JInt (int (csv_population line)).
Proof.
  apply (feature_has_its_csv_line small_census small_counties small_doc
           small_df small_table); try reflexivity.
  apply list_elem_of_here.
Defined.
